(** * down-detector: status-check scheduling and incident lifecycle

    A shallow embedding of the probe classifier ([src/lib/status-utils.ts]),
    of the check cycle and its incident reconciliation
    ([POST /api/check-status]), of the manual triggers, and of the two admin
    routes that create services and incidents, over the tables of
    [src/schema.sql]. *)

From Stdlib Require Import ZArith List String Ascii Bool Lia.
From Stdlib Require Import DecimalString.
Import ListNotations.

Open Scope string_scope.
Open Scope Z_scope.

(** ** JavaScript values the code relies on *)

Module Js.

(** A thrown value as the handlers inspect it: [e?.name] and [e?.message];
    [None] stands for [undefined]. What [fetch] rejects with is an [Error]
    object ([TypeError], or the [DOMException] named AbortError after
    [controller.abort()]), so both fields are strings when present. *)
Record JsError := mkError { err_name : option string; err_message : option string }.

(** Completion of an awaited expression: a value, or a thrown error. *)
Inductive completion (A : Type) : Type :=
| Normal (a : A)
| Throw (e : JsError).
Arguments Normal {A} a.
Arguments Throw {A} e.

(** [try { body } catch (e) { handler }] *)
Definition try_catch {A} (body : completion A) (handler : JsError -> completion A)
  : completion A :=
  match body with
  | Normal a => Normal a
  | Throw e => handler e
  end.

Definition cbind {A B} (c : completion A) (k : A -> completion B) : completion B :=
  match c with
  | Normal a => k a
  | Throw e => Throw e
  end.

(** Truthiness of a string-or-undefined value. *)
Definition truthy (s : option string) : bool :=
  match s with
  | Some EmptyString => false
  | Some _ => true
  | None => false
  end.

(** [a || b] on strings. *)
Definition or_else (s : option string) (dflt : string) : string :=
  match s with
  | Some EmptyString => dflt
  | Some v => v
  | None => dflt
  end.

(** [String.prototype.includes] *)
Fixpoint includes (needle hay : string) : bool :=
  if String.prefix needle hay then true
  else match hay with
       | EmptyString => false
       | String _ rest => includes needle rest
       end.

(** [`${n}`] for an integer. *)
Definition number_to_string (n : Z) : string :=
  NilZero.string_of_int (Z.to_int n).

Definition lower_ascii (c : ascii) : ascii :=
  let n := nat_of_ascii c in
  if (andb (Nat.leb 65 n) (Nat.leb n 90)) then ascii_of_nat (n + 32) else c.

(** [toLowerCase] on the ASCII text of a header or query parameter. *)
Fixpoint toLowerCase (s : string) : string :=
  match s with
  | EmptyString => EmptyString
  | String c rest => String (lower_ascii c) (toLowerCase rest)
  end.

End Js.
Import Js.

(** ** The prober: [checkServiceStatus] *)

Module Prober.

Inductive Status := operational | degraded | down.

Definition status_text (s : Status) : string :=
  match s with
  | operational => "operational"
  | degraded => "degraded"
  | down => "down"
  end.

Record ProbeResult := mkProbeResult {
  status : Status;
  response_time : option Z;
  status_code : option Z;
  error_message : option string
}.

(** The helper [classify] of [checkServiceStatus]. *)
Definition classify (statusCode latencyMs : Z) : Status * option string :=
  if (200 <=? statusCode) && (statusCode <? 300) then
    (if 2500 <? latencyMs then degraded else operational,
     if 2500 <? latencyMs then Some "Slow response" else None)
  else if (statusCode =? 401) || (statusCode =? 403) then
    (operational, None)
  else if statusCode =? 429 then
    (degraded, Some "Rate limited (429)")
  else if statusCode =? 404 then
    (degraded, Some "Page not found (404)")
  else if 500 <=? statusCode then
    (down, Some ("Server error (" ++ number_to_string statusCode ++ ")"))
  else if 400 <=? statusCode then
    (degraded, Some ("Client error (" ++ number_to_string statusCode ++ ")"))
  else if (300 <=? statusCode) && (statusCode <? 400) then
    (operational, None)
  else
    (degraded, Some ("Unexpected status (" ++ number_to_string statusCode ++ ")")).

(** What one call of [checkServiceStatus] observes of the outside world: the
    readings of [Date.now()] in program order and the completion of the two
    [fetch] calls (the [status] of the response, or the error thrown). The
    HEAD fields are consulted only when the GET attempt threw. *)
Record ProbeEnv := mkProbeEnv {
  startTime : Z;
  get_fetch : completion Z;
  now_after_get : Z;
  headStart : Z;
  head_fetch : completion Z;
  now_after_head : Z;
  now_at_failure : Z
}.

Definition is_abort (e : JsError) : bool :=
  match err_name e with
  | Some n => String.eqb n "AbortError"
  | None => false
  end.

Definition message_includes (e : JsError) (needle : string) : bool :=
  match err_message e with
  | Some m => includes needle m
  | None => false
  end.

(** The [errorMessage] chain of the innermost [catch]. *)
Definition failure_message (e : JsError) : string :=
  if is_abort e then "Request timeout (>10s)"
  else if message_includes e "ENOTFOUND" then "Domain not found (DNS error)"
  else if message_includes e "ECONNREFUSED" then "Connection refused"
  else or_else (err_message e) "Connection failed".

Definition checkServiceStatus (env : ProbeEnv) : completion ProbeResult :=
  try_catch
    (cbind (get_fetch env) (fun response_status =>
       let responseTime := now_after_get env - startTime env in
       let '(st, message) := classify response_status responseTime in
       Normal {| status := st;
                 response_time := Some responseTime;
                 status_code := Some response_status;
                 error_message := message |}))
    (fun error =>
       try_catch
         (cbind (head_fetch env) (fun head_status =>
            let headLatency := now_after_head env - headStart env in
            let '(st, message) := classify head_status headLatency in
            Normal {| status := st;
                      response_time := Some headLatency;
                      status_code := Some head_status;
                      error_message :=
                        if truthy message
                        then Some ("Fallback HEAD: " ++ or_else message "")
                        else None |}))
         (fun fallbackError =>
            let totalLatency := now_at_failure env - startTime env in
            let e := error in
            Normal {| status := down;
                      response_time := if is_abort e then None else Some totalLatency;
                      status_code := None;
                      error_message := Some (failure_message e) |})).

End Prober.
Import Prober.

(** ** The tables of [schema.sql] *)

Module Schema.

(** Rows carry the columns that some modelled statement writes or reads;
    the surrogate keys of [status_checks], [incident_updates] and
    [announcement_reasons] and the [created_at]/[updated_at] bookkeeping
    columns of [services] and [incidents] are read by none of them and are
    left out. Timestamps are microseconds, PostgreSQL's resolution. *)

Record Service := mkService {
  svc_id : Z;
  svc_name : string;
  svc_url : string;
  svc_description : option string;
  is_active : bool;
  check_interval : Z
}.

Record StatusCheck := mkStatusCheck {
  sc_service_id : Z;
  sc_status : string;
  sc_response_time : option Z;
  sc_status_code : option Z;
  sc_error_message : option string;
  checked_at : Z
}.

Record Incident := mkIncident {
  inc_id : Z;
  inc_service_id : Z;
  inc_title : string;
  inc_description : option string;
  inc_status : string;
  inc_severity : string;
  started_at : Z;
  resolved_at : option Z
}.

Record IncidentUpdate := mkIncidentUpdate {
  iu_incident_id : Z;
  iu_message : string;
  iu_status : string;
  iu_created_at : Z
}.

Record ReasonTemplate := mkReasonTemplate {
  tpl_code : string;
  tpl_label : string;
  tpl_weight : option Z
}.

Record AnnouncementReason := mkAnnouncementReason {
  ar_incident_id : Z;
  ar_service_id : Z;
  reason_code : string;
  reason_text : string
}.

Record Db := mkDb {
  services : list Service;
  status_checks : list StatusCheck;
  incidents : list Incident;
  incident_updates : list IncidentUpdate;
  announcement_reason_templates : list ReasonTemplate;
  announcement_reasons : list AnnouncementReason;
  services_id_seq : Z;
  incidents_id_seq : Z
}.

Definition usec_per_sec : Z := 1000000.

(** [make_interval(secs => n)] *)
Definition make_interval_secs (n : Z) : Z := n * usec_per_sec.

(** [INTERVAL '30 days'] *)
Definition interval_30_days : Z := 30 * 86400 * usec_per_sec.

Definition db_error (msg : string) : JsError :=
  mkError (Some "error") (Some msg).

(** [status != 'resolved'] *)
Definition not_resolved (i : Incident) : bool :=
  negb (String.eqb (inc_status i) "resolved").

Definition active_for (sid : Z) (i : Incident) : bool :=
  (inc_service_id i =? sid) && not_resolved i.

(** [SELECT * FROM services WHERE is_active = true] *)
Definition sql_active_services (d : Db) : list Service :=
  filter is_active (services d).

(** The CTE [last_check]: per service the greatest [checked_at], no row for
    a service without checks. *)
Definition last_check (d : Db) (sid : Z) : option Z :=
  fold_left
    (fun best c =>
       if sc_service_id c =? sid then
         match best with
         | None => Some (checked_at c)
         | Some t => Some (Z.max t (checked_at c))
         end
       else best)
    (status_checks d) None.

(** The [WHERE] clause of the due-services query for one service row. *)
Definition is_due (d : Db) (now : Z) (s : Service) : bool :=
  is_active s &&
  match last_check d (svc_id s) with
  | None => true
  | Some t => t <=? now - make_interval_secs (check_interval s)
  end.

Definition sql_due_services (d : Db) (now : Z) : list Service :=
  filter (is_due d now) (services d).

(** [SELECT id FROM incidents WHERE service_id=$1 AND status!='resolved'
     ORDER BY started_at DESC LIMIT 1] *)
Definition sql_active_incident (d : Db) (sid : Z) : option Z :=
  option_map inc_id
    (fold_left
       (fun best i =>
          if active_for sid i then
            match best with
            | None => Some i
            | Some b => if started_at b <? started_at i then Some i else Some b
            end
          else best)
       (incidents d) None).

Definition service_exists (d : Db) (sid : Z) : bool :=
  existsb (fun s => svc_id s =? sid) (services d).

(** [INSERT INTO incidents (service_id, title, description, status,
     severity, started_at) VALUES ($1,$2,$3,$4,$5,NOW()) RETURNING ...]:
    the foreign key to [services], [title NOT NULL] and the three
    [VARCHAR] widths can reject the row. *)
Definition sql_insert_incident (sid : Z) (title : option string)
    (description : option string) (st severity : string) (now : Z) (d : Db)
  : completion (Incident * Db) :=
  match title with
  | None => Throw (db_error "null value in column title")
  | Some t =>
    if negb (service_exists d sid) then
      Throw (db_error "violates foreign key constraint fk_service_incident")
    else if negb ((String.length t <=? 255)%nat && (String.length st <=? 20)%nat
                  && (String.length severity <=? 20)%nat) then
      Throw (db_error "value too long for type character varying")
    else
      let row := {| inc_id := incidents_id_seq d;
                    inc_service_id := sid;
                    inc_title := t;
                    inc_description := description;
                    inc_status := st;
                    inc_severity := severity;
                    started_at := now;
                    resolved_at := None |} in
      Normal (row,
              {| services := services d;
                 status_checks := status_checks d;
                 incidents := (incidents d ++ [row])%list;
                 incident_updates := incident_updates d;
                 announcement_reason_templates := announcement_reason_templates d;
                 announcement_reasons := announcement_reasons d;
                 services_id_seq := services_id_seq d;
                 incidents_id_seq := incidents_id_seq d + 1 |})
  end.

Definition resolve_row (sid now : Z) (i : Incident) : Incident :=
  if active_for sid i then
    {| inc_id := inc_id i;
       inc_service_id := inc_service_id i;
       inc_title := inc_title i;
       inc_description := inc_description i;
       inc_status := "resolved";
       inc_severity := inc_severity i;
       started_at := started_at i;
       resolved_at := Some now |}
  else i.

(** [UPDATE incidents SET status = 'resolved', resolved_at = NOW()
     WHERE service_id = $1 AND status != 'resolved' RETURNING id] *)
Definition sql_resolve_incidents (sid now : Z) (d : Db) : list Z * Db :=
  (map inc_id (filter (active_for sid) (incidents d)),
   {| services := services d;
      status_checks := status_checks d;
      incidents := map (resolve_row sid now) (incidents d);
      incident_updates := incident_updates d;
      announcement_reason_templates := announcement_reason_templates d;
      announcement_reasons := announcement_reasons d;
      services_id_seq := services_id_seq d;
      incidents_id_seq := incidents_id_seq d |}).

Definition id_in (ids : list Z) (x : Z) : bool := existsb (Z.eqb x) ids.

(** [DELETE FROM announcement_reasons WHERE incident_id = ANY($1)] *)
Definition sql_delete_reasons (ids : list Z) (d : Db) : Db :=
  {| services := services d;
     status_checks := status_checks d;
     incidents := incidents d;
     incident_updates := incident_updates d;
     announcement_reason_templates := announcement_reason_templates d;
     announcement_reasons :=
       filter (fun r => negb (id_in ids (ar_incident_id r))) (announcement_reasons d);
     services_id_seq := services_id_seq d;
     incidents_id_seq := incidents_id_seq d |}.

(** [INSERT INTO incident_updates (incident_id, message, status) VALUES ...],
    one tuple per element of [rows]. *)
Definition sql_insert_incident_updates (rows : list (Z * string * string)) (now : Z)
    (d : Db) : Db :=
  {| services := services d;
     status_checks := status_checks d;
     incidents := incidents d;
     incident_updates :=
       (incident_updates d ++
        map (fun '(iid, msg, st) =>
               {| iu_incident_id := iid; iu_message := msg;
                  iu_status := st; iu_created_at := now |}) rows)%list;
     announcement_reason_templates := announcement_reason_templates d;
     announcement_reasons := announcement_reasons d;
     services_id_seq := services_id_seq d;
     incidents_id_seq := incidents_id_seq d |}.

(** Insertion into [announcement_reasons] under [UNIQUE (incident_id)]: the
    SQL path says [ON CONFLICT (incident_id) DO NOTHING]; the Supabase client
    reports the violation in its result instead of throwing. Either way a
    second row for the same incident is not stored. *)
Definition sql_insert_reason (iid sid : Z) (code text : string) (d : Db) : Db :=
  if existsb (fun r => ar_incident_id r =? iid) (announcement_reasons d) then d
  else
    {| services := services d;
       status_checks := status_checks d;
       incidents := incidents d;
       incident_updates := incident_updates d;
       announcement_reason_templates := announcement_reason_templates d;
       announcement_reasons :=
         (announcement_reasons d ++
          [{| ar_incident_id := iid; ar_service_id := sid;
              reason_code := code; reason_text := text |}])%list;
       services_id_seq := services_id_seq d;
       incidents_id_seq := incidents_id_seq d |}.

(** [cleanup_old_status_checks()] *)
Definition cleanup_old_status_checks (now : Z) (d : Db) : Db :=
  {| services := services d;
     status_checks :=
       filter (fun c => negb (checked_at c <? now - interval_30_days)) (status_checks d);
     incidents := incidents d;
     incident_updates := incident_updates d;
     announcement_reason_templates := announcement_reason_templates d;
     announcement_reasons := announcement_reasons d;
     services_id_seq := services_id_seq d;
     incidents_id_seq := incidents_id_seq d |}.

(** The batch [INSERT INTO status_checks ...]; [checked_at] takes its default
    and the statement trigger [status_checks_retention] runs the cleanup. *)
Definition sql_insert_status_checks
    (rows : list (Z * string * option Z * option Z * option string)) (now : Z)
    (d : Db) : Db :=
  cleanup_old_status_checks now
    {| services := services d;
       status_checks :=
         (status_checks d ++
          map (fun '(sid, st, rt, code, msg) =>
                 {| sc_service_id := sid; sc_status := st; sc_response_time := rt;
                    sc_status_code := code; sc_error_message := msg;
                    checked_at := now |}) rows)%list;
       incidents := incidents d;
       incident_updates := incident_updates d;
       announcement_reason_templates := announcement_reason_templates d;
       announcement_reasons := announcement_reasons d;
       services_id_seq := services_id_seq d;
       incidents_id_seq := incidents_id_seq d |}.

(** [INSERT INTO services (name, url, description, check_interval)
     VALUES ($1,$2,$3,$4) RETURNING *]: [is_active] takes its column default
    [true]; [check_interval] is given, so its column default (420) is not
    consulted. *)
Definition sql_insert_service (name url : string) (description : option string)
    (interval : Z) (d : Db) : completion (Service * Db) :=
  if negb ((String.length name <=? 255)%nat && (String.length url <=? 500)%nat) then
    Throw (db_error "value too long for type character varying")
  else if existsb (fun s => String.eqb (svc_url s) url) (services d) then
    Throw (db_error "duplicate key value violates unique constraint services_url_unique")
  else
    let row := {| svc_id := services_id_seq d;
                  svc_name := name;
                  svc_url := url;
                  svc_description := description;
                  is_active := true;
                  check_interval := interval |} in
    Normal (row,
            {| services := (services d ++ [row])%list;
               status_checks := status_checks d;
               incidents := incidents d;
               incident_updates := incident_updates d;
               announcement_reason_templates := announcement_reason_templates d;
               announcement_reasons := announcement_reasons d;
               services_id_seq := services_id_seq d + 1;
               incidents_id_seq := incidents_id_seq d |}).

End Schema.
Import Schema.

(** ** Route handlers *)

Module Engine.

(** What a handler does to the outside: statements sent through [query],
    calls through the Supabase client, and probes. *)
Inductive Event :=
| EvQuery (sql : string)
| EvSupabase (table : string)
| EvProbe (url : string).

Record World := mkWorld { db : Db; trace : list Event }.

(** Handlers are state transformers over [World] that may throw. *)
Definition M (A : Type) : Type := World -> completion A * World.

Definition ret {A} (a : A) : M A := fun w => (Normal a, w).

Definition bind {A B} (m : M A) (k : A -> M B) : M B :=
  fun w =>
    match m w with
    | (Normal a, w') => k a w'
    | (Throw e, w') => (Throw e, w')
    end.

Definition catch {A} (m : M A) (handler : JsError -> M A) : M A :=
  fun w =>
    match m w with
    | (Normal a, w') => (Normal a, w')
    | (Throw e, w') => handler e w'
    end.

Notation "x <- m ;; k" := (bind m (fun x => k))
  (at level 61, m at next level, right associativity).
Notation "m ;;; k" := (bind m (fun _ => k))
  (at level 61, right associativity).

Definition log (ev : Event) (w : World) : World :=
  {| db := db w; trace := (trace w ++ [ev])%list |}.

(** [await query(sql, params)] with a statement that may be rejected. *)
Definition query {A} (sql : string) (stmt : Db -> completion (A * Db)) : M A :=
  fun w =>
    match stmt (db w) with
    | Normal (a, d) => (Normal a, {| db := d; trace := trace (log (EvQuery sql) w) |})
    | Throw e => (Throw e, log (EvQuery sql) w)
    end.

Definition query_read {A} (sql : string) (f : Db -> A) : M A :=
  query sql (fun d => Normal (f d, d)).

Definition query_write (sql : string) (f : Db -> Db) : M unit :=
  query sql (fun d => Normal (tt, f d)).

(** A call through the Supabase client; its failures come back in the result
    and are not thrown. *)
Definition supabase_call {A} (table : string) (f : Db -> A * Db) : M A :=
  fun w =>
    let '(a, d) := f (db w) in
    (Normal a, {| db := d; trace := trace (log (EvSupabase table) w) |}).

(** Process environment. *)
Record Config := mkConfig {
  CRON_SECRET : option string;
  supabase : bool            (* [getSupabaseServer()] is not null *)
}.

(** Inputs a cycle draws from outside the database. *)
Record Oracle := mkOracle {
  net : string -> ProbeEnv;                 (* what probing a url observes *)
  templates_data : bool;                    (* the template select returned data *)
  rand_index : Z -> nat -> nat              (* Math.floor(Math.random() * length),
                                               per service *)
}.

Record Request := mkRequest {
  header_authorization : option string;
  header_x_force_check : option string;
  param_secret : option string;             (* searchParams.get("secret") *)
  param_force : option string               (* searchParams.get("force") *)
}.

Record ResultEntry := mkResultEntry {
  re_service : string;
  re_status : string;
  re_response_time : option Z
}.

Inductive Body :=
| ErrorBody (error : string)
| CheckBody (success : bool) (checked : nat) (results : list ResultEntry)
| ServiceBody (service : Service)
| IncidentBody (incident : Incident).

Record Response := mkResponse { http_status : Z; body : Body }.

Definition json (b : Body) (code : Z) : Response :=
  {| http_status := code; body := b |}.

(** [await checkServiceStatus(url)] *)
Definition probe (orc : Oracle) (url : string) : M ProbeResult :=
  fun w =>
    (checkServiceStatus (net orc url), log (EvProbe url) w).

(** Truthiness of [incidentId: number | null]. *)
Definition truthy_id (i : option Z) : bool :=
  match i with
  | Some 0 => false
  | Some _ => true
  | None => false
  end.

(** [Math.max(1, Number(t.weight) || 1)] *)
Definition template_weight (t : ReasonTemplate) : Z :=
  Z.max 1 (match tpl_weight t with
           | None => 1
           | Some 0 => 1
           | Some w => w
           end).

(** The array [expanded]: each template repeated [weight] times. *)
Definition expanded (templates : list ReasonTemplate) : list (string * string) :=
  flat_map
    (fun t => repeat (tpl_code t, tpl_label t) (Z.to_nat (template_weight t)))
    templates.

Definition pick_reason (templates : list ReasonTemplate) (draw : nat -> nat)
  : string * string :=
  let dflt := ("SERVER", "Server maintenance or outage") in
  match templates with
  | [] => dflt
  | _ =>
    let ex := expanded templates in
    match nth_error ex (draw (List.length ex)) with
    | Some pick => pick
    | None => dflt
    end
  end.

Definition select_active_incident : string :=
  "SELECT id FROM incidents WHERE service_id=$1 AND status!='resolved' ORDER BY started_at DESC LIMIT 1".

(** The [down] branch of the worker. *)
Definition reconcile_down (cfg : Config) (orc : Oracle) (now : Z)
    (service : Service) (statusResult : ProbeResult) : M unit :=
  active <- query_read select_active_incident
              (fun d => sql_active_incident d (svc_id service)) ;;
  if negb (truthy_id active) then
    created <- query "INSERT INTO incidents"
                 (sql_insert_incident (svc_id service)
                    (Some (svc_name service ++ " is down"))
                    (Some (or_else (error_message statusResult)
                                   "Service is not responding"))
                    "investigating" "major" now) ;;
    let incidentId := inc_id created in
    templates <- (if supabase cfg
                  then supabase_call "announcement_reason_templates"
                         (fun d => (if templates_data orc
                                    then announcement_reason_templates d
                                    else [], d))
                  else ret []) ;;
    let '(reasonCode, reasonText) :=
      pick_reason templates (rand_index orc (svc_id service)) in
    if supabase cfg then
      supabase_call "announcement_reasons"
        (fun d => (tt, sql_insert_reason incidentId (svc_id service)
                         reasonCode reasonText d))
    else
      query_write "INSERT INTO announcement_reasons"
        (sql_insert_reason incidentId (svc_id service) reasonCode reasonText)
  else ret tt.

Definition restored_message : string :=
  "Service has been restored and is operational".

(** The [operational] branch of the worker. *)
Definition reconcile_operational (cfg : Config) (now : Z) (service : Service)
  : M unit :=
  resolved <- query "UPDATE incidents SET status = 'resolved'"
                (fun d => Normal (sql_resolve_incidents (svc_id service) now d)) ;;
  if (0 <? List.length resolved)%nat then
    let ids := resolved in
    (if supabase cfg then
       supabase_call "announcement_reasons"
         (fun d => (tt, sql_delete_reasons ids d))
     else
       query_write "DELETE FROM announcement_reasons" (sql_delete_reasons ids)) ;;;
    let values := map (fun id => (id, restored_message, "resolved")) resolved in
    query_write "INSERT INTO incident_updates"
      (sql_insert_incident_updates values now)
  else ret tt.

(** Incident management for one probed service. *)
Definition reconcile (cfg : Config) (orc : Oracle) (now : Z) (service : Service)
    (statusResult : ProbeResult) : M unit :=
  match status statusResult with
  | down => reconcile_down cfg orc now service statusResult
  | operational => reconcile_operational cfg now service
  | degraded => ret tt
  end.

Definition Collected : Type := Z * string * ProbeResult.

Record CycleAcc := mkAcc {
  results : list ResultEntry;
  collected : list Collected
}.

(** One iteration of the [while] loop of [worker]. *)
Definition worker_step (cfg : Config) (orc : Oracle) (now : Z)
    (service : Service) (acc : CycleAcc) : M CycleAcc :=
  statusResult <- probe orc (svc_url service) ;;
  let collected' :=
    (collected acc ++ [(svc_id service, svc_name service, statusResult)])%list in
  reconcile cfg orc now service statusResult ;;;
  ret {| results :=
           (results acc ++
            [{| re_service := svc_name service;
                re_status := status_text (status statusResult);
                re_response_time := response_time statusResult |}])%list;
         collected := collected' |}.

(** The worker pool, one service after the other in the order the shared
    index hands them out. The interleaving of the five workers at their
    [await]s is not represented. *)
Fixpoint run_workers (cfg : Config) (orc : Oracle) (now : Z)
    (svcs : list Service) (acc : CycleAcc) : M CycleAcc :=
  match svcs with
  | [] => ret acc
  | service :: rest =>
    acc' <- worker_step cfg orc now service acc ;;
    run_workers cfg orc now rest acc'
  end.

Definition opt_string_eqb (a b : option string) : bool :=
  match a, b with
  | Some x, Some y => String.eqb x y
  | None, None => true
  | _, _ => false
  end.

Definition status_check_row (c : Collected)
  : Z * string * option Z * option Z * option string :=
  let '(id, _, r) := c in
  (id, status_text (status r), response_time r, status_code r, error_message r).

(** The statement behind [servicesResult]: all active services when forced,
    else those that are due. *)
Definition services_query (force : bool) (now : Z) : M (list Service) :=
  if force
  then query_read "SELECT * FROM services WHERE is_active = true"
         sql_active_services
  else query_read "WITH last_check AS (...) SELECT s.* FROM services s ..."
         (fun d => sql_due_services d now).

(** [POST /api/check-status] *)
Definition POST (cfg : Config) (orc : Oracle) (now : Z) (request : Request)
  : M Response :=
  catch
    (let authHeader := header_authorization request in
     let cronSecret := CRON_SECRET cfg in
     if truthy cronSecret &&
        negb (opt_string_eqb authHeader (Some ("Bearer " ++ or_else cronSecret "")))
     then ret (json (ErrorBody "Unauthorized") 401)
     else
       let forceHeader := toLowerCase (or_else (header_x_force_check request) "") in
       let force := String.eqb forceHeader "1" || String.eqb forceHeader "true" in
       svcs <- services_query force now ;;
       acc <- run_workers cfg orc now svcs {| results := []; collected := [] |} ;;
       (if (0 <? List.length (collected acc))%nat
        then query_write "INSERT INTO status_checks"
               (sql_insert_status_checks (map status_check_row (collected acc)) now)
        else ret tt) ;;;
       query_write "SELECT cleanup_old_status_checks()"
         (cleanup_old_status_checks now) ;;;
       ret (json (CheckBody true (List.length (results acc)) (results acc)) 200))
    (fun error => ret (json (ErrorBody "Failed to check service status") 500)).

(** [secret !== process.env.CRON_SECRET]: a missing query parameter is
    [null], an unset variable [undefined], and the two differ. *)
Definition strict_neq (secret env : option string) : bool :=
  match secret, env with
  | Some a, Some b => negb (String.eqb a b)
  | _, _ => true
  end.

(** [String(v)] of an environment variable inside a template literal. *)
Definition env_text (v : option string) : string :=
  match v with
  | Some s => s
  | None => "undefined"
  end.

(** [GET /api/check-status] *)
Definition GET (cfg : Config) (orc : Oracle) (now : Z) (request : Request)
  : M Response :=
  let secret := param_secret request in
  let forceParam := toLowerCase (or_else (param_force request) "") in
  if strict_neq secret (CRON_SECRET cfg) then
    ret (json (ErrorBody "Unauthorized") 401)
  else
    let postRequest :=
      {| header_authorization := Some ("Bearer " ++ env_text (CRON_SECRET cfg));
         header_x_force_check :=
           Some (if String.eqb forceParam "1" || String.eqb forceParam "true"
                 then "1" else "0");
         param_secret := param_secret request;
         param_force := param_force request |} in
    POST cfg orc now postRequest.

(** [GET /api/check-status/force/[secret]] *)
Definition force_GET (cfg : Config) (orc : Oracle) (now : Z) (request : Request)
    (secret : string) : M Response :=
  let expected := or_else (CRON_SECRET cfg) "" in
  if negb (truthy (Some expected)) || negb (String.eqb secret expected) then
    ret (json (ErrorBody "Unauthorized") 401)
  else
    let forced :=
      {| header_authorization := Some ("Bearer " ++ expected);
         header_x_force_check := Some "1";
         param_secret := param_secret request;
         param_force := param_force request |} in
    POST cfg orc now forced.

(** JSON body of [POST /api/services]. *)
Record ServiceInput := mkServiceInput {
  in_name : option string;
  in_url : option string;
  in_description : option string;
  in_check_interval : option Z
}.

(** [check_interval || 300] *)
Definition interval_or_300 (v : option Z) : Z :=
  match v with
  | None => 300
  | Some 0 => 300
  | Some n => n
  end.

(** [POST /api/services] *)
Definition services_POST (input : ServiceInput) : M Response :=
  catch
    (if negb (truthy (in_name input)) || negb (truthy (in_url input)) then
       ret (json (ErrorBody "Name and URL are required") 400)
     else
       row <- query "INSERT INTO services"
                (sql_insert_service (or_else (in_name input) "")
                   (or_else (in_url input) "")
                   (if truthy (in_description input) then in_description input else None)
                   (interval_or_300 (in_check_interval input))) ;;
       ret (json (ServiceBody row) 201))
    (fun error => ret (json (ErrorBody "Failed to create service") 500)).

(** JSON body of [POST /api/services/[id]/incidents]. *)
Record IncidentInput := mkIncidentInput {
  in_title : option string;
  in_inc_description : option string;
  in_severity : option string;
  in_status : option string
}.

(** [POST /api/services/[id]/incidents]; [serviceId] is [parseInt(id)], with
    [None] for [NaN]. *)
Definition incidents_POST (serviceId : option Z) (input : IncidentInput) (now : Z)
  : M Response :=
  catch
    (match serviceId with
     | None => ret (json (ErrorBody "Invalid service ID") 400)
     | Some sid =>
       row <- query "INSERT INTO incidents"
                (sql_insert_incident sid (in_title input)
                   (if truthy (in_inc_description input)
                    then in_inc_description input else None)
                   (or_else (in_status input) "investigating")
                   (or_else (in_severity input) "major") now) ;;
       ret (json (IncidentBody row) 201)
     end)
    (fun error => ret (json (ErrorBody "Failed to create incident") 500)).

(** *** Reachable states *)

(** A fresh installation: services and reason templates as configured, no
    check, incident, update or reason yet, sequences at their first value
    or beyond the seeded services. *)
Definition fresh (d : Db) : Prop :=
  status_checks d = [] /\ incidents d = [] /\ incident_updates d = [] /\
  announcement_reasons d = [] /\ incidents_id_seq d = 1.

Inductive step (cfg : Config) (w : World) : World -> Prop :=
| step_POST orc now request :
    step cfg w (snd (POST cfg orc now request w))
| step_GET orc now request :
    step cfg w (snd (GET cfg orc now request w))
| step_force_GET orc now request secret :
    step cfg w (snd (force_GET cfg orc now request secret w))
| step_services_POST input :
    step cfg w (snd (services_POST input w))
| step_incidents_POST serviceId input now :
    step cfg w (snd (incidents_POST serviceId input now w)).

Inductive reachable (cfg : Config) : World -> Prop :=
| reach_fresh d : fresh d -> reachable cfg {| db := d; trace := [] |}
| reach_step w w' : reachable cfg w -> step cfg w w' -> reachable cfg w'.

(** Number of incidents of a target whose status is not ['resolved']. *)
Definition active_count (d : Db) (sid : Z) : nat :=
  List.length (filter (active_for sid) (incidents d)).

(** Rows of a target in [announcement_reasons]. *)
Definition reasons_of (d : Db) (sid : Z) : list AnnouncementReason :=
  filter (fun r => ar_service_id r =? sid) (announcement_reasons d).

(** *** Well-formedness of the incident tables *)

(** [SERIAL] keys start at 1. *)
Definition ids_wf (d : Db) : Prop :=
  1 <= incidents_id_seq d /\
  forall i, In i (incidents d) -> 1 <= inc_id i.

(** Every stored reason belongs to an unresolved incident of its service. *)
Definition reasons_wf (d : Db) : Prop :=
  forall r, In r (announcement_reasons d) ->
    exists i, In i (incidents d) /\ inc_id i = ar_incident_id r /\
              inc_service_id i = ar_service_id r /\ not_resolved i = true.

Definition wf (d : Db) : Prop := ids_wf d /\ reasons_wf d.

(** The templates the down branch draws from. *)
Definition reason_templates (cfg : Config) (orc : Oracle) (d : Db)
  : list ReasonTemplate :=
  if supabase cfg
  then (if templates_data orc then announcement_reason_templates d else [])
  else [].

(** A handler keeps a property of the database, however it completes. *)
Definition preserves {A} (P : Db -> Prop) (m : M A) : Prop :=
  forall w, P (db w) -> P (db (snd (m w))).

(** A property that looks at the incident tables only. *)
Definition incident_local (P : Db -> Prop) : Prop :=
  forall d d',
    incidents d' = incidents d ->
    announcement_reasons d' = announcement_reasons d ->
    incidents_id_seq d' = incidents_id_seq d ->
    P d -> P d'.

End Engine.
Import Engine.

(** ** Concrete inputs *)

Module Samples.

Definition library : Service :=
  {| svc_id := 1;
     svc_name := "Library System";
     svc_url := "https://library.tcioe.edu.np";
     svc_description := Some "Library management system";
     is_active := true;
     check_interval := 420 |}.

Definition power_outage : ReasonTemplate :=
  {| tpl_code := "POWER_OUTAGE";
     tpl_label := "Power outage affecting our data center";
     tpl_weight := Some 3 |}.

(** One seeded service, one reason template, nothing else yet. *)
Definition db0 : Db :=
  {| services := [library];
     status_checks := [];
     incidents := [];
     incident_updates := [];
     announcement_reason_templates := [power_outage];
     announcement_reasons := [];
     services_id_seq := 2;
     incidents_id_seq := 1 |}.

Definition w0 : World := {| db := db0; trace := [] |}.

Definition no_secret : Config := {| CRON_SECRET := None; supabase := true |}.
Definition with_secret : Config := {| CRON_SECRET := Some "s3cret"; supabase := false |}.

Definition refused : JsError :=
  mkError (Some "TypeError") (Some "connect ECONNREFUSED 10.0.0.7:443").

Definition aborted : JsError :=
  mkError (Some "AbortError") (Some "This operation was aborted").


Definition env_failing (e : JsError) : ProbeEnv :=
  {| startTime := 1000; get_fetch := Throw e; now_after_get := 0;
     headStart := 1040; head_fetch := Throw e; now_after_head := 0;
     now_at_failure := 1090 |}.

Definition env_responding (code latency : Z) : ProbeEnv :=
  {| startTime := 1000; get_fetch := Normal code; now_after_get := 1000 + latency;
     headStart := 0; head_fetch := Normal code; now_after_head := 0;
     now_at_failure := 0 |}.

Definition oracle (env : ProbeEnv) : Oracle :=
  {| net := fun _ => env; templates_data := true; rand_index := fun _ _ => 1%nat |}.

Definition all_down : Oracle := oracle (env_failing refused).
Definition all_up : Oracle := oracle (env_responding 200 50).
Definition all_slow : Oracle := oracle (env_responding 200 3000).

Definition anonymous : Request :=
  {| header_authorization := None; header_x_force_check := None;
     param_secret := None; param_force := None |}.

Definition manual : IncidentInput :=
  {| in_title := Some "Scheduled maintenance"; in_inc_description := None;
     in_severity := None; in_status := None |}.

Definition new_service : ServiceInput :=
  {| in_name := Some "LMS"; in_url := Some "https://lms.tcioe.edu.np";
     in_description := None; in_check_interval := None |}.

(** One incident entered by hand. *)
Definition w1 : World := snd (incidents_POST (Some 1) manual 5000 w0).

(** A second one for the same service. *)
Definition w2 : World := snd (incidents_POST (Some 1) manual 6000 w1).

(** A cycle that found the service down: one incident with its reason. *)
Definition w3 : World := snd (POST no_secret all_down 7000 anonymous w0).

(** The same with an incident entered by hand on top. *)
Definition w4 : World := snd (incidents_POST (Some 1) manual 8000 w3).

Definition result_of (env : ProbeEnv) : ProbeResult :=
  match checkServiceStatus env with
  | Normal r => r
  | Throw _ => mkProbeResult down None None None
  end.

End Samples.

(** ** The check cycle as a whole *)

Module Cycle.

(** The flag [force] of the POST handler. *)
Definition force_requested (request : Request) : bool :=
  let forceHeader := toLowerCase (or_else (header_x_force_check request) "") in
  String.eqb forceHeader "1" || String.eqb forceHeader "true".

(** The rows of [servicesResult]. *)
Definition selected (request : Request) (now : Z) (d : Db) : list Service :=
  if force_requested request then sql_active_services d else sql_due_services d now.

(** What [checkServiceStatus] returns for a service. *)
Definition probed (orc : Oracle) (s : Service) : ProbeResult :=
  match checkServiceStatus (net orc (svc_url s)) with
  | Normal r => r
  | Throw _ => mkProbeResult down None None None
  end.

(** The element pushed on [results] for a service. *)
Definition result_entry (orc : Oracle) (s : Service) : ResultEntry :=
  {| re_service := svc_name s;
     re_status := status_text (status (probed orc s));
     re_response_time := response_time (probed orc s) |}.

(** The row of [status_checks] the batch insert stores for a service. *)
Definition history_row (orc : Oracle) (now : Z) (s : Service) : StatusCheck :=
  {| sc_service_id := svc_id s;
     sc_status := status_text (status (probed orc s));
     sc_response_time := response_time (probed orc s);
     sc_status_code := status_code (probed orc s);
     sc_error_message := error_message (probed orc s);
     checked_at := now |}.

(** [checked_at >= now - INTERVAL '30 days'], what the cleanup keeps. *)
Definition within_retention (now : Z) (c : StatusCheck) : bool :=
  negb (checked_at c <? now - interval_30_days).

(** Primary key of [incidents], its sequence, and [UNIQUE (incident_id)] of
    [announcement_reasons]. *)
Definition keys_ok (d : Db) : Prop :=
  NoDup (map inc_id (incidents d)) /\
  (forall i, In i (incidents d) -> inc_id i < incidents_id_seq d) /\
  NoDup (map ar_incident_id (announcement_reasons d)).

(** Equality of (code, label) pairs, to count the slots of a template. *)
Definition reason_pair_dec (a b : string * string) : {a = b} + {a <> b} :=
  match string_dec (fst a) (fst b), string_dec (snd a) (snd b) with
  | left e1, left e2 =>
    left (eq_trans (surjective_pairing a)
            (eq_trans (f_equal2 pair e1 e2) (eq_sym (surjective_pairing b))))
  | right n, _ => right (fun e => n (f_equal fst e))
  | _, right n => right (fun e => n (f_equal snd e))
  end.

End Cycle.
Import Cycle.

(** ** Further concrete inputs *)

Module Samples2.

(** A name of 248 characters: with [" is down"] appended it no longer fits
    the [title VARCHAR(255)] of [incidents]. *)
Definition long_name : string :=
  String.concat "" (repeat "Campus-X" 31).

Definition verbose : Service :=
  {| svc_id := 1;
     svc_name := long_name;
     svc_url := "https://verbose.tcioe.edu.np";
     svc_description := None;
     is_active := true;
     check_interval := 420 |}.

Definition db_verbose : Db :=
  {| services := [verbose];
     status_checks := [];
     incidents := [];
     incident_updates := [];
     announcement_reason_templates := [];
     announcement_reasons := [];
     services_id_seq := 2;
     incidents_id_seq := 1 |}.

Definition w_verbose : World := {| db := db_verbose; trace := [] |}.

Definition bearer (secret : string) (force : option string) : Request :=
  {| header_authorization := Some ("Bearer " ++ secret);
     header_x_force_check := force;
     param_secret := None;
     param_force := None |}.

Definition by_query (secret : string) (force : option string) : Request :=
  {| header_authorization := None;
     header_x_force_check := None;
     param_secret := Some secret;
     param_force := force |}.

End Samples2.

(** ** The service routes [/api/services/[id]] *)

Module Admin.

(** JSON body of [PUT /api/services/[id]]; an absent or null field reaches
    the statement as [NULL]. *)
Record ServiceUpdate := mkServiceUpdate {
  up_name : option string;
  up_url : option string;
  up_description : option string;
  up_check_interval : option Z;
  up_is_active : option bool
}.

(** [COALESCE(v, old)] *)
Definition coalesce {A} (v : option A) (old : A) : A :=
  match v with
  | Some x => x
  | None => old
  end.

(** The [SET] list applied to one row. *)
Definition update_row (u : ServiceUpdate) (s : Service) : Service :=
  {| svc_id := svc_id s;
     svc_name := coalesce (up_name u) (svc_name s);
     svc_url := coalesce (up_url u) (svc_url s);
     svc_description :=
       match up_description u with
       | Some x => Some x
       | None => svc_description s
       end;
     is_active := coalesce (up_is_active u) (is_active s);
     check_interval := coalesce (up_check_interval u) (check_interval s) |}.

Definition has_id (sid : Z) (s : Service) : bool := svc_id s =? sid.

(** [UPDATE services SET ... WHERE id = $6 RETURNING *]: the [VARCHAR]
    widths of [name] and [url] and the constraint [services_url_unique] can
    reject the statement; [id] is the primary key. *)
Definition sql_update_service (sid : Z) (u : ServiceUpdate) (d : Db)
  : completion (list Service * Db) :=
  let rows := map (update_row u) (filter (has_id sid) (services d)) in
  if existsb (fun s => negb ((String.length (svc_name s) <=? 255)%nat &&
                             (String.length (svc_url s) <=? 500)%nat)) rows then
    Throw (db_error "value too long for type character varying")
  else if existsb
            (fun s => existsb (fun o => negb (has_id sid o) &&
                                        String.eqb (svc_url o) (svc_url s))
                        (services d))
            rows then
    Throw (db_error "duplicate key value violates unique constraint services_url_unique")
  else
    Normal (rows,
            {| services :=
                 map (fun s => if has_id sid s then update_row u s else s) (services d);
               status_checks := status_checks d;
               incidents := incidents d;
               incident_updates := incident_updates d;
               announcement_reason_templates := announcement_reason_templates d;
               announcement_reasons := announcement_reasons d;
               services_id_seq := services_id_seq d;
               incidents_id_seq := incidents_id_seq d |}).

(** [PUT /api/services/[id]]; [serviceId] is [parseInt(id)], [None] for
    [NaN]. *)
Definition services_id_PUT (serviceId : option Z) (u : ServiceUpdate) : M Response :=
  catch
    (match serviceId with
     | None => ret (json (ErrorBody "Invalid service ID") 400)
     | Some sid =>
       rows <- query "UPDATE services" (sql_update_service sid u) ;;
       match rows with
       | [] => ret (json (ErrorBody "Service not found") 404)
       | row :: _ => ret (json (ServiceBody row) 200)
       end
     end)
    (fun error => ret (json (ErrorBody "Failed to update service") 500)).

(** Ids of the incidents the cascade removes with a service. *)
Definition incidents_of (sid : Z) (d : Db) : list Z :=
  map inc_id (filter (fun i => inc_service_id i =? sid) (incidents d)).

(** [DELETE FROM services WHERE id = $1] with the [ON DELETE CASCADE] of
    every table that references [services] or [incidents]. *)
Definition sql_delete_service (sid : Z) (d : Db) : Db :=
  {| services := filter (fun s => negb (has_id sid s)) (services d);
     status_checks :=
       filter (fun c => negb (sc_service_id c =? sid)) (status_checks d);
     incidents := filter (fun i => negb (inc_service_id i =? sid)) (incidents d);
     incident_updates :=
       filter (fun x => negb (id_in (incidents_of sid d) (iu_incident_id x)))
         (incident_updates d);
     announcement_reason_templates := announcement_reason_templates d;
     announcement_reasons :=
       filter (fun r => negb (ar_service_id r =? sid) &&
                        negb (id_in (incidents_of sid d) (ar_incident_id r)))
         (announcement_reasons d);
     services_id_seq := services_id_seq d;
     incidents_id_seq := incidents_id_seq d |}.

Inductive DeleteBody :=
| DeleteSuccess (success : bool)
| DeleteError (error : string).

Record DeleteResponse := mkDeleteResponse {
  delete_status : Z;
  delete_body : DeleteBody
}.

(** [DELETE /api/services/[id]] *)
Definition services_id_DELETE (serviceId : option Z) : M DeleteResponse :=
  catch
    (match serviceId with
     | None => ret {| delete_status := 400;
                      delete_body := DeleteError "Invalid service ID" |}
     | Some sid =>
       query_write "DELETE FROM services" (sql_delete_service sid) ;;;
       ret {| delete_status := 200; delete_body := DeleteSuccess true |}
     end)
    (fun error => ret {| delete_status := 500;
                         delete_body := DeleteError "Failed to delete service" |}).

(** States reachable when the two routes above are used as well. *)
Inductive admin_step (cfg : Config) (w : World) : World -> Prop :=
| admin_engine w' : step cfg w w' -> admin_step cfg w w'
| admin_PUT serviceId u :
    admin_step cfg w (snd (services_id_PUT serviceId u w))
| admin_DELETE serviceId :
    admin_step cfg w (snd (services_id_DELETE serviceId w)).

Inductive admin_reachable (cfg : Config) : World -> Prop :=
| admin_fresh d : fresh d -> admin_reachable cfg {| db := d; trace := [] |}
| admin_next w w' :
    admin_reachable cfg w -> admin_step cfg w w' -> admin_reachable cfg w'.

End Admin.
Import Admin.

(** ** The report route and its HTML escaping *)

Module Reports.

(** [s.replace(/c/g, r)] for a pattern of one character. Strings are byte
    strings; the five characters replaced below are ASCII, so the passes act
    the same on the UTF-8 bytes as on the UTF-16 units of the source. *)
Fixpoint replace_all (c : ascii) (r : string) (s : string) : string :=
  match s with
  | EmptyString => EmptyString
  | String a rest =>
    if Ascii.eqb a c then r ++ replace_all c r rest
    else String a (replace_all c r rest)
  end.

Definition amp : ascii := ascii_of_nat 38.
Definition lt : ascii := ascii_of_nat 60.
Definition gt : ascii := ascii_of_nat 62.
Definition dquote : ascii := ascii_of_nat 34.
Definition squote : ascii := ascii_of_nat 39.

(** [htmlEscape] *)
Definition htmlEscape (s : string) : string :=
  replace_all squote "&#039;"
    (replace_all dquote "&quot;"
       (replace_all gt "&gt;"
          (replace_all lt "&lt;"
             (replace_all amp "&amp;" s)))).

(** What the five passes together do to one character. *)
Definition escape_char (a : ascii) : string :=
  if Ascii.eqb a amp then "&amp;"
  else if Ascii.eqb a lt then "&lt;"
  else if Ascii.eqb a gt then "&gt;"
  else if Ascii.eqb a dquote then "&quot;"
  else if Ascii.eqb a squote then "&#039;"
  else String a EmptyString.

Definition special (a : ascii) : bool :=
  Ascii.eqb a amp || Ascii.eqb a lt || Ascii.eqb a gt ||
  Ascii.eqb a dquote || Ascii.eqb a squote.

Fixpoint chars (s : string) : list ascii :=
  match s with
  | EmptyString => []
  | String a rest => a :: chars rest
  end.

(** [a === b] between a query parameter and an environment variable. *)
Definition strict_eq (a b : option string) : bool :=
  match a, b with
  | Some x, Some y => String.eqb x y
  | _, _ => false
  end.

Inductive ReportResponse (R : Type) : Type :=
| ReportUnauthorized            (* 401 *)
| ReportFailed                  (* 500 *)
| ReportOk (content : R).       (* 200 *)
Arguments ReportUnauthorized {R}.
Arguments ReportFailed {R}.
Arguments ReportOk {R} content.

(** [GET /api/reports]. What follows the authorization check (reading the
    report data and rendering it as JSON, HTML or PDF) works on floating
    point numbers and is taken as the parameter [generate]. *)
Definition reports_GET {R : Type} (cfg : Config) (generate : Request -> M R)
    (request : Request) : M (ReportResponse R) :=
  catch
    (let secret := param_secret request in
     let authHeader := or_else (header_authorization request) "" in
     let hasHeaderAuth :=
       String.eqb authHeader ("Bearer " ++ env_text (CRON_SECRET cfg)) in
     let hasQueryAuth := strict_eq secret (CRON_SECRET cfg) in
     if negb hasHeaderAuth && negb hasQueryAuth then ret ReportUnauthorized
     else (content <- generate request ;; ret (ReportOk content)))
    (fun error => ret ReportFailed).

End Reports.
Import Reports.

(** ** Columns of the service list [GET /api/services] *)

Module Dashboard.

(** The row behind [ORDER BY checked_at DESC LIMIT 1] for a service. *)
Definition latest_check (d : Db) (sid : Z) : option StatusCheck :=
  fold_left
    (fun best c =>
       if sc_service_id c =? sid then
         match best with
         | None => Some c
         | Some b => if checked_at b <? checked_at c then Some c else Some b
         end
       else best)
    (status_checks d) None.

(** [COALESCE((SELECT status ...), 'unknown') AS current_status] *)
Definition current_status (d : Db) (sid : Z) : string :=
  match latest_check d sid with
  | Some c => sc_status c
  | None => "unknown"
  end.

(** [(SELECT checked_at ...) AS last_checked] *)
Definition last_checked (d : Db) (sid : Z) : option Z :=
  option_map checked_at (latest_check d sid).

(** [(SELECT COUNT( * ) FROM incidents WHERE service_id = s.id
      AND status != 'resolved') AS active_incidents] *)
Definition active_incidents (d : Db) (sid : Z) : nat :=
  List.length (filter (fun i => (inc_service_id i =? sid) && not_resolved i)
                 (incidents d)).

End Dashboard.
Import Dashboard.

From Stdlib Require Import Permutation Sorted.

(** ** Ordering rows *)

Module Order.

(** [ORDER BY] and [Array.prototype.sort] with a consistent comparison: a
    stable sort, here by insertion. *)
Fixpoint insert_by {A} (leb : A -> A -> bool) (x : A) (l : list A) : list A :=
  match l with
  | [] => [x]
  | y :: rest => if leb x y then x :: l else y :: insert_by leb x rest
  end.

Definition sort_by {A} (leb : A -> A -> bool) (l : list A) : list A :=
  fold_right (insert_by leb) [] l.

End Order.
Import Order.

(** ** Daily uptime: [calculateDailyUptime] *)

Module Uptime.

(** The value kept per day in [dailyMap]. *)
Record DayAcc := mkDayAcc {
  total : nat;
  successful : nat;
  sumLatency : Z;
  latencyCount : nat
}.

Definition empty_day : DayAcc :=
  {| total := 0; successful := 0; sumLatency := 0; latencyCount := 0 |}.

(** The body of the first [forEach] on the value of the day. *)
Definition bump (check : StatusCheck) (current : DayAcc) : DayAcc :=
  {| total := S (total current);
     successful :=
       if String.eqb (sc_status check) "operational"
       then S (successful current) else successful current;
     sumLatency :=
       match sc_response_time check with
       | Some t => sumLatency current + t
       | None => sumLatency current
       end;
     latencyCount :=
       match sc_response_time check with
       | Some _ => S (latencyCount current)
       | None => latencyCount current
       end |}.

(** [dailyMap.set(date, f(dailyMap.get(date) || zero))] on a [Map], which
    keeps its keys in insertion order. *)
Fixpoint map_update (date : string) (f : DayAcc -> DayAcc)
    (m : list (string * DayAcc)) : list (string * DayAcc) :=
  match m with
  | [] => [(date, f empty_day)]
  | (k, v) :: rest =>
    if String.eqb k date then (k, f v) :: rest
    else (k, v) :: map_update date f rest
  end.

(** Checks counted over all days of the map. *)
Fixpoint sum_total (m : list (string * DayAcc)) : nat :=
  match m with
  | [] => 0
  | (_, v) :: rest => total v + sum_total rest
  end.

Section Parameters.

(** Outside the embedding: the UTC date text of a timestamp
    ([toISOString().split("T")[0]]), the order [localeCompare] puts on such
    texts, and the floating-point part: the number 0 and the two rounded
    quotients. *)
Variable iso_date : Z -> string.
Variable date_leb : string -> string -> bool.
Variable F : Type.
Variable zero : F.
Variable percent : nat -> nat -> F.
Variable average : Z -> nat -> F.

Record UptimeData := mkUptimeData {
  date : string;
  uptime_percentage : F;
  total_checks : nat;
  successful_checks : nat;
  avg_response_time : option F
}.

Definition dailyMap (checks : list StatusCheck) : list (string * DayAcc) :=
  fold_left (fun m check => map_update (iso_date (checked_at check)) (bump check) m)
    checks [].

Definition day_entry (kv : string * DayAcc) : UptimeData :=
  let '(d, value) := kv in
  {| date := d;
     uptime_percentage :=
       if (0 <? total value)%nat
       then percent (successful value) (total value) else zero;
     total_checks := total value;
     successful_checks := successful value;
     avg_response_time :=
       if (0 <? latencyCount value)%nat
       then Some (average (sumLatency value) (latencyCount value)) else None |}.

Definition calculateDailyUptime (checks : list StatusCheck) : list UptimeData :=
  sort_by (fun a b => date_leb (date a) (date b)) (map day_entry (dailyMap checks)).

End Parameters.

End Uptime.

(** ** The incident timeline [GET /api/services/[id]/incidents] *)

Module Timeline.

Record IncidentWithUpdates := mkIncidentWithUpdates {
  tl_incident : Incident;
  tl_updates : option (list IncidentUpdate)   (* [json_agg] is null without rows *)
}.

(** [(SELECT json_agg(iu ORDER BY iu.created_at DESC) FROM incident_updates iu
      WHERE iu.incident_id = i.id)] *)
Definition updates_of (d : Db) (i : Incident) : option (list IncidentUpdate) :=
  match filter (fun x => iu_incident_id x =? inc_id i) (incident_updates d) with
  | [] => None
  | rows => Some (sort_by (fun a b => iu_created_at b <=? iu_created_at a) rows)
  end.

(** [SELECT i.*, (...) as updates FROM incidents i WHERE service_id = $1
     ORDER BY started_at DESC] *)
Definition sql_incident_timeline (d : Db) (sid : Z) : list IncidentWithUpdates :=
  map (fun i => {| tl_incident := i; tl_updates := updates_of d i |})
    (sort_by (fun a b => started_at b <=? started_at a)
       (filter (fun i => inc_service_id i =? sid) (incidents d))).



End Timeline.
Import Timeline.

(** ** The service detail [GET /api/services/[id]] *)

Module Detail.





End Detail.
Import Detail.

(** ** The summary of active incidents *)

Module Summary.

Record ReasonLine := mkReasonLine {
  rl_service : string;
  rl_reason : string
}.

Record IncidentSummary := mkIncidentSummary {
  sum_active_count : nat;
  sum_latest_started_at : option Z;
  sum_affected_services : list string;
  sum_reasons : list ReasonLine
}.

(** [FROM incidents WHERE status != 'resolved'] *)
Definition unresolved (d : Db) : list Incident := filter not_resolved (incidents d).

(** [SELECT MAX(started_at) ...] *)
Definition sql_latest_started (d : Db) : option Z :=
  fold_left
    (fun best i =>
       match best with
       | None => Some (started_at i)
       | Some t => Some (Z.max t (started_at i))
       end)
    (unresolved d) None.

(** [JOIN services s ON s.id = i.service_id] for one incident. *)
Definition services_of (d : Db) (i : Incident) : list Service :=
  filter (fun s => svc_id s =? inc_service_id i) (services d).

Section Collation.

(** The order the database puts on service names. *)
Variable name_leb : string -> string -> bool.

(** [SELECT s.name ... GROUP BY s.name ORDER BY s.name] *)
Definition sql_affected_services (d : Db) : list string :=
  sort_by name_leb
    (nodup string_dec
       (flat_map (fun i => map svc_name (services_of d i)) (unresolved d))).

(** [SELECT s.name, ar.reason_text ... LEFT JOIN announcement_reasons ar
     ON ar.incident_id = i.id ... ORDER BY s.name]; [None] is the null of an
    incident without reason. *)
Definition sql_reason_rows (d : Db) : list (string * option string) :=
  sort_by (fun a b => name_leb (fst a) (fst b))
    (flat_map
       (fun i =>
          flat_map
            (fun s =>
               match filter (fun ar => ar_incident_id ar =? inc_id i)
                       (announcement_reasons d) with
               | [] => [(svc_name s, None)]
               | rows => map (fun ar => (svc_name s, Some (reason_text ar))) rows
               end)
            (services_of d i))
       (unresolved d)).

(** The body of the GET handler. *)
Definition incident_summary (d : Db) : IncidentSummary :=
  {| sum_active_count := List.length (unresolved d);
     sum_latest_started_at := sql_latest_started d;
     sum_affected_services := sql_affected_services d;
     sum_reasons :=
       flat_map
         (fun row =>
            match snd row with
            | Some (String c t) =>
              [{| rl_service := fst row; rl_reason := String c t |}]
            | _ => []
            end)
         (sql_reason_rows d) |}.

End Collation.

End Summary.
Import Summary.

(** * Properties *)

(** ** Prober *)

Section ProberFacts.

Lemma classify_2xx (code lat : Z) :
  200 <= code < 300 ->
  classify code lat =
    if 2500 <? lat then (degraded, Some "Slow response") else (operational, None).
Proof.
  intros H. unfold classify.
  replace ((200 <=? code) && (code <? 300)) with true
    by (symmetry; apply andb_true_iff; split; [apply Z.leb_le | apply Z.ltb_lt]; lia).
  destruct (2500 <? lat); reflexivity.
Qed.

(** A GET attempt that yields a response is classified and returned. *)
Lemma checkServiceStatus_get (env : ProbeEnv) (s : Z) :
  get_fetch env = Normal s ->
  checkServiceStatus env =
    Normal {| status := fst (classify s (now_after_get env - startTime env));
              response_time := Some (now_after_get env - startTime env);
              status_code := Some s;
              error_message := snd (classify s (now_after_get env - startTime env)) |}.
Proof.
  intros H. unfold checkServiceStatus. rewrite H. simpl.
  destruct (classify s _); reflexivity.
Qed.

(** A failed GET followed by a HEAD response: the HEAD is classified. *)
Lemma checkServiceStatus_head (env : ProbeEnv) (e : JsError) (s : Z) :
  get_fetch env = Throw e ->
  head_fetch env = Normal s ->
  exists r, checkServiceStatus env = Normal r /\
            status r = fst (classify s (now_after_head env - headStart env)) /\
            response_time r = Some (now_after_head env - headStart env) /\
            status_code r = Some s.
Proof.
  intros Hg Hh. unfold checkServiceStatus. rewrite Hg, Hh. simpl.
  destruct (classify s _) as [st m]. simpl. eexists; repeat split.
Qed.

Lemma checkServiceStatus_fail (env : ProbeEnv) (e e' : JsError) :
  get_fetch env = Throw e ->
  head_fetch env = Throw e' ->
  checkServiceStatus env =
    Normal {| status := down;
              response_time :=
                if is_abort e then None else Some (now_at_failure env - startTime env);
              status_code := None;
              error_message := Some (failure_message e) |}.
Proof.
  intros Hg Hh. unfold checkServiceStatus. rewrite Hg, Hh. reflexivity.
Qed.


End ProberFacts.

(** C2. The classification table: 200 at 100ms is operational without a
    message, 200 at 3000ms is degraded "Slow response", 503 is down "Server
    error (503)", 404 is degraded "Page not found (404)", 403 is operational
    without a message, 429 is degraded "Rate limited (429)"; and a 2xx
    response is operational exactly when its latency is at most 2500ms and is
    degraded otherwise. *)
Theorem classify_table :
  classify 200 100 = (operational, None) /\
  classify 200 3000 = (degraded, Some "Slow response") /\
  (forall lat, classify 503 lat = (down, Some "Server error (503)")) /\
  (forall lat, classify 404 lat = (degraded, Some "Page not found (404)")) /\
  (forall lat, classify 403 lat = (operational, None)) /\
  (forall lat, classify 429 lat = (degraded, Some "Rate limited (429)")) /\
  (forall code lat, 200 <= code < 300 ->
     (fst (classify code lat) = operational <-> lat <= 2500) /\
     (fst (classify code lat) = degraded <-> 2500 < lat) /\
     (snd (classify code lat) = Some "Slow response" <-> 2500 < lat)).
Proof.
  repeat split; try reflexivity; try (intros; reflexivity);
    rewrite (classify_2xx _ _ H); destruct (Z.ltb_spec 2500 lat); simpl;
    try lia; try discriminate; try reflexivity.
Qed.


(** C10. [checkServiceStatus] always returns a result and never throws; the
    status code of the result is absent exactly when both attempts threw,
    and then the status is down; a response of the GET attempt, or of the
    HEAD attempt after a failed GET, gives its status code to the result. *)
Theorem checkServiceStatus_total (env : ProbeEnv) :
  exists r,
    checkServiceStatus env = Normal r /\
    (status_code r = None <->
       exists e e', get_fetch env = Throw e /\ head_fetch env = Throw e') /\
    (status_code r = None -> status r = down) /\
    (forall s, get_fetch env = Normal s -> status_code r = Some s) /\
    (forall e s, get_fetch env = Throw e -> head_fetch env = Normal s ->
       status_code r = Some s).
Proof.
  destruct (get_fetch env) as [s|e] eqn:Hg.
  - eexists. split; [apply (checkServiceStatus_get _ _ Hg)|]. simpl.
    repeat split; try discriminate.
    + intros (e & e' & He & _). discriminate.
    + intros s' [= ->]. reflexivity.
  - destruct (head_fetch env) as [s|e'] eqn:Hh.
    + destruct (checkServiceStatus_head _ _ _ Hg Hh) as (r & Hr & _ & _ & Hc).
      exists r. split; [exact Hr|]. rewrite Hc.
      repeat split; try discriminate.
      * intros (e1 & e2 & _ & He). discriminate.
      * intros e1 s1 _ [= ->]. reflexivity.
    + eexists. split; [apply (checkServiceStatus_fail _ _ _ Hg Hh)|]. simpl.
      repeat split; try discriminate.
      intros _. exists e, e'. split; reflexivity.
Qed.

(** ** Reconciliation *)

Section ReconcileFacts.

Variable cfg : Config.
Variable orc : Oracle.
Variable now : Z.

Ltac keep_sql :=
  cbn -[sql_insert_incident sql_active_incident sql_insert_reason pick_reason
        sql_resolve_incidents sql_delete_reasons sql_insert_incident_updates
        sql_insert_status_checks cleanup_old_status_checks sql_insert_service
        sql_due_services sql_active_services checkServiceStatus].

Ltac run_monad :=
  unfold bind, catch, ret, query_read, query_write, query, supabase_call, probe, log;
  keep_sql.

(** The database after the down branch. *)
Lemma reconcile_down_db (service : Service) (r : ProbeResult) (w : World) :
  db (snd (reconcile_down cfg orc now service r w)) =
    if truthy_id (sql_active_incident (db w) (svc_id service)) then db w
    else
      match sql_insert_incident (svc_id service)
              (Some (svc_name service ++ " is down"))
              (Some (or_else (error_message r) "Service is not responding"))
              "investigating" "major" now (db w) with
      | Throw _ => db w
      | Normal (row, d1) =>
        let '(c, t) := pick_reason (reason_templates cfg orc d1)
                         (rand_index orc (svc_id service)) in
        sql_insert_reason (inc_id row) (svc_id service) c t d1
      end.
Proof.
  unfold reconcile_down, reason_templates. run_monad.
  destruct (truthy_id _); keep_sql; [reflexivity|].
  destruct (sql_insert_incident _ _ _ _ _ _ _) as [[row d1]|e]; keep_sql; [|reflexivity].
  destruct (supabase cfg); keep_sql.
  - destruct (pick_reason _ _) as [c t]. reflexivity.
  - destruct (pick_reason _ _) as [c t]. reflexivity.
Qed.

(** The database after the operational branch. *)
Lemma reconcile_operational_db (service : Service) (w : World) :
  db (snd (reconcile_operational cfg now service w)) =
    let '(ids, d1) := sql_resolve_incidents (svc_id service) now (db w) in
    match ids with
    | [] => d1
    | _ =>
      sql_insert_incident_updates
        (map (fun id => (id, restored_message, "resolved")) ids) now
        (sql_delete_reasons ids d1)
    end.
Proof.
  unfold reconcile_operational. run_monad.
  destruct (sql_resolve_incidents _ _ _) as [ids d1]. keep_sql.
  destruct ids as [|i l]; keep_sql; [reflexivity|].
  destruct (supabase cfg); reflexivity.
Qed.

Lemma reconcile_operational_returns (service : Service) (w : World) :
  fst (reconcile_operational cfg now service w) = Normal tt.
Proof.
  unfold reconcile_operational. run_monad.
  destruct (sql_resolve_incidents _ _ _) as [ids d1]. keep_sql.
  destruct ids as [|i l]; keep_sql; [reflexivity|].
  destruct (supabase cfg); reflexivity.
Qed.

End ReconcileFacts.

(** ** Scheduler *)

Section SchedulerFacts.

Variable sid : Z.

Let newer (best : option Z) (c : StatusCheck) : option Z :=
  if sc_service_id c =? sid then
    match best with
    | None => Some (checked_at c)
    | Some t => Some (Z.max t (checked_at c))
    end
  else best.

Lemma newer_fold_spec (l : list StatusCheck) :
  forall acc,
    match fold_left newer l acc with
    | None => acc = None /\ forall c, In c l -> sc_service_id c <> sid
    | Some t =>
      (acc = Some t \/ exists c, In c l /\ sc_service_id c = sid /\ checked_at c = t) /\
      (forall c, In c l -> sc_service_id c = sid -> checked_at c <= t) /\
      (forall a, acc = Some a -> a <= t)
    end.
Proof.
  induction l as [|c l IH]; intros acc; simpl.
  - destruct acc as [t|].
    + split; [left; reflexivity|]. split; [intros c []|]. intros a [= ->]. lia.
    + split; [reflexivity | intros c []].
  - specialize (IH (newer acc c)).
    destruct (fold_left newer l (newer acc c)) as [t|].
    + destruct IH as (Hsrc & Hmax & Hacc). unfold newer in Hsrc, Hacc.
      destruct (Z.eqb_spec (sc_service_id c) sid) as [E|E].
      * destruct acc as [a|].
        -- specialize (Hacc _ eq_refl).
           split; [|split].
           ++ destruct Hsrc as [[= Ht] | (c' & Hin & Hs & Ht)].
              ** destruct (Z.max_spec a (checked_at c)) as [[_ M]|[_ M]];
                   rewrite M in Ht.
                 --- right. exists c. auto.
                 --- left. congruence.
              ** right. exists c'. auto.
           ++ intros c' [<-|Hin] Hs; [lia | auto].
           ++ intros a' [= <-]. lia.
        -- specialize (Hacc _ eq_refl).
           split; [|split].
           ++ destruct Hsrc as [[= Ht] | (c' & Hin & Hs & Ht)].
              ** right. exists c. auto.
              ** right. exists c'. auto.
           ++ intros c' [<-|Hin] Hs; [lia | auto].
           ++ intros a' [=].
      * split; [|split].
        -- destruct Hsrc as [Ht | (c' & Hin & Hs & Ht)]; [left; exact Ht|].
           right. exists c'. auto.
        -- intros c' [<-|Hin] Hs; [contradiction | auto].
        -- exact Hacc.
    + destruct IH as (Hnone & Hall). unfold newer in Hnone.
      destruct (Z.eqb_spec (sc_service_id c) sid) as [E|E].
      * destruct acc; discriminate.
      * split; [exact Hnone|]. intros c' [<-|Hin]; auto.
Qed.

(** No row in [last_check] exactly for a service without checks. *)
Lemma last_check_none (d : Db) :
  last_check d sid = None <->
  forall c, In c (status_checks d) -> sc_service_id c <> sid.
Proof.
  unfold last_check. pose proof (newer_fold_spec (status_checks d) None) as H.
  fold newer. destruct (fold_left newer (status_checks d) None) as [t|].
  - destruct H as ([[=] | (c & Hin & Hs & _)] & _ & _).
    split; [discriminate|]. intros Hall. elim (Hall c Hin Hs).
  - split; [intros _; apply H | reflexivity].
Qed.

(** Otherwise its row carries the greatest [checked_at] of the service. *)
Lemma last_check_some (d : Db) (t : Z) :
  last_check d sid = Some t <->
  exists c, In c (status_checks d) /\ sc_service_id c = sid /\ checked_at c = t /\
            forall c', In c' (status_checks d) -> sc_service_id c' = sid ->
                       checked_at c' <= checked_at c.
Proof.
  unfold last_check. pose proof (newer_fold_spec (status_checks d) None) as H.
  fold newer. destruct (fold_left newer (status_checks d) None) as [t'|].
  - destruct H as ([[=] | (c & Hin & Hs & Ht)] & Hmax & _).
    split.
    + intros [= <-]. exists c. repeat split; auto. intros c' Hin' Hs'.
      rewrite Ht. auto.
    + intros (c' & Hin' & Hs' & Ht' & Hmax'). f_equal.
      pose proof (Hmax c' Hin' Hs'). pose proof (Hmax' c Hin Hs). lia.
  - destruct H as (_ & Hall). split; [discriminate|].
    intros (c & Hin & Hs & _). elim (Hall c Hin Hs).
Qed.

End SchedulerFacts.

(** C5. Without force the query behind the cycle returns an active service
    exactly when it has no check at all or its most recent check is at most
    [now] minus [check_interval] seconds; with an interval of 420 seconds a
    last check 421 seconds ago makes the service due and one 419 seconds ago
    does not; with force it returns every active service; a service that is
    not active is returned in neither mode. *)
Theorem due_target_selection (now : Z) (w : World) (s : Service) :
  (exists l, fst (services_query false now w) = Normal l /\
     (In s l <->
        In s (services (db w)) /\ is_active s = true /\
        ((forall c, In c (status_checks (db w)) -> sc_service_id c <> svc_id s) \/
         (exists c, In c (status_checks (db w)) /\ sc_service_id c = svc_id s /\
            (forall c', In c' (status_checks (db w)) ->
               sc_service_id c' = svc_id s -> checked_at c' <= checked_at c) /\
            checked_at c <= now - check_interval s * 1000000))) /\
     (check_interval s = 420 -> is_active s = true -> In s (services (db w)) ->
      forall c, In c (status_checks (db w)) -> sc_service_id c = svc_id s ->
        (forall c', In c' (status_checks (db w)) ->
           sc_service_id c' = svc_id s -> checked_at c' <= checked_at c) ->
        (checked_at c = now - 421 * 1000000 -> In s l) /\
        (checked_at c = now - 419 * 1000000 -> ~ In s l))) /\
  (exists l, fst (services_query true now w) = Normal l /\
     (In s l <-> In s (services (db w)) /\ is_active s = true)) /\
  (is_active s = false ->
   forall force l, fst (services_query force now w) = Normal l -> ~ In s l).
Proof.
  assert (Hdue : In s (sql_due_services (db w) now) <->
        In s (services (db w)) /\ is_active s = true /\
        ((forall c, In c (status_checks (db w)) -> sc_service_id c <> svc_id s) \/
         (exists c, In c (status_checks (db w)) /\ sc_service_id c = svc_id s /\
            (forall c', In c' (status_checks (db w)) ->
               sc_service_id c' = svc_id s -> checked_at c' <= checked_at c) /\
            checked_at c <= now - check_interval s * 1000000))).
  { unfold sql_due_services, is_due. rewrite filter_In, andb_true_iff.
    unfold make_interval_secs, usec_per_sec.
    destruct (last_check (db w) (svc_id s)) as [t|] eqn:L.
    - apply last_check_some in L. destruct L as (c & Hin & Hs & Ht & Hmax).
      rewrite Z.leb_le. split.
      + intros (Hs1 & Ha & Hle). repeat split; auto. right. exists c.
        repeat split; auto. lia.
      + intros (Hs1 & Ha & [Hnone | (c' & Hin' & Hs' & Hmax' & Hle)]).
        * elim (Hnone c Hin Hs).
        * repeat split; auto.
          pose proof (Hmax' c Hin Hs). pose proof (Hmax c' Hin' Hs'). lia.
    - pose proof (proj1 (last_check_none _ _) L) as Hnone. split.
      + intros (Hs1 & Ha & _). repeat split; auto.
      + intros (Hs1 & Ha & _). repeat split; auto. }
  split; [|split].
  - exists (sql_due_services (db w) now). split; [reflexivity|].
    split; [exact Hdue|].
    intros Hi Ha Hs c Hin Hsc Hmax. rewrite Hdue, Hi. split.
    + intros Ht. repeat split; auto. right. exists c. repeat split; auto. lia.
    + intros Ht (_ & _ & [Hnone | (c' & Hin' & Hs' & Hmax' & Hle)]).
      * elim (Hnone c Hin Hsc).
      * pose proof (Hmax' c Hin Hsc). pose proof (Hmax c' Hin' Hs'). lia.
  - exists (sql_active_services (db w)). split; [reflexivity|].
    unfold sql_active_services. apply filter_In.
  - intros Hina [] l [= <-].
    + unfold sql_active_services. rewrite filter_In. intros [_ H]. congruence.
    + unfold sql_due_services, is_due. rewrite filter_In, Hina. simpl.
      intros [_ H]. discriminate.
Qed.

(** ** Incident tables *)

Section IncidentFacts.

Lemma active_for_service (sid : Z) (i : Incident) :
  active_for sid i = true -> inc_service_id i = sid /\ not_resolved i = true.
Proof.
  unfold active_for. rewrite andb_true_iff, Z.eqb_eq. tauto.
Qed.

Lemma active_for_intro (i : Incident) :
  not_resolved i = true -> active_for (inc_service_id i) i = true.
Proof.
  intros H. unfold active_for. rewrite Z.eqb_refl, H. reflexivity.
Qed.

Lemma active_for_other (sid sid' : Z) (i : Incident) :
  sid' <> sid -> active_for sid i = true -> active_for sid' i = false.
Proof.
  intros Hne H. apply active_for_service in H as [Hs _].
  unfold active_for. destruct (Z.eqb_spec (inc_service_id i) sid'); [congruence|].
  reflexivity.
Qed.

Lemma resolve_row_id (sid now : Z) (i : Incident) :
  inc_id (resolve_row sid now i) = inc_id i.
Proof. unfold resolve_row. destruct (active_for sid i); reflexivity. Qed.

Lemma resolve_row_inactive (sid now : Z) (i : Incident) :
  active_for sid (resolve_row sid now i) = false.
Proof.
  unfold resolve_row. destruct (active_for sid i) eqn:E; [|exact E].
  unfold active_for, not_resolved. simpl. apply andb_false_r.
Qed.

Lemma resolve_row_other (sid sid' now : Z) (i : Incident) :
  sid' <> sid ->
  active_for sid' (resolve_row sid now i) = active_for sid' i.
Proof.
  intros Hne. unfold resolve_row. destruct (active_for sid i) eqn:E; [|reflexivity].
  rewrite (active_for_other _ _ _ Hne E).
  apply active_for_service in E as [Hs _].
  unfold active_for. simpl.
  destruct (Z.eqb_spec (inc_service_id i) sid'); [congruence | reflexivity].
Qed.

Lemma resolve_row_fixed (sid sid' now : Z) (i : Incident) :
  sid' <> sid -> active_for sid' i = true -> resolve_row sid now i = i.
Proof.
  intros Hne H. unfold resolve_row.
  destruct (active_for sid i) eqn:E; [|reflexivity].
  rewrite (active_for_other _ _ _ Hne E) in H. discriminate.
Qed.

(** After the update no incident of the service is unresolved. *)
Lemma filter_resolved_self (sid now : Z) (l : list Incident) :
  filter (active_for sid) (map (resolve_row sid now) l) = [].
Proof.
  induction l as [|i l IH]; simpl; [reflexivity|].
  rewrite resolve_row_inactive. exact IH.
Qed.

(** The unresolved incidents of every other service are the same rows. *)
Lemma filter_resolved_other (sid sid' now : Z) (l : list Incident) :
  sid' <> sid ->
  filter (active_for sid') (map (resolve_row sid now) l) = filter (active_for sid') l.
Proof.
  intros Hne. induction l as [|i l IH]; simpl; [reflexivity|].
  rewrite (resolve_row_other _ _ _ _ Hne).
  destruct (active_for sid' i) eqn:E; [|exact IH].
  rewrite (resolve_row_fixed _ _ _ _ Hne E), IH. reflexivity.
Qed.

Lemma id_in_spec (ids : list Z) (x : Z) : id_in ids x = true <-> In x ids.
Proof.
  unfold id_in. rewrite existsb_exists. split.
  - intros (y & Hin & E). apply Z.eqb_eq in E. subst. exact Hin.
  - intros H. exists x. split; [exact H | apply Z.eqb_refl].
Qed.

Let later (sid : Z) (best : option Incident) (i : Incident) : option Incident :=
  if active_for sid i then
    match best with
    | None => Some i
    | Some b => if started_at b <? started_at i then Some i else Some b
    end
  else best.

Lemma later_fold_spec (sid : Z) (l : list Incident) :
  forall acc,
    match fold_left (later sid) l acc with
    | None => acc = None /\ filter (active_for sid) l = []
    | Some i => acc = Some i \/ (In i l /\ active_for sid i = true)
    end.
Proof.
  induction l as [|i l IH]; intros acc; simpl.
  - destruct acc; auto.
  - specialize (IH (later sid acc i)).
    destruct (fold_left (later sid) l (later sid acc i)) as [b|].
    + destruct IH as [H | [Hin Ha]]; [|right; auto].
      unfold later in H. destruct (active_for sid i) eqn:E; [|left; exact H].
      destruct acc as [a|].
      * destruct (started_at a <? started_at i).
        -- injection H as <-. right. auto.
        -- left. exact H.
      * injection H as <-. right. auto.
    + destruct IH as [H Hf]. unfold later in H.
      destruct (active_for sid i) eqn:E.
      * destruct acc as [a|]; [destruct (started_at a <? started_at i)|];
          discriminate.
      * auto.
Qed.

(** The active-incident lookup returns the id of an unresolved incident of
    the service, and returns nothing exactly when there is none. *)
Lemma sql_active_incident_some (d : Db) (sid id : Z) :
  sql_active_incident d sid = Some id ->
  exists i, In i (incidents d) /\ inc_id i = id /\ active_for sid i = true.
Proof.
  unfold sql_active_incident. pose proof (later_fold_spec sid (incidents d) None) as H.
  fold (later sid). destruct (fold_left (later sid) (incidents d) None) as [i|];
    [|discriminate].
  simpl. intros [= <-]. destruct H as [[=] | [Hin Ha]]. exists i. auto.
Qed.

Lemma sql_active_incident_none (d : Db) (sid : Z) :
  sql_active_incident d sid = None <-> active_count d sid = 0%nat.
Proof.
  unfold sql_active_incident, active_count.
  pose proof (later_fold_spec sid (incidents d) None) as H.
  fold (later sid). destruct (fold_left (later sid) (incidents d) None) as [i|]; simpl.
  - destruct H as [[=] | [Hin Ha]]. split; [discriminate|].
    intros Hl. apply length_zero_iff_nil in Hl.
    assert (Hi : In i (filter (active_for sid) (incidents d)))
      by (apply filter_In; auto).
    rewrite Hl in Hi. destruct Hi.
  - destruct H as [_ Hf]. rewrite Hf. split; reflexivity.
Qed.

(** With keys from 1 on, an existing active incident makes the looked-up id
    truthy. *)
Lemma active_lookup_truthy (d : Db) (sid : Z) :
  ids_wf d ->
  truthy_id (sql_active_incident d sid) = negb (active_count d sid =? 0)%nat.
Proof.
  intros [_ Hpos]. destruct (sql_active_incident d sid) as [id|] eqn:E.
  - destruct (sql_active_incident_some _ _ _ E) as (i & Hin & Hid & Ha).
    pose proof (Hpos i Hin) as Hp. rewrite Hid in Hp.
    assert (Hc : active_count d sid <> 0%nat).
    { intros Hz. apply sql_active_incident_none in Hz. congruence. }
    apply Nat.eqb_neq in Hc. rewrite Hc. simpl.
    destruct id; try reflexivity; lia.
  - apply sql_active_incident_none in E. rewrite E. reflexivity.
Qed.

End IncidentFacts.

(** ** Preservation through the handlers *)

Section Preservation.

Variable P : Db -> Prop.

Lemma preserves_ret {A} (a : A) : preserves P (ret a).
Proof. intros w H. exact H. Qed.

Lemma preserves_bind {A B} (m : M A) (k : A -> M B) :
  preserves P m -> (forall a, preserves P (k a)) -> preserves P (bind m k).
Proof.
  intros Hm Hk w H. unfold bind. specialize (Hm w H).
  destruct (m w) as [[a|e] w']; simpl in *; [apply Hk; exact Hm | exact Hm].
Qed.

Lemma preserves_catch {A} (m : M A) (h : JsError -> M A) :
  preserves P m -> (forall e, preserves P (h e)) -> preserves P (catch m h).
Proof.
  intros Hm Hh w H. unfold catch. specialize (Hm w H).
  destruct (m w) as [[a|e] w']; simpl in *; [exact Hm | apply Hh; exact Hm].
Qed.

Lemma preserves_query {A} (sql : string) (stmt : Db -> completion (A * Db)) :
  (forall d a d', P d -> stmt d = Normal (a, d') -> P d') ->
  preserves P (query sql stmt).
Proof.
  intros Hs w H. unfold query.
  destruct (stmt (db w)) as [[a d']|e] eqn:E; simpl; [eapply Hs; eauto | exact H].
Qed.

Lemma preserves_query_read {A} (sql : string) (f : Db -> A) :
  preserves P (query_read sql f).
Proof.
  apply preserves_query. intros d a d' H [= _ <-]. exact H.
Qed.

Lemma preserves_query_write (sql : string) (f : Db -> Db) :
  (forall d, P d -> P (f d)) -> preserves P (query_write sql f).
Proof.
  intros Hf. apply preserves_query. intros d a d' H [= _ <-]. auto.
Qed.

Lemma preserves_probe (orc : Oracle) (url : string) : preserves P (probe orc url).
Proof. intros w H. exact H. Qed.

Hypothesis P_local : incident_local P.

Lemma local_cleanup (now : Z) (d : Db) : P d -> P (cleanup_old_status_checks now d).
Proof. apply P_local; reflexivity. Qed.

Lemma local_insert_status_checks rows (now : Z) (d : Db) :
  P d -> P (sql_insert_status_checks rows now d).
Proof. apply P_local; reflexivity. Qed.

Lemma local_insert_service name url descr interval (d : Db) row d' :
  P d -> sql_insert_service name url descr interval d = Normal (row, d') -> P d'.
Proof.
  intros H. unfold sql_insert_service.
  destruct (negb _); [discriminate|]. destruct (existsb _ _); [discriminate|].
  intros [= _ <-]. revert H. apply P_local; reflexivity.
Qed.

Variable cfg : Config.

Hypothesis P_reconcile :
  forall orc now service r, preserves P (reconcile cfg orc now service r).

Lemma preserves_worker_step orc now service acc :
  preserves P (worker_step cfg orc now service acc).
Proof.
  unfold worker_step. apply preserves_bind; [apply preserves_probe|].
  intros r. apply preserves_bind; [apply P_reconcile|].
  intros _. apply preserves_ret.
Qed.

Lemma preserves_run_workers orc now svcs :
  forall acc, preserves P (run_workers cfg orc now svcs acc).
Proof.
  induction svcs as [|s l IH]; intros acc; simpl.
  - apply preserves_ret.
  - apply preserves_bind; [apply preserves_worker_step | exact IH].
Qed.

Lemma preserves_POST orc now request : preserves P (POST cfg orc now request).
Proof.
  unfold POST. apply preserves_catch; [|intros e; apply preserves_ret].
  destruct (truthy (CRON_SECRET cfg) && _); [apply preserves_ret|].
  apply preserves_bind.
  { unfold services_query. destruct (_ || _); apply preserves_query_read. }
  intros svcs. apply preserves_bind; [apply preserves_run_workers|].
  intros acc. apply preserves_bind.
  { destruct (0 <? _)%nat; [|apply preserves_ret].
    apply preserves_query_write. intros d. apply local_insert_status_checks. }
  intros _. apply preserves_bind; [|intros _; apply preserves_ret].
  apply preserves_query_write. intros d. apply local_cleanup.
Qed.

Lemma preserves_GET orc now request : preserves P (GET cfg orc now request).
Proof.
  unfold GET. destruct (strict_neq _ _); [apply preserves_ret | apply preserves_POST].
Qed.

Lemma preserves_force_GET orc now request secret :
  preserves P (force_GET cfg orc now request secret).
Proof.
  unfold force_GET. destruct (_ || _); [apply preserves_ret | apply preserves_POST].
Qed.

Lemma preserves_services_POST input : preserves P (services_POST input).
Proof.
  unfold services_POST. apply preserves_catch; [|intros e; apply preserves_ret].
  destruct (_ || _); [apply preserves_ret|].
  apply preserves_bind; [|intros row; apply preserves_ret].
  apply preserves_query. intros d a d' H E. eapply local_insert_service; eauto.
Qed.

End Preservation.

(** ** The reconciler on the tables *)

Section ReconcilerTables.

Lemma sql_insert_incident_ok sid title descr st sev now d row d' :
  sql_insert_incident sid title descr st sev now d = Normal (row, d') ->
  incidents d' = (incidents d ++ [row])%list /\
  inc_id row = incidents_id_seq d /\
  inc_service_id row = sid /\
  inc_status row = st /\
  resolved_at row = None /\
  announcement_reasons d' = announcement_reasons d /\
  incident_updates d' = incident_updates d /\
  incidents_id_seq d' = incidents_id_seq d + 1 /\
  announcement_reason_templates d' = announcement_reason_templates d.
Proof.
  unfold sql_insert_incident. destruct title as [t|]; [|discriminate].
  destruct (negb (service_exists d sid)); [discriminate|].
  destruct (negb _); [discriminate|].
  intros [= <- <-]. simpl. repeat split.
Qed.

Lemma sql_insert_reason_tables iid sid c t d :
  incidents (sql_insert_reason iid sid c t d) = incidents d /\
  incident_updates (sql_insert_reason iid sid c t d) = incident_updates d /\
  incidents_id_seq (sql_insert_reason iid sid c t d) = incidents_id_seq d /\
  forall r, In r (announcement_reasons (sql_insert_reason iid sid c t d)) ->
            In r (announcement_reasons d) \/
            (ar_incident_id r = iid /\ ar_service_id r = sid).
Proof.
  unfold sql_insert_reason. destruct (existsb _ _); simpl.
  - repeat split. auto.
  - repeat split. intros r Hin. apply in_app_or in Hin as [H|[<-|[]]]; auto.
Qed.

Lemma active_count_app (d d' : Db) (row : Incident) (sid : Z) :
  incidents d' = (incidents d ++ [row])%list ->
  active_count d' sid =
    (active_count d sid + if active_for sid row then 1 else 0)%nat.
Proof.
  intros E. unfold active_count. rewrite E, filter_app, length_app. simpl.
  destruct (active_for sid row); reflexivity.
Qed.

Lemma wf_insert_incident sid title descr st sev now d row d' :
  wf d -> sql_insert_incident sid title descr st sev now d = Normal (row, d') -> wf d'.
Proof.
  intros [[Hseq Hpos] Hr] E.
  destruct (sql_insert_incident_ok _ _ _ _ _ _ _ _ _ E)
    as (Hi & Hid & _ & _ & _ & Har & _ & Hs & _).
  split; [split|].
  - lia.
  - intros i. rewrite Hi. intros Hin. apply in_app_or in Hin as [H|[<-|[]]];
      [auto | lia].
  - intros r. rewrite Har, Hi. intros Hin.
    destruct (Hr r Hin) as (i & Hin' & H). exists i. split; [|exact H].
    apply in_or_app. auto.
Qed.

Variable cfg : Config.
Variable orc : Oracle.
Variable now : Z.

(** The down branch keeps the tables well formed. *)
Lemma wf_reconcile_down service r :
  preserves wf (reconcile_down cfg orc now service r).
Proof.
  intros w Hwf. rewrite reconcile_down_db.
  destruct (truthy_id _); [exact Hwf|].
  destruct (sql_insert_incident _ _ _ _ _ _ _) as [[row d1]|e] eqn:E; [|exact Hwf].
  pose proof (wf_insert_incident _ _ _ _ _ _ _ _ _ Hwf E) as [[Hseq Hpos] Hr].
  destruct (sql_insert_incident_ok _ _ _ _ _ _ _ _ _ E)
    as (Hi & Hid & Hsv & Hst & _).
  destruct (pick_reason _ _) as [c t].
  destruct (sql_insert_reason_tables (inc_id row) (svc_id service) c t d1)
    as (Ti & _ & Ts & Tr).
  split; [split|].
  - rewrite Ts. exact Hseq.
  - rewrite Ti. exact Hpos.
  - intros x Hin. rewrite Ti. destruct (Tr x Hin) as [H|[Hx Hy]]; [auto|].
    exists row. rewrite Hi, Hx, Hy, Hsv. repeat split.
    + apply in_or_app. right. left. reflexivity.
    + unfold not_resolved. rewrite Hst. reflexivity.
Qed.


(** Tables after the operational branch. *)
Lemma reconcile_operational_tables service w :
  let sid := svc_id service in
  let d' := db (snd (reconcile_operational cfg now service w)) in
  let ids := map inc_id (filter (active_for sid) (incidents (db w))) in
  incidents d' = map (resolve_row sid now) (incidents (db w)) /\
  incidents_id_seq d' = incidents_id_seq (db w) /\
  announcement_reasons d' =
    filter (fun r => negb (id_in ids (ar_incident_id r))) (announcement_reasons (db w)) /\
  incident_updates d' =
    (incident_updates (db w) ++
     map (fun id => {| iu_incident_id := id; iu_message := restored_message;
                       iu_status := "resolved"; iu_created_at := now |}) ids)%list.
Proof.
  intros sid d' ids. subst d'. rewrite reconcile_operational_db.
  unfold sql_resolve_incidents. fold sid. fold ids.
  destruct ids as [|i l] eqn:E.
  - simpl. repeat split.
    + symmetry. clear. induction (announcement_reasons (db w)) as [|r rs IH];
        simpl; [reflexivity | f_equal; exact IH].
    + rewrite app_nil_r. reflexivity.
  - rewrite <- E. unfold sql_insert_incident_updates, sql_delete_reasons. simpl.
    repeat split. rewrite map_map. reflexivity.
Qed.

Lemma count_reconcile_operational service w sid :
  active_count (db (snd (reconcile_operational cfg now service w))) sid =
    if sid =? svc_id service then 0%nat else active_count (db w) sid.
Proof.
  destruct (reconcile_operational_tables service w) as (Hi & _).
  unfold active_count. rewrite Hi.
  destruct (Z.eqb_spec sid (svc_id service)) as [->|Hne].
  - rewrite filter_resolved_self. reflexivity.
  - rewrite (filter_resolved_other _ _ _ _ Hne). reflexivity.
Qed.

(** A reason of a well-formed table that survives the operational branch
    belongs to another service. *)
Lemma surviving_reason service w x :
  reasons_wf (db w) ->
  In x (announcement_reasons (db (snd (reconcile_operational cfg now service w)))) ->
  In x (announcement_reasons (db w)) /\ ar_service_id x <> svc_id service.
Proof.
  intros Hr. destruct (reconcile_operational_tables service w) as (_ & _ & Ha & _).
  rewrite Ha, filter_In, negb_true_iff. intros [Hin Hout]. split; [exact Hin|].
  intros Hs. destruct (Hr x Hin) as (i & Hi & Hid & Hsv & Hn).
  assert (Hin' : In (ar_incident_id x)
            (map inc_id (filter (active_for (svc_id service)) (incidents (db w))))).
  { rewrite <- Hid. apply in_map. apply filter_In. split; [exact Hi|].
    rewrite <- Hs, <- Hsv. apply active_for_intro. exact Hn. }
  apply id_in_spec in Hin'. congruence.
Qed.

Lemma wf_reconcile_operational service :
  preserves wf (reconcile_operational cfg now service).
Proof.
  intros w [[Hseq Hpos] Hr].
  destruct (reconcile_operational_tables service w) as (Hi & Hs & Ha & _).
  split; [split|].
  - rewrite Hs. exact Hseq.
  - rewrite Hi. intros i Hin. apply in_map_iff in Hin as (j & <- & Hj).
    rewrite resolve_row_id. auto.
  - intros x Hin. destruct (surviving_reason _ _ _ Hr Hin) as [Hx Hne].
    destruct (Hr x Hx) as (i & Hin' & Hid & Hsv & Hn).
    exists i. rewrite Hi. repeat split; auto.
    apply in_map_iff. exists i. split; [|exact Hin'].
    unfold resolve_row. destruct (active_for (svc_id service) i) eqn:A; [|reflexivity].
    apply active_for_service in A as [A _]. congruence.
Qed.

Lemma wf_reconcile service r : preserves wf (reconcile cfg orc now service r).
Proof.
  unfold reconcile. destruct (status r).
  - apply wf_reconcile_operational.
  - apply preserves_ret.
  - apply wf_reconcile_down.
Qed.

End ReconcilerTables.

Lemma wf_local : incident_local wf.
Proof.
  intros d d' Hi Ha Hs [[Hseq Hpos] Hr]. split; [split|].
  - rewrite Hs. exact Hseq.
  - rewrite Hi. exact Hpos.
  - intros r. rewrite Ha, Hi. apply Hr.
Qed.

Lemma wf_incidents_POST serviceId input now :
  preserves wf (incidents_POST serviceId input now).
Proof.
  unfold incidents_POST. apply preserves_catch; [|intros e; apply preserves_ret].
  destruct serviceId as [sid|]; [|apply preserves_ret].
  apply preserves_bind; [|intros row; apply preserves_ret].
  apply preserves_query. intros d a d' H E. eapply wf_insert_incident; eauto.
Qed.

Lemma wf_fresh (d : Db) : fresh d -> wf d.
Proof.
  intros (_ & Hi & _ & Ha & Hs). split; [split|].
  - lia.
  - rewrite Hi. intros i [].
  - intros r. rewrite Ha. intros [].
Qed.

(** Every reachable database is well formed. *)
Lemma reachable_wf (cfg : Config) (w : World) : reachable cfg w -> wf (db w).
Proof.
  induction 1 as [d Hf | w w' _ IH Hstep].
  - apply wf_fresh. exact Hf.
  - destruct Hstep.
    + apply (preserves_POST wf wf_local cfg); [|exact IH].
      intros; apply wf_reconcile.
    + apply (preserves_GET wf wf_local cfg); [|exact IH].
      intros; apply wf_reconcile.
    + apply (preserves_force_GET wf wf_local cfg); [|exact IH].
      intros; apply wf_reconcile.
    + apply (preserves_services_POST wf wf_local); exact IH.
    + apply wf_incidents_POST; exact IH.
Qed.

(** ** Sample states *)

Lemma fresh_db0 : fresh Samples.db0.
Proof. repeat split. Qed.

Lemma reachable_w1 cfg : reachable cfg Samples.w1.
Proof.
  apply (reach_step cfg Samples.w0); [apply reach_fresh, fresh_db0|].
  apply step_incidents_POST.
Qed.

Lemma reachable_w2 cfg : reachable cfg Samples.w2.
Proof.
  apply (reach_step cfg Samples.w1); [apply reachable_w1|].
  apply step_incidents_POST.
Qed.

Lemma reachable_w4 : reachable Samples.no_secret Samples.w4.
Proof.
  apply (reach_step _ Samples.w3); [|apply step_incidents_POST].
  apply (reach_step _ Samples.w0); [apply reach_fresh, fresh_db0|].
  apply step_POST.
Qed.

Example timeout_result :
  checkServiceStatus (Samples.env_failing Samples.aborted) =
    Normal {| status := down; response_time := None; status_code := None;
              error_message := Some "Request timeout (>10s)" |}.
Proof. reflexivity. Qed.

Example w3_tables :
  map inc_id (incidents (db Samples.w3)) = [1] /\
  map inc_status (incidents (db Samples.w3)) = ["investigating"] /\
  map reason_code (announcement_reasons (db Samples.w3)) = ["POWER_OUTAGE"] /\
  List.length (status_checks (db Samples.w3)) = 1%nat.
Proof. vm_compute. repeat split. Qed.

(** ** Incident lifecycle *)




(** C3. In a reachable state where the target has an unresolved incident, a
    reconciliation with probe status down returns after the lookup of the
    active incident and leaves the whole database as it was: no incident row
    and no announcement reason is added. *)
Theorem down_reconcile_idempotent (cfg : Config) (orc : Oracle) (now : Z)
    (service : Service) (r : ProbeResult) (w : World) :
  reachable cfg w ->
  status r = down ->
  (1 <= active_count (db w) (svc_id service))%nat ->
  reconcile cfg orc now service r w =
    (Normal tt,
     {| db := db w; trace := (trace w ++ [EvQuery select_active_incident])%list |}) /\
  incidents (db (snd (reconcile cfg orc now service r w))) = incidents (db w) /\
  announcement_reasons (db (snd (reconcile cfg orc now service r w))) =
    announcement_reasons (db w).
Proof.
  intros Hreach Hs Hc. pose proof (reachable_wf _ _ Hreach) as [Hids _].
  assert (E : reconcile cfg orc now service r w =
    (Normal tt,
     {| db := db w; trace := (trace w ++ [EvQuery select_active_incident])%list |})).
  { unfold reconcile. rewrite Hs. unfold reconcile_down, bind, query_read, query, ret, log.
    cbn -[sql_active_incident sql_insert_incident].
    rewrite (active_lookup_truthy _ _ Hids).
    destruct (Nat.eqb_spec (active_count (db w) (svc_id service)) 0) as [Hz|Hz];
      [lia | reflexivity]. }
  rewrite E. repeat split.
Qed.

Lemma Forall2_map_r {A B} (R : A -> B -> Prop) (f : A -> B) (l : list A) :
  (forall x, R x (f x)) -> Forall2 R l (map f l).
Proof. intros H. induction l; simpl; constructor; auto. Qed.

Lemma filter_none {A} (f : A -> bool) (l : list A) :
  (forall x, In x l -> f x = false) -> filter f l = [].
Proof.
  induction l as [|a l IH]; simpl; intros H; [reflexivity|].
  rewrite (H a (or_introl eq_refl)). apply IH. intros x Hx. apply H. right. exact Hx.
Qed.

(** C4. In a reachable state a reconciliation with probe status operational
    completes and (a) turns every unresolved incident of the target, however
    many there are, into the same row with status 'resolved' and
    [resolved_at] set, leaving all other incidents as they are, so that the
    target has no unresolved incident; (b) deletes the announcement reasons
    of exactly those incidents, after which the target has none; (c) appends
    one incident update per resolved incident, with the restored message and
    status 'resolved', and nothing else. *)
Theorem operational_resolves_all (cfg : Config) (orc : Oracle) (now : Z)
    (service : Service) (r : ProbeResult) (w : World) :
  reachable cfg w ->
  status r = operational ->
  fst (reconcile cfg orc now service r w) = Normal tt /\
  Forall2
    (fun i i' =>
       (active_for (svc_id service) i = true ->
          inc_status i' = "resolved" /\ resolved_at i' = Some now /\
          inc_id i' = inc_id i /\ inc_service_id i' = inc_service_id i /\
          inc_title i' = inc_title i /\ inc_description i' = inc_description i /\
          inc_severity i' = inc_severity i /\ started_at i' = started_at i) /\
       (active_for (svc_id service) i = false -> i' = i))
    (incidents (db w))
    (incidents (db (snd (reconcile cfg orc now service r w)))) /\
  active_count (db (snd (reconcile cfg orc now service r w))) (svc_id service) = 0%nat /\
  announcement_reasons (db (snd (reconcile cfg orc now service r w))) =
    filter
      (fun x =>
         negb (id_in (map inc_id (filter (active_for (svc_id service)) (incidents (db w))))
                 (ar_incident_id x)))
      (announcement_reasons (db w)) /\
  reasons_of (db (snd (reconcile cfg orc now service r w))) (svc_id service) = [] /\
  incident_updates (db (snd (reconcile cfg orc now service r w))) =
    (incident_updates (db w) ++
     map (fun i =>
            {| iu_incident_id := inc_id i;
               iu_message := "Service has been restored and is operational";
               iu_status := "resolved";
               iu_created_at := now |})
       (filter (active_for (svc_id service)) (incidents (db w))))%list.
Proof.
  intros Hreach Hs. pose proof (reachable_wf _ _ Hreach) as [_ Hr].
  unfold reconcile. rewrite Hs.
  destruct (reconcile_operational_tables cfg now service w) as (Hi & _ & Ha & Hu).
  split; [apply reconcile_operational_returns|].
  split; [|split; [|split; [|split]]].
  - rewrite Hi. apply Forall2_map_r. intros i. unfold resolve_row.
    destruct (active_for (svc_id service) i); split; intros H;
      try discriminate; simpl; repeat split.
  - rewrite count_reconcile_operational, Z.eqb_refl. reflexivity.
  - exact Ha.
  - unfold reasons_of. apply filter_none. intros x Hin.
    destruct (surviving_reason cfg now service w x Hr Hin) as [_ Hne].
    apply Z.eqb_neq. exact Hne.
  - rewrite Hu, map_map. reflexivity.
Qed.

(** C8. A worker iteration whose probe comes back degraded completes, leaves
    every table of the database as it was, and only notes the probe and its
    result for the later batch insert. In general a reconciliation adds an
    incident row only for status down, and changes an existing incident row
    only for status operational. *)
Theorem degraded_no_transition (cfg : Config) (orc : Oracle) (now : Z)
    (service : Service) (acc : CycleAcc) (w : World) (r : ProbeResult) :
  checkServiceStatus (net orc (svc_url service)) = Normal r ->
  status r = degraded ->
  (exists acc',
     worker_step cfg orc now service acc w =
       (Normal acc',
        {| db := db w; trace := (trace w ++ [EvProbe (svc_url service)])%list |}) /\
     collected acc' =
       (collected acc ++ [(svc_id service, svc_name service, r)])%list) /\
  reconcile cfg orc now service r w = (Normal tt, w) /\
  (forall r' : ProbeResult,
     status r' <> down ->
     List.length (incidents (db (snd (reconcile cfg orc now service r' w)))) =
       List.length (incidents (db w))) /\
  (forall r' : ProbeResult,
     status r' <> operational ->
     exists added,
       incidents (db (snd (reconcile cfg orc now service r' w))) =
         (incidents (db w) ++ added)%list).
Proof.
  intros Hp Hs. split; [|split; [|split]].
  - unfold worker_step, bind, probe, reconcile, ret, log. rewrite Hp. cbn [fst snd].
    rewrite Hs. eexists. split; reflexivity.
  - unfold reconcile. rewrite Hs. reflexivity.
  - intros r' Hn. unfold reconcile. destruct (status r') eqn:E.
    + destruct (reconcile_operational_tables cfg now service w) as (Hi & _).
      rewrite Hi, length_map. reflexivity.
    + reflexivity.
    + contradiction.
  - intros r' Hn. unfold reconcile. destruct (status r') eqn:E.
    + contradiction.
    + exists []. rewrite app_nil_r. reflexivity.
    + rewrite reconcile_down_db. destruct (truthy_id _).
      * exists []. rewrite app_nil_r. reflexivity.
      * destruct (sql_insert_incident _ _ _ _ _ _ _) as [[row d1]|e] eqn:I.
        -- destruct (sql_insert_incident_ok _ _ _ _ _ _ _ _ _ I) as (Hi & _).
           destruct (pick_reason _ _) as [c t].
           destruct (sql_insert_reason_tables (inc_id row) (svc_id service) c t d1)
             as (Ti & _).
           exists [row]. rewrite Ti. exact Hi.
        -- exists []. rewrite app_nil_r. reflexivity.
Qed.

(** ** Admin routes and manual triggers *)

Lemma opt_string_eqb_false (a : option string) (s : string) :
  a <> Some s -> opt_string_eqb a (Some s) = false.
Proof.
  intros H. destruct a as [x|]; simpl; [|reflexivity].
  destruct (String.eqb_spec x s); [subst; contradiction | reflexivity].
Qed.

Lemma truthy_nonempty (s : string) : s <> "" -> truthy (Some s) = true.
Proof. destruct s; [contradiction | reflexivity]. Qed.

Lemma or_else_nonempty (s dflt : string) : s <> "" -> or_else (Some s) dflt = s.
Proof. destruct s; [contradiction | reflexivity]. Qed.

(** C7, on the code. A service created through the route without a
    [check_interval] is stored with 300 seconds: the route passes
    [check_interval || 300] to the insert, so the column default of 420 is
    never used. *)
Theorem services_POST_default_interval (input : ServiceInput) (w w' : World)
    (row : Service) :
  in_check_interval input = None ->
  services_POST input w = (Normal (json (ServiceBody row) 201), w') ->
  check_interval row = 300 /\ In row (services (db w')).
Proof.
  intros Hn. unfold services_POST, catch, bind, query, ret. rewrite Hn.
  destruct (_ || _); [discriminate|].
  cbn -[sql_insert_service].
  destruct (sql_insert_service _ _ _ _ _) as [[row' d1]|e] eqn:E; [|discriminate].
  intros [= <- <-]. revert E. unfold sql_insert_service.
  destruct (negb _); [discriminate|]. destruct (existsb _ _); [discriminate|].
  intros [= <- <-]. simpl. split; [reflexivity|].
  apply in_or_app. right. left. reflexivity.
Qed.

(** C9, as the code has it. The two GET triggers answer 401 and leave the
    database and the trace untouched whenever the secret they are given is
    missing or differs from [CRON_SECRET]; the POST trigger does so whenever
    [CRON_SECRET] is set to a non-empty value and the authorization header
    is not the bearer form of it. With [CRON_SECRET] unset or empty the POST
    trigger does not look at the authorization header at all. *)
Theorem unauthorized_trigger_rejected (cfg : Config) (orc : Oracle) (now : Z)
    (request : Request) (w : World) :
  (forall secret,
     CRON_SECRET cfg = Some secret -> secret <> "" ->
     header_authorization request <> Some ("Bearer " ++ secret) ->
     POST cfg orc now request w = (Normal (json (ErrorBody "Unauthorized") 401), w)) /\
  (param_secret request = None \/ param_secret request <> CRON_SECRET cfg ->
     GET cfg orc now request w = (Normal (json (ErrorBody "Unauthorized") 401), w)) /\
  (forall secret,
     CRON_SECRET cfg <> Some secret ->
     force_GET cfg orc now request secret w =
       (Normal (json (ErrorBody "Unauthorized") 401), w)) /\
  (CRON_SECRET cfg = None \/ CRON_SECRET cfg = Some "" ->
   forall header,
     POST cfg orc now request w =
     POST cfg orc now
       {| header_authorization := header;
          header_x_force_check := header_x_force_check request;
          param_secret := param_secret request;
          param_force := param_force request |} w).
Proof.
  split; [|split; [|split]].
  - intros secret Hc Hne Hh. unfold POST, catch, ret. rewrite Hc.
    rewrite (truthy_nonempty _ Hne), (or_else_nonempty _ _ Hne).
    rewrite (opt_string_eqb_false _ _ Hh). reflexivity.
  - intros H. unfold GET, ret.
    assert (E : strict_neq (param_secret request) (CRON_SECRET cfg) = true).
    { destruct H as [-> | H]; [reflexivity|].
      destruct (param_secret request) as [a|]; [|reflexivity].
      destruct (CRON_SECRET cfg) as [b|]; [|reflexivity]. simpl.
      destruct (String.eqb_spec a b); [subst; contradiction | reflexivity]. }
    rewrite E. reflexivity.
  - intros secret H. unfold force_GET, ret.
    destruct (CRON_SECRET cfg) as [[|c e]|]; try reflexivity.
    cbn [or_else truthy negb orb].
    destruct (String.eqb_spec secret (String c e)); [subst; contradiction | reflexivity].
  - intros H header. unfold POST. destruct H as [-> | ->]; reflexivity.
Qed.

(** ** Counterexamples to claims the code does not meet *)



(** C9 as stated fails: with [CRON_SECRET] unset, a POST without any
    authorization header is not rejected; it queries, probes and opens an
    incident. *)
Lemma POST_without_secret_runs :
  header_authorization Samples.anonymous = None /\
  exists resp,
    fst (POST Samples.no_secret Samples.all_down 7000 Samples.anonymous Samples.w0)
      = Normal resp /\
    http_status resp = 200 /\
    In (EvProbe "https://library.tcioe.edu.np")
       (trace (snd (POST Samples.no_secret Samples.all_down 7000
                      Samples.anonymous Samples.w0))) /\
    List.length
      (incidents (db (snd (POST Samples.no_secret Samples.all_down 7000
                             Samples.anonymous Samples.w0)))) = 1%nat.
Proof.
  split; [reflexivity|]. eexists. split; [vm_compute; reflexivity|].
  split; [reflexivity|]. split; [vm_compute; tauto | vm_compute; reflexivity].
Qed.

(** ** The theorems at concrete inputs *)



(** A down probe for a service whose incident is already open. *)
Lemma down_reconcile_idempotent_witness :
  incidents
    (db (snd (reconcile Samples.no_secret Samples.all_down 9000 Samples.library
                (Samples.result_of (Samples.env_failing Samples.refused))
                Samples.w1)))
  = incidents (db Samples.w1).
Proof.
  apply (down_reconcile_idempotent Samples.no_secret Samples.all_down 9000
           Samples.library (Samples.result_of (Samples.env_failing Samples.refused))
           Samples.w1).
  - apply reachable_w1.
  - reflexivity.
  - vm_compute. lia.
Defined.

(** An operational probe with two incidents open, one of them with a reason. *)
Lemma operational_resolves_all_witness :
  active_count
    (db (snd (reconcile Samples.no_secret Samples.all_up 9000 Samples.library
                (Samples.result_of (Samples.env_responding 200 50)) Samples.w4)))
    1 = 0%nat.
Proof.
  apply (operational_resolves_all Samples.no_secret Samples.all_up 9000
           Samples.library (Samples.result_of (Samples.env_responding 200 50))
           Samples.w4).
  - apply reachable_w4.
  - reflexivity.
Defined.

(** A slow 200 while an incident is open. *)
Lemma degraded_no_transition_witness :
  reconcile Samples.no_secret Samples.all_slow 9000 Samples.library
    (Samples.result_of (Samples.env_responding 200 3000)) Samples.w1
  = (Normal tt, Samples.w1).
Proof.
  apply (degraded_no_transition Samples.no_secret Samples.all_slow 9000
           Samples.library {| results := []; collected := [] |} Samples.w1
           (Samples.result_of (Samples.env_responding 200 3000))).
  - reflexivity.
  - reflexivity.
Defined.

(** A new service posted with name and url only. *)
Lemma services_POST_default_interval_witness :
  exists row w',
    services_POST Samples.new_service Samples.w0 =
      (Normal (json (ServiceBody row) 201), w') /\
    check_interval row = 300.
Proof.
  eexists. eexists. split; [vm_compute; reflexivity|].
  eapply (services_POST_default_interval Samples.new_service Samples.w0).
  - reflexivity.
  - vm_compute. reflexivity.
Defined.

(** A 204 at the threshold latency. *)
Lemma classify_table_witness :
  fst (classify 204 2500) = operational <-> 2500 <= 2500.
Proof.
  apply (proj2 (proj2 (proj2 (proj2 (proj2 (proj2 classify_table))))) 204 2500).
  lia.
Defined.

(** The service checked 421 seconds earlier. *)
Lemma due_target_selection_witness :
  exists l,
    fst (services_query false (7000 + 421 * 1000000) Samples.w3) = Normal l /\
    In Samples.library l.
Proof.
  destruct (due_target_selection (7000 + 421 * 1000000) Samples.w3 Samples.library)
    as ((l & Hl & _ & Hdue) & _).
  exists l. split; [exact Hl|].
  assert (Hc : In (mkStatusCheck 1 "down" (Some 90) None (Some "Connection refused") 7000)
                 (status_checks (db Samples.w3))) by (vm_compute; auto).
  apply (Hdue eq_refl eq_refl (or_introl eq_refl) _ Hc eq_refl).
  - intros c' Hin _. vm_compute in Hin. destruct Hin as [<-|[]]. simpl. lia.
  - reflexivity.
Defined.

(** A POST without header against a configured secret. *)
Lemma unauthorized_trigger_rejected_witness :
  POST Samples.with_secret Samples.all_down 9000 Samples.anonymous Samples.w3 =
    (Normal (json (ErrorBody "Unauthorized") 401), Samples.w3).
Proof.
  apply (proj1 (unauthorized_trigger_rejected Samples.with_secret Samples.all_down
                  9000 Samples.anonymous Samples.w3) "s3cret").
  - reflexivity.
  - discriminate.
  - discriminate.
Defined.

(** * Further properties of the code *)

(** ** The check cycle *)

Section CycleFacts.

Variable cfg : Config.
Variable orc : Oracle.
Variable now : Z.

Lemma probe_returns (s : Service) (w : World) :
  probe orc (svc_url s) w = (Normal (probed orc s), log (EvProbe (svc_url s)) w).
Proof.
  unfold probe, probed.
  destruct (checkServiceStatus_total (net orc (svc_url s))) as (r & Hr & _).
  rewrite Hr. reflexivity.
Qed.

(** Reconciliation never touches the history table or the services. *)
Lemma reconcile_keeps_history (service : Service) (r : ProbeResult) (w : World) :
  status_checks (db (snd (reconcile cfg orc now service r w))) = status_checks (db w) /\
  services (db (snd (reconcile cfg orc now service r w))) = services (db w).
Proof.
  unfold reconcile. destruct (status r).
  - rewrite reconcile_operational_db. unfold sql_resolve_incidents.
    destruct (map inc_id _); split; reflexivity.
  - split; reflexivity.
  - rewrite reconcile_down_db. destruct (truthy_id _); [split; reflexivity|].
    unfold sql_insert_incident.
    destruct (negb (service_exists _ _)); [split; reflexivity|].
    destruct (negb _); [split; reflexivity|].
    destruct (pick_reason _ _) as [c t]. unfold sql_insert_reason.
    destruct (existsb _ _); split; reflexivity.
Qed.

Lemma worker_step_eq (s : Service) (acc : CycleAcc) (w : World) :
  worker_step cfg orc now s acc w =
    match reconcile cfg orc now s (probed orc s) (log (EvProbe (svc_url s)) w) with
    | (Normal _, w1) =>
      (Normal {| results := (results acc ++ [result_entry orc s])%list;
                 collected :=
                   (collected acc ++ [(svc_id s, svc_name s, probed orc s)])%list |},
       w1)
    | (Throw e, w1) => (Throw e, w1)
    end.
Proof.
  unfold worker_step. unfold bind at 1. rewrite probe_returns. unfold bind.
  destruct (reconcile _ _ _ _ _ _) as [[[]|e] w1]; reflexivity.
Qed.

(** The worker pool: when it completes, it has produced one result and one
    collected row per service, in order; in any case the history table and
    the services are as before. *)
Lemma run_workers_spec (svcs : list Service) :
  forall acc w,
    status_checks (db (snd (run_workers cfg orc now svcs acc w))) = status_checks (db w) /\
    services (db (snd (run_workers cfg orc now svcs acc w))) = services (db w) /\
    forall acc', fst (run_workers cfg orc now svcs acc w) = Normal acc' ->
      results acc' = (results acc ++ map (result_entry orc) svcs)%list /\
      collected acc' =
        (collected acc ++
         map (fun s => (svc_id s, svc_name s, probed orc s)) svcs)%list.
Proof.
  induction svcs as [|s l IH]; intros acc w.
  - simpl. split; [reflexivity|]. split; [reflexivity|].
    intros acc' [= <-]. rewrite !app_nil_r. split; reflexivity.
  - cbn [run_workers]. unfold bind. rewrite worker_step_eq.
    destruct (reconcile_keeps_history s (probed orc s) (log (EvProbe (svc_url s)) w))
      as [Hh Hs].
    destruct (reconcile cfg orc now s (probed orc s) (log (EvProbe (svc_url s)) w))
      as [[[]|e] w1]; cbn [fst snd] in *.
    + match goal with
      | |- context [run_workers cfg orc now l ?a w1] =>
          destruct (IH a w1) as (I1 & I2 & I3)
      end.
      rewrite I1, I2, Hh, Hs. split; [reflexivity|]. split; [reflexivity|].
      intros acc' Hr. destruct (I3 acc' Hr) as [R C]. cbn [results collected] in R, C.
      rewrite R, C, <- !app_assoc. split; reflexivity.
    + split; [exact Hh|]. split; [exact Hs|]. intros acc' [=].
Qed.

End CycleFacts.

Section CycleReport.

Variable cfg : Config.
Variable orc : Oracle.
Variable now : Z.

Lemma services_query_selected (request : Request) (w : World) :
  exists w1,
    services_query (force_requested request) now w =
      (Normal (selected request now (db w)), w1) /\ db w1 = db w.
Proof.
  unfold services_query, selected, query_read, query.
  destruct (force_requested request); eexists; split; reflexivity.
Qed.

Lemma filter_filter_same {A} (f : A -> bool) (l : list A) :
  filter f (filter f l) = filter f l.
Proof.
  induction l as [|a l IH]; simpl; [reflexivity|].
  destruct (f a) eqn:E; simpl; [rewrite E, IH; reflexivity | exact IH].
Qed.

Lemma history_rows_of_collected (svcs : list Service) :
  map (fun '(sid, st, rt, code, msg) =>
         {| sc_service_id := sid; sc_status := st; sc_response_time := rt;
            sc_status_code := code; sc_error_message := msg; checked_at := now |})
      (map status_check_row
         (map (fun s => (svc_id s, svc_name s, probed orc s)) svcs)) =
  map (history_row orc now) svcs.
Proof. rewrite !map_map. apply map_ext. intros s. reflexivity. Qed.

(** The cycle after the authorization check, in terms of the worker pool. *)
Lemma POST_outcome (request : Request) (w : World) (resp : Response) (w' : World) :
  POST cfg orc now request w = (Normal resp, w') ->
  http_status resp = 401 /\ w' = w /\
    truthy (CRON_SECRET cfg) &&
    negb (opt_string_eqb (header_authorization request)
            (Some ("Bearer " ++ or_else (CRON_SECRET cfg) ""))) = true \/
  http_status resp = 500 /\ status_checks (db w') = status_checks (db w) \/
  http_status resp = 200 /\
  body resp =
    CheckBody true (List.length (selected request now (db w)))
      (map (result_entry orc) (selected request now (db w))) /\
  status_checks (db w') =
    filter (within_retention now)
      (status_checks (db w) ++ map (history_row orc now) (selected request now (db w))) /\
  services (db w') = services (db w).
Proof.
  unfold POST, catch.
  destruct (truthy (CRON_SECRET cfg) && _).
  { unfold ret. intros [= <- <-]. left. repeat split. }
  fold (force_requested request). unfold bind at 1.
  destruct (services_query_selected request w) as (w1 & -> & Hw1).
  set (svcs := selected request now (db w)).
  unfold bind at 1.
  destruct (run_workers_spec cfg orc now svcs {| results := []; collected := [] |} w1)
    as (Hh & Hs & Hacc).
  destruct (run_workers cfg orc now svcs {| results := []; collected := [] |} w1)
    as [[acc|e] w2]; cbn [fst snd] in *.
  - destruct (Hacc acc eq_refl) as [R C]. cbn [results collected app] in R, C.
    unfold bind, query_write, query, ret, log. rewrite C, R.
    rewrite length_map.
    destruct (0 <? List.length svcs)%nat eqn:L;
      cbn -[sql_insert_status_checks cleanup_old_status_checks map];
      intros [= <- <-]; right; right.
    + cbn -[map within_retention history_row].
      rewrite history_rows_of_collected, length_map, Hh, Hs, Hw1.
      change (fun c : StatusCheck => negb (checked_at c <? now - interval_30_days))
        with (within_retention now).
      rewrite filter_filter_same. repeat split.
    + cbn -[map within_retention history_row]. rewrite length_map, Hh, Hs, Hw1.
      apply Nat.ltb_ge in L. destruct svcs; [|simpl in L; lia].
      cbn [map]. rewrite app_nil_r. repeat split.
  - unfold ret. intros [= <- <-]. right. left. cbn. rewrite Hh, Hw1. split; reflexivity.
Qed.

End CycleReport.

(** X1. A cycle that answers 200 reports exactly one result per selected
    service, in the order of selection, with [checked] their number, and
    leaves in [status_checks] the rows of the last 30 days among the old
    rows followed by one new row per selected service stamped [now]. The
    selection is every active service when the force header is "1" or
    "true" in any letter case, else the due ones. *)
Theorem cycle_report (cfg : Config) (orc : Oracle) (now : Z) (request : Request)
    (w w' : World) (resp : Response) :
  POST cfg orc now request w = (Normal resp, w') ->
  http_status resp = 200 ->
  body resp =
    CheckBody true (List.length (selected request now (db w)))
      (map (result_entry orc) (selected request now (db w))) /\
  status_checks (db w') =
    filter (within_retention now)
      (status_checks (db w) ++ map (history_row orc now) (selected request now (db w))).
Proof.
  intros H Hs.
  destruct (POST_outcome cfg orc now request w resp w' H)
    as [(E & _) | [[E _] | (_ & Hb & Hc & _)]]; try (rewrite E in Hs; discriminate).
  split; assumption.
Qed.

(** X2. Retention: after a cycle that answers 200 no status check older
    than 30 days remains, every old row inside the window is still there,
    and every selected service has its new row. *)
Theorem cycle_retention (cfg : Config) (orc : Oracle) (now : Z) (request : Request)
    (w w' : World) (resp : Response) :
  POST cfg orc now request w = (Normal resp, w') ->
  http_status resp = 200 ->
  (forall c, In c (status_checks (db w')) ->
     now - 30 * 86400 * 1000000 <= checked_at c) /\
  (forall c, In c (status_checks (db w)) ->
     now - 30 * 86400 * 1000000 <= checked_at c -> In c (status_checks (db w'))) /\
  (forall s, In s (selected request now (db w)) ->
     In (history_row orc now s) (status_checks (db w'))).
Proof.
  intros H Hs. destruct (cycle_report _ _ _ _ _ _ _ H Hs) as [_ Hc].
  rewrite Hc. unfold within_retention, interval_30_days, usec_per_sec.
  split; [|split].
  - intros c Hin. apply filter_In in Hin as [_ Hk].
    apply negb_true_iff, Z.ltb_ge in Hk. lia.
  - intros c Hin Hk. apply filter_In. split; [apply in_or_app; auto|].
    apply negb_true_iff, Z.ltb_ge. lia.
  - intros s Hin. apply filter_In. split.
    + apply in_or_app. right. apply in_map. exact Hin.
    + apply negb_true_iff, Z.ltb_ge. simpl. lia.
Qed.

(** X3. A cycle that answers 500 has recorded nothing: [status_checks] is as
    it was, although services were probed. In the model the statement that
    can be rejected is the insertion of an incident (title over 255
    characters, service gone). *)
Theorem failed_cycle_records_nothing (cfg : Config) (orc : Oracle) (now : Z)
    (request : Request) (w w' : World) (resp : Response) :
  POST cfg orc now request w = (Normal resp, w') ->
  http_status resp = 500 ->
  status_checks (db w') = status_checks (db w).
Proof.
  intros H Hs.
  destruct (POST_outcome cfg orc now request w resp w' H)
    as [(E & _) | [[_ Hc] | (E & _)]]; try (rewrite E in Hs; discriminate).
  exact Hc.
Qed.

(** X4. A service probed in a cycle that answers 200 is not selected again by
    an unforced cycle before its check interval has elapsed. *)
Theorem probed_not_due_again (cfg : Config) (orc : Oracle) (now : Z)
    (request : Request) (w w' : World) (resp : Response) (s : Service) (later : Z) :
  POST cfg orc now request w = (Normal resp, w') ->
  http_status resp = 200 ->
  In s (selected request now (db w)) ->
  later < now + check_interval s * 1000000 ->
  ~ In s (sql_due_services (db w') later).
Proof.
  intros H Hs Hin Hl.
  destruct (cycle_retention _ _ _ _ _ _ _ H Hs) as (_ & _ & Hnew).
  specialize (Hnew s Hin).
  unfold sql_due_services, is_due. rewrite filter_In. intros [_ Hd].
  apply andb_true_iff in Hd as [_ Hd].
  destruct (last_check (db w') (svc_id s)) as [t|] eqn:L.
  - apply last_check_some in L as (c & _ & _ & Ht & Hmax).
    specialize (Hmax _ Hnew eq_refl). simpl in Hmax.
    apply Z.leb_le in Hd. unfold make_interval_secs, usec_per_sec in Hd. lia.
  - apply (proj1 (last_check_none _ _)) with (c := history_row orc now s) in L;
      [elim L; reflexivity | exact Hnew].
Qed.

(** A cycle over the one seeded service, found down. *)
Lemma cycle_report_witness :
  exists resp w',
    POST Samples.no_secret Samples.all_down 7000 Samples.anonymous Samples.w0
      = (Normal resp, w') /\
    body resp =
      CheckBody true 1
        [{| re_service := "Library System"; re_status := "down";
            re_response_time := Some 90 |}].
Proof.
  eexists. eexists. split; [vm_compute; reflexivity|].
  eapply proj1.
  eapply (cycle_report Samples.no_secret Samples.all_down 7000 Samples.anonymous
            Samples.w0).
  - vm_compute. reflexivity.
  - reflexivity.
Defined.

(** The row of the first cycle survives a cycle 8000 seconds later. *)
Lemma cycle_retention_witness :
  exists resp w',
    POST Samples.no_secret Samples.all_up 8000000000 Samples.anonymous Samples.w3
      = (Normal resp, w') /\
    In (history_row Samples.all_down 7000 Samples.library) (status_checks (db w')).
Proof.
  assert (H : POST Samples.no_secret Samples.all_up 8000000000 Samples.anonymous
                Samples.w3 =
              (Normal {| http_status := 200;
                         body := CheckBody true 1
                                   [{| re_service := "Library System";
                                       re_status := "operational";
                                       re_response_time := Some 50 |}] |},
               snd (POST Samples.no_secret Samples.all_up 8000000000 Samples.anonymous
                      Samples.w3)))
    by (vm_compute; reflexivity).
  destruct (cycle_retention _ _ _ _ _ _ _ H eq_refl) as (_ & Hold & _).
  eexists. eexists. split; [exact H|].
  apply Hold; [vm_compute; auto | vm_compute; discriminate].
Defined.

(** A service whose name leaves no room for the incident title, found
    down. *)
Lemma failed_cycle_records_nothing_witness :
  exists resp w',
    POST Samples.no_secret Samples.all_down 7000 Samples.anonymous Samples2.w_verbose
      = (Normal resp, w') /\
    http_status resp = 500 /\
    status_checks (db w') = [].
Proof.
  eexists. eexists. split; [vm_compute; reflexivity|]. split; [reflexivity|].
  eapply (failed_cycle_records_nothing Samples.no_secret Samples.all_down 7000
            Samples.anonymous Samples2.w_verbose).
  - vm_compute. reflexivity.
  - reflexivity.
Defined.

(** The seeded service 419 seconds after the cycle that probed it. *)
Lemma probed_not_due_again_witness :
  exists resp w',
    POST Samples.no_secret Samples.all_down 7000 Samples.anonymous Samples.w0
      = (Normal resp, w') /\
    ~ In Samples.library (sql_due_services (db w') (7000 + 419 * 1000000)).
Proof.
  eexists. eexists. split; [vm_compute; reflexivity|].
  eapply (probed_not_due_again Samples.no_secret Samples.all_down 7000
            Samples.anonymous Samples.w0).
  - vm_compute. reflexivity.
  - reflexivity.
  - vm_compute. auto.
  - vm_compute. reflexivity.
Defined.

(** ** Keys of the incident tables *)

Section KeyFacts.

Lemma NoDup_map_filter {A B} (f : A -> B) (g : A -> bool) (l : list A) :
  NoDup (map f l) -> NoDup (map f (filter g l)).
Proof.
  induction l as [|a l IH]; simpl; intros H; [constructor|].
  inversion H as [|x xs Hn Hd]; subst.
  destruct (g a); simpl; [|auto]. constructor; [|auto].
  intros Hin. apply Hn. apply in_map_iff in Hin as (y & Hy & Hin).
  apply filter_In in Hin as [Hin _]. apply in_map_iff. exists y. auto.
Qed.

Lemma NoDup_map_snoc {A B} (f : A -> B) (l : list A) (a : A) :
  NoDup (map f l) -> ~ In (f a) (map f l) -> NoDup (map f (l ++ [a])).
Proof.
  intros Hd Hn. rewrite map_app. simpl.
  apply NoDup_app; [exact Hd | repeat constructor; intros [] |].
  intros x Hx [<-|[]]. contradiction.
Qed.

Lemma map_resolve_ids (sid now : Z) (l : list Incident) :
  map inc_id (map (resolve_row sid now) l) = map inc_id l.
Proof.
  rewrite map_map. apply map_ext. intros i. apply resolve_row_id.
Qed.

Lemma keys_insert_incident sid title descr st sev now d row d' :
  keys_ok d -> sql_insert_incident sid title descr st sev now d = Normal (row, d') ->
  keys_ok d'.
Proof.
  intros (Hd & Hlt & Hr) E.
  destruct (sql_insert_incident_ok _ _ _ _ _ _ _ _ _ E)
    as (Hi & Hid & _ & _ & _ & Har & _ & Hs & _).
  split; [|split].
  - rewrite Hi. apply NoDup_map_snoc; [exact Hd|].
    intros Hin. apply in_map_iff in Hin as (j & Hj & Hin).
    specialize (Hlt j Hin). lia.
  - intros i. rewrite Hi, Hs. intros Hin.
    apply in_app_or in Hin as [H|[<-|[]]]; [specialize (Hlt i H)|]; lia.
  - rewrite Har. exact Hr.
Qed.

Lemma keys_insert_reason iid sid c t d :
  keys_ok d -> keys_ok (sql_insert_reason iid sid c t d).
Proof.
  intros (Hd & Hlt & Hr). unfold sql_insert_reason.
  destruct (existsb _ _) eqn:E; [repeat split; assumption|].
  split; [exact Hd|]. split; [exact Hlt|]. cbn [announcement_reasons].
  apply NoDup_map_snoc; [exact Hr|]. cbn [ar_incident_id].
  intros Hin. apply in_map_iff in Hin as (x & Hx & Hin).
  assert (existsb (fun r => ar_incident_id r =? iid) (announcement_reasons d) = true).
  { apply existsb_exists. exists x. split; [exact Hin | apply Z.eqb_eq; exact Hx]. }
  congruence.
Qed.

Variable cfg : Config.

Lemma keys_reconcile orc now service r :
  preserves keys_ok (reconcile cfg orc now service r).
Proof.
  intros w Hk. unfold reconcile. destruct (status r).
  - destruct (reconcile_operational_tables cfg now service w) as (Hi & Hs & Ha & _).
    destruct Hk as (Hd & Hlt & Hr). split; [|split].
    + rewrite Hi, map_resolve_ids. exact Hd.
    + rewrite Hi, Hs. intros i Hin. apply in_map_iff in Hin as (j & <- & Hj).
      rewrite resolve_row_id. auto.
    + rewrite Ha. apply NoDup_map_filter. exact Hr.
  - exact Hk.
  - rewrite reconcile_down_db. destruct (truthy_id _); [exact Hk|].
    destruct (sql_insert_incident _ _ _ _ _ _ _) as [[row d1]|e] eqn:E; [|exact Hk].
    destruct (pick_reason _ _) as [c t]. apply keys_insert_reason.
    eapply keys_insert_incident; eauto.
Qed.

Lemma keys_local : incident_local keys_ok.
Proof.
  intros d d' Hi Ha Hs (Hd & Hlt & Hr). unfold keys_ok. rewrite Hi, Ha, Hs. auto.
Qed.

(** X5. In every reachable state the incident ids are pairwise distinct and
    below the next value of the sequence, and no two announcement reasons
    are attached to the same incident. *)
Theorem reachable_keys (w : World) :
  reachable cfg w ->
  NoDup (map inc_id (incidents (db w))) /\
  (forall i, In i (incidents (db w)) -> inc_id i < incidents_id_seq (db w)) /\
  NoDup (map ar_incident_id (announcement_reasons (db w))).
Proof.
  change (reachable cfg w -> keys_ok (db w)).
  induction 1 as [d (_ & Hi & _ & Ha & Hs) | w w' _ IH Hstep].
  - unfold keys_ok. cbn [db]. rewrite Hi, Ha. repeat split; try constructor.
    intros i [].
  - destruct Hstep.
    + apply (preserves_POST _ keys_local cfg); [|exact IH].
      intros; apply keys_reconcile.
    + apply (preserves_GET _ keys_local cfg); [|exact IH].
      intros; apply keys_reconcile.
    + apply (preserves_force_GET _ keys_local cfg); [|exact IH].
      intros; apply keys_reconcile.
    + apply (preserves_services_POST _ keys_local); exact IH.
    + revert IH. unfold incidents_POST. apply preserves_catch;
        [|intros e; apply preserves_ret].
      destruct serviceId as [sid|]; [|apply preserves_ret].
      apply preserves_bind; [|intros row; apply preserves_ret].
      apply preserves_query. intros d a d' H E. eapply keys_insert_incident; eauto.
Qed.

End KeyFacts.

Lemma string_length_append (a b : string) :
  String.length (a ++ b) = (String.length a + String.length b)%nat.
Proof. induction a as [|c a IH]; simpl; [reflexivity | rewrite IH; reflexivity]. Qed.

Lemma reconcile_down_fst cfg orc now service r w :
  fst (reconcile_down cfg orc now service r w) =
    if truthy_id (sql_active_incident (db w) (svc_id service)) then Normal tt
    else
      match sql_insert_incident (svc_id service)
              (Some (svc_name service ++ " is down"))
              (Some (or_else (error_message r) "Service is not responding"))
              "investigating" "major" now (db w) with
      | Throw e => Throw e
      | Normal _ => Normal tt
      end.
Proof.
  unfold reconcile_down, bind, query_read, query_write, query, supabase_call, ret, log.
  cbn -[sql_insert_incident sql_active_incident sql_insert_reason pick_reason].
  destruct (truthy_id _);
    cbn -[sql_insert_incident sql_active_incident sql_insert_reason pick_reason];
    [reflexivity|].
  destruct (sql_insert_incident _ _ _ _ _ _ _) as [[row d1]|e];
    cbn -[sql_insert_incident sql_active_incident sql_insert_reason pick_reason];
    [|reflexivity].
  destruct (supabase cfg);
    cbn -[sql_insert_incident sql_active_incident sql_insert_reason pick_reason];
    destruct (pick_reason _ _) as [c t]; reflexivity.
Qed.

(** X6. Opening an incident. In a reachable state, for a service of the
    table whose name has at most 247 characters and which has no unresolved
    incident, a reconciliation with status down completes and adds exactly
    one incident (next id of the sequence, status investigating, severity
    major, title "<name> is down", the probe's error message or "Service is
    not responding" as description, started now, not resolved) and exactly
    one announcement reason, attached to that incident and service; the
    service then has one unresolved incident and the updates are as
    before. *)
Theorem down_opens_incident (cfg : Config) (orc : Oracle) (now : Z)
    (service : Service) (r : ProbeResult) (w : World) :
  reachable cfg w ->
  In service (services (db w)) ->
  (String.length (svc_name service) <= 247)%nat ->
  active_count (db w) (svc_id service) = 0%nat ->
  status r = down ->
  fst (reconcile cfg orc now service r w) = Normal tt /\
  incidents (db (snd (reconcile cfg orc now service r w))) =
    (incidents (db w) ++
     [{| inc_id := incidents_id_seq (db w);
         inc_service_id := svc_id service;
         inc_title := svc_name service ++ " is down";
         inc_description :=
           Some (or_else (error_message r) "Service is not responding");
         inc_status := "investigating";
         inc_severity := "major";
         started_at := now;
         resolved_at := None |}])%list /\
  (exists code text,
     announcement_reasons (db (snd (reconcile cfg orc now service r w))) =
       (announcement_reasons (db w) ++
        [{| ar_incident_id := incidents_id_seq (db w);
            ar_service_id := svc_id service;
            reason_code := code;
            reason_text := text |}])%list) /\
  active_count (db (snd (reconcile cfg orc now service r w))) (svc_id service) = 1%nat /\
  incident_updates (db (snd (reconcile cfg orc now service r w))) =
    incident_updates (db w).
Proof.
  intros Hreach Hin Hlen Hc Hs.
  pose proof (reachable_wf _ _ Hreach) as [Hids Hrw].
  destruct (reachable_keys cfg w Hreach) as (_ & Hlt & _).
  unfold reconcile. rewrite Hs.
  rewrite reconcile_down_fst, reconcile_down_db.
  rewrite (active_lookup_truthy _ _ Hids), Hc. cbn [Nat.eqb negb].
  assert (Hex : service_exists (db w) (svc_id service) = true).
  { unfold service_exists. apply existsb_exists. exists service.
    split; [exact Hin | apply Z.eqb_refl]. }
  assert (Hfit : (String.length (svc_name service ++ " is down") <=? 255)%nat = true).
  { apply Nat.leb_le. rewrite string_length_append. simpl. lia. }
  unfold sql_insert_incident. rewrite Hex, Hfit. cbn [negb andb String.length Nat.leb].
  destruct (pick_reason _ _) as [c t].
  unfold sql_insert_reason. cbn [announcement_reasons inc_id].
  destruct (existsb _ _) eqn:E.
  { exfalso. apply existsb_exists in E as (x & Hx & Hid). apply Z.eqb_eq in Hid.
    destruct (Hrw x Hx) as (i & Hi & Hii & _). specialize (Hlt i Hi). lia. }
  cbn [incidents announcement_reasons incident_updates].
  split; [reflexivity|]. split; [reflexivity|].
  split; [exists c, t; reflexivity|]. split; [|reflexivity].
  unfold active_count in *. cbn [incidents]. rewrite filter_app, length_app, Hc.
  simpl. unfold active_for, not_resolved. simpl. rewrite Z.eqb_refl. reflexivity.
Qed.

(** The seeded service found down for the first time. *)
Lemma down_opens_incident_witness :
  active_count
    (db (snd (reconcile Samples.no_secret Samples.all_down 7000 Samples.library
                (Samples.result_of (Samples.env_failing Samples.refused))
                Samples.w0)))
    1 = 1%nat.
Proof.
  apply (down_opens_incident Samples.no_secret Samples.all_down 7000 Samples.library
           (Samples.result_of (Samples.env_failing Samples.refused)) Samples.w0).
  - apply reach_fresh, fresh_db0.
  - left. reflexivity.
  - vm_compute. lia.
  - reflexivity.
  - reflexivity.
Defined.

(** The state after two incidents entered by hand. *)
Lemma reachable_keys_witness :
  NoDup (map inc_id (incidents (db Samples.w2))).
Proof.
  apply (reachable_keys Samples.with_secret Samples.w2).
  apply reachable_w2.
Defined.

(** ** The reason pool *)

Section ReasonPool.

Lemma template_weight_pos (t : ReasonTemplate) : 1 <= template_weight t.
Proof. unfold template_weight. lia. Qed.

Lemma expanded_cons (t : ReasonTemplate) (ts : list ReasonTemplate) :
  expanded (t :: ts) =
    (repeat (tpl_code t, tpl_label t) (Z.to_nat (template_weight t)) ++ expanded ts)%list.
Proof. reflexivity. Qed.

Lemma expanded_from_pool (ts : list ReasonTemplate) (p : string * string) :
  In p (expanded ts) -> exists t, In t ts /\ p = (tpl_code t, tpl_label t).
Proof.
  unfold expanded. rewrite in_flat_map. intros (t & Hin & Hp).
  apply repeat_spec in Hp. exists t. auto.
Qed.

Lemma expanded_count_other (ts : list ReasonTemplate) (p : string * string) :
  ~ In (fst p) (map tpl_code ts) -> count_occ reason_pair_dec (expanded ts) p = 0%nat.
Proof.
  intros Hn. apply count_occ_not_In. intros Hin.
  apply expanded_from_pool in Hin as (t & Hin & ->). apply Hn.
  cbn [fst]. apply in_map. exact Hin.
Qed.

(** X7. The weighted draw. The array [expanded] holds every template as many
    times as its weight, where a weight that is null, zero or negative
    counts as 1 (codes being unique, as the table requires); so it is never
    shorter than the template list. The picked reason is always the default
    ("SERVER") or the code and label of a template, and it is a template's
    whenever there are templates and the drawn index is inside the array. *)
Theorem pick_reason_from_pool (templates : list ReasonTemplate) (draw : nat -> nat) :
  (forall t, In t templates -> NoDup (map tpl_code templates) ->
     count_occ reason_pair_dec (expanded templates) (tpl_code t, tpl_label t) =
       Z.to_nat
         (match tpl_weight t with
          | Some w => if w <=? 0 then 1 else w
          | None => 1
          end)) /\
  (List.length templates <= List.length (expanded templates))%nat /\
  (pick_reason templates draw = ("SERVER", "Server maintenance or outage") \/
   exists t, In t templates /\ pick_reason templates draw = (tpl_code t, tpl_label t)) /\
  (templates <> [] ->
   (draw (List.length (expanded templates)) < List.length (expanded templates))%nat ->
   exists t, In t templates /\ pick_reason templates draw = (tpl_code t, tpl_label t)).
Proof.
  split; [|split; [|split]].
  - induction templates as [|a l IH]; intros t Hin Hnd; [destruct Hin|].
    rewrite expanded_cons, count_occ_app.
    inversion Hnd as [|x xs Hna Hnd']; subst.
    assert (Hw : forall u, Z.to_nat (template_weight u) =
                   Z.to_nat (match tpl_weight u with
                             | Some w => if w <=? 0 then 1 else w
                             | None => 1
                             end)).
    { intros u. unfold template_weight. destruct (tpl_weight u) as [w|]; [|reflexivity].
      destruct (Z.leb_spec w 0); destruct w; try lia; reflexivity. }
    destruct Hin as [<-|Hin].
    + rewrite count_occ_repeat_eq by reflexivity.
      rewrite expanded_count_other by exact Hna. rewrite Nat.add_0_r. apply Hw.
    + rewrite count_occ_repeat_neq.
      * simpl. apply IH; assumption.
      * intros E. apply Hna. injection E as <- _. apply in_map. exact Hin.
  - induction templates as [|a l IH]; [apply Nat.le_refl|].
    rewrite expanded_cons, length_app, repeat_length. simpl.
    pose proof (template_weight_pos a). lia.
  - unfold pick_reason. destruct templates as [|a l]; [left; reflexivity|].
    destruct (nth_error _ _) as [p|] eqn:E; [|left; reflexivity].
    right. apply nth_error_In in E. apply expanded_from_pool in E as (t & Hin & ->).
    exists t. auto.
  - intros Hne Hlt. unfold pick_reason. destruct templates as [|a l]; [contradiction|].
    destruct (nth_error _ _) as [p|] eqn:E.
    + apply nth_error_In in E. apply expanded_from_pool in E as (t & Hin & ->).
      exists t. auto.
    + apply nth_error_None in E. lia.
Qed.

End ReasonPool.

(** ** Manual triggers with the right secret *)





(** ** Shape of a probe result *)

Ltac classify_cases :=
  unfold classify;
  repeat match goal with
         | |- context [if ?b then _ else _] => destruct b eqn:?
         end;
  repeat match goal with
         | H : (_ && _) = true |- _ => apply andb_true_iff in H as [? ?]
         | H : (_ && _) = false |- _ => apply andb_false_iff in H
         | H : (_ || _) = true |- _ => apply orb_true_iff in H
         | H : (_ || _) = false |- _ => apply orb_false_iff in H as [? ?]
         | H : (_ <=? _) = true |- _ => apply Z.leb_le in H
         | H : (_ <=? _) = false |- _ => apply Z.leb_gt in H
         | H : (_ <? _) = true |- _ => apply Z.ltb_lt in H
         | H : (_ <? _) = false |- _ => apply Z.ltb_ge in H
         | H : (_ =? _) = true |- _ => apply Z.eqb_eq in H
         | H : (_ =? _) = false |- _ => apply Z.eqb_neq in H
         end.

Lemma classify_message (code lat : Z) :
  (snd (classify code lat) = None <-> fst (classify code lat) = operational) /\
  (truthy (snd (classify code lat)) = false <-> snd (classify code lat) = None).
Proof.
  classify_cases; cbn [fst snd truthy]; split; split; intros; try reflexivity;
    try discriminate.
Qed.

Lemma classify_down (code lat : Z) :
  fst (classify code lat) = down <-> 500 <= code.
Proof.
  classify_cases; cbn [fst]; split; intros; try reflexivity; try discriminate;
    try lia; intuition lia.
Qed.

(** X9. Every result of a probe has an error message exactly when it is not
    operational, is down exactly when no response was obtained or the
    response code is 500 or more, and lacks a response time only when no
    response was obtained. A result obtained through the HEAD fallback
    carries its message with the prefix "Fallback HEAD: " and the latency
    of the HEAD request alone. *)
Theorem probe_result_shape (env : ProbeEnv) (r : ProbeResult) :
  checkServiceStatus env = Normal r ->
  (error_message r = None <-> status r = operational) /\
  (status r = down <->
     status_code r = None \/ exists c, status_code r = Some c /\ 500 <= c) /\
  (response_time r = None -> status_code r = None) /\
  (forall e c, get_fetch env = Throw e -> head_fetch env = Normal c ->
     response_time r = Some (now_after_head env - headStart env) /\
     error_message r =
       option_map (fun m => "Fallback HEAD: " ++ m)
         (snd (classify c (now_after_head env - headStart env)))).
Proof.
  destruct (get_fetch env) as [s|e] eqn:Hg.
  - rewrite (checkServiceStatus_get _ _ Hg). intros [= <-]. cbn.
    split; [apply classify_message|]. split; [|split; [discriminate|]].
    + rewrite classify_down. split.
      * intros H. right. exists s. auto.
      * intros [H | (c & [= <-] & H)]; [discriminate | exact H].
    + intros e c [=].
  - destruct (head_fetch env) as [s|e'] eqn:Hh.
    + unfold checkServiceStatus. rewrite Hg, Hh. cbn [try_catch cbind].
      pose proof (classify_message s (now_after_head env - headStart env)) as [M T].
      pose proof (classify_down s (now_after_head env - headStart env)) as D.
      destruct (classify s (now_after_head env - headStart env)) as [st m] eqn:Ecl.
      cbn [fst snd] in *. intros [= <-]. cbn.
      split; [|split; [|split; [discriminate|]]].
      * rewrite <- M. destruct m as [[|a m]|]; cbn; split; intros; try reflexivity;
          try discriminate.
        destruct T as [T _]. specialize (T eq_refl). discriminate.
      * rewrite D. split.
        -- intros H. right. exists s. auto.
        -- intros [H | (c & [= <-] & H)]; [discriminate | exact H].
      * intros e0 c _ [= <-]. split; [reflexivity|]. rewrite Ecl.
        destruct m as [[|a m]|]; cbn; try reflexivity.
        destruct T as [T _]. specialize (T eq_refl). discriminate.
    + rewrite (checkServiceStatus_fail _ _ _ Hg Hh). intros [= <-]. cbn.
      split; [split; discriminate|]. split; [|split; [reflexivity|]].
      * split; auto.
      * intros e0 c _ [=].
Qed.

(** A 503 answered to the GET. *)
Lemma probe_result_shape_witness :
  status (Samples.result_of (Samples.env_responding 503 20)) = down <->
  status_code (Samples.result_of (Samples.env_responding 503 20)) = None \/
  exists c, status_code (Samples.result_of (Samples.env_responding 503 20)) = Some c /\
            500 <= c.
Proof.
  apply (probe_result_shape (Samples.env_responding 503 20)
           (Samples.result_of (Samples.env_responding 503 20))).
  reflexivity.
Defined.

(** ** Updating and deleting a service *)

Section AdminFacts.



Lemma sql_update_service_ok (sid : Z) (u : ServiceUpdate) (d d' : Db)
    (rows : list Service) :
  sql_update_service sid u d = Normal (rows, d') ->
  rows = map (update_row u) (filter (has_id sid) (services d)) /\
  services d' = map (fun s => if has_id sid s then update_row u s else s) (services d) /\
  status_checks d' = status_checks d /\ incidents d' = incidents d /\
  incident_updates d' = incident_updates d /\
  announcement_reasons d' = announcement_reasons d /\
  incidents_id_seq d' = incidents_id_seq d /\
  services_id_seq d' = services_id_seq d /\
  announcement_reason_templates d' = announcement_reason_templates d.
Proof.
  unfold sql_update_service.
  destruct (existsb _ _); [discriminate|]. destruct (existsb _ _); [discriminate|].
  intros [= <- <-]. repeat split.
Qed.


(** The PUT handler in terms of the statement. *)
Lemma services_id_PUT_eq (sid : Z) (u : ServiceUpdate) (w : World) :
  services_id_PUT (Some sid) u w =
    match sql_update_service sid u (db w) with
    | Normal ([], d') =>
      (Normal (json (ErrorBody "Service not found") 404),
       {| db := d'; trace := (trace w ++ [EvQuery "UPDATE services"])%list |})
    | Normal (row :: _, d') =>
      (Normal (json (ServiceBody row) 200),
       {| db := d'; trace := (trace w ++ [EvQuery "UPDATE services"])%list |})
    | Throw _ =>
      (Normal (json (ErrorBody "Failed to update service") 500),
       {| db := db w; trace := (trace w ++ [EvQuery "UPDATE services"])%list |})
    end.
Proof.
  unfold services_id_PUT, catch, bind, query, ret, log.
  destruct (sql_update_service sid u (db w)) as [[[|row rows] d']|e]; reflexivity.
Qed.


(** X11. Deactivation. After a PUT with [is_active: false] has answered
    200 for a service, no cycle, forced or not, selects a service of that
    id. *)
Theorem deactivated_never_selected (sid : Z) (u : ServiceUpdate) (w w' : World)
    (resp : Response) (request : Request) (now : Z) (s : Service) :
  services_id_PUT (Some sid) u w = (Normal resp, w') ->
  http_status resp = 200 ->
  up_is_active u = Some false ->
  In s (selected request now (db w')) ->
  svc_id s <> sid.
Proof.
  rewrite services_id_PUT_eq.
  destruct (sql_update_service sid u (db w)) as [[rows d']|e] eqn:E;
    [|intros [= <- <-] H; discriminate].
  destruct (sql_update_service_ok _ _ _ _ _ E) as (_ & Hsv & _).
  intros Hr _ Hu Hin Hid.
  assert (Hd : db w' = d') by (destruct rows; injection Hr as _ <-; reflexivity).
  assert (Hact : In s (services (db w')) /\ is_active s = true).
  { unfold selected, sql_active_services, sql_due_services, is_due in Hin.
    destruct (force_requested request); apply filter_In in Hin as [H1 H2];
      [auto|]. apply andb_true_iff in H2 as [H2 _]. auto. }
  destruct Hact as [Hs Ha]. rewrite Hd, Hsv in Hs.
  apply in_map_iff in Hs as (s0 & Hs0 & _).
  destruct (has_id sid s0) eqn:Hh.
  - subst s. unfold update_row in Ha. cbn [is_active] in Ha. rewrite Hu in Ha.
    discriminate.
  - subst s. unfold has_id in Hh. apply Z.eqb_neq in Hh. contradiction.
Qed.

Lemma services_id_DELETE_eq (sid : Z) (w : World) :
  services_id_DELETE (Some sid) w =
    (Normal {| delete_status := 200; delete_body := DeleteSuccess true |},
     {| db := sql_delete_service sid (db w);
        trace := (trace w ++ [EvQuery "DELETE FROM services"])%list |}).
Proof. reflexivity. Qed.


End AdminFacts.

Section AdminInvariants.

Variable cfg : Config.

Lemma step_invariant (P : Db -> Prop) :
  incident_local P ->
  (forall orc now service r, preserves P (reconcile cfg orc now service r)) ->
  (forall sid title descr st sev now d row d',
     P d -> sql_insert_incident sid title descr st sev now d = Normal (row, d') -> P d') ->
  forall w w', step cfg w w' -> P (db w) -> P (db w').
Proof.
  intros Hl Hr Hi w w' Hstep HP. destruct Hstep.
  - apply (preserves_POST _ Hl cfg); auto.
  - apply (preserves_GET _ Hl cfg); auto.
  - apply (preserves_force_GET _ Hl cfg); auto.
  - apply (preserves_services_POST _ Hl); auto.
  - revert HP. unfold incidents_POST. apply preserves_catch;
      [|intros e; apply preserves_ret].
    destruct serviceId as [sid|]; [|apply preserves_ret].
    apply preserves_bind; [|intros row; apply preserves_ret].
    apply preserves_query. intros d a d' H E. eapply Hi; eauto.
Qed.

Lemma PUT_keeps_incident_tables (serviceId : option Z) (u : ServiceUpdate) (w : World) :
  incidents (db (snd (services_id_PUT serviceId u w))) = incidents (db w) /\
  announcement_reasons (db (snd (services_id_PUT serviceId u w))) =
    announcement_reasons (db w) /\
  incidents_id_seq (db (snd (services_id_PUT serviceId u w))) = incidents_id_seq (db w).
Proof.
  destruct serviceId as [sid|]; [|repeat split].
  rewrite services_id_PUT_eq.
  destruct (sql_update_service sid u (db w)) as [[rows d']|e] eqn:E; [|repeat split].
  destruct (sql_update_service_ok _ _ _ _ _ E) as (_ & _ & _ & Hi & _ & Ha & Hq & _).
  destruct rows; cbn [snd db]; auto.
Qed.

Lemma wf_delete_service (sid : Z) (d : Db) : wf d -> wf (sql_delete_service sid d).
Proof.
  intros [[Hseq Hpos] Hr]. split; [split|].
  - exact Hseq.
  - intros i Hin. apply filter_In in Hin as [Hin _]. auto.
  - intros r Hin. cbn in Hin. apply filter_In in Hin as [Hin Hk].
    apply andb_true_iff in Hk as [Hk _]. apply negb_true_iff, Z.eqb_neq in Hk.
    destruct (Hr r Hin) as (i & Hi & Hid & Hsv & Hn). exists i.
    repeat split; auto. cbn. apply filter_In. split; [exact Hi|].
    apply negb_true_iff, Z.eqb_neq. congruence.
Qed.

Lemma keys_delete_service (sid : Z) (d : Db) :
  keys_ok d -> keys_ok (sql_delete_service sid d).
Proof.
  intros (Hd & Hlt & Hr). split; [|split]; cbn.
  - apply NoDup_map_filter. exact Hd.
  - intros i Hin. apply filter_In in Hin as [Hin _]. auto.
  - apply NoDup_map_filter. exact Hr.
Qed.

(** X13. The invariants of the incident tables survive updates and deletions
    of services: in every state reachable through the check cycle, its
    triggers, and the routes that create, update and delete services and
    create incidents, every announcement reason belongs to an unresolved
    incident of its own service, incident ids are distinct and lie between 1
    and the next value of the sequence, and no incident has two reasons. *)
Theorem admin_reachable_invariants (w : World) :
  admin_reachable cfg w ->
  (forall r, In r (announcement_reasons (db w)) ->
     exists i, In i (incidents (db w)) /\ inc_id i = ar_incident_id r /\
               inc_service_id i = ar_service_id r /\ inc_status i <> "resolved") /\
  NoDup (map inc_id (incidents (db w))) /\
  (forall i, In i (incidents (db w)) -> 1 <= inc_id i < incidents_id_seq (db w)) /\
  NoDup (map ar_incident_id (announcement_reasons (db w))).
Proof.
  intros H.
  assert (HP : wf (db w) /\ keys_ok (db w)).
  { induction H as [d Hf | w w' _ IH Hstep].
    - split; [apply wf_fresh; exact Hf|].
      destruct Hf as (_ & Hi & _ & Ha & Hs). unfold keys_ok. cbn [db].
      rewrite Hi, Ha. repeat split; try constructor. intros i [].
    - destruct Hstep as [w' Hs | serviceId u | serviceId].
      + revert IH. apply (step_invariant (fun d => wf d /\ keys_ok d)); [| | |exact Hs].
        * intros d d' Hi Ha Hq [Hw Hk]. split;
            [apply (wf_local d d') | apply (keys_local d d')]; assumption.
        * intros orc now service r w0 [Hw Hk]. split;
            [apply wf_reconcile | apply keys_reconcile]; assumption.
        * intros sid title descr st sev now d row d' [Hw Hk] E. split;
            [eapply wf_insert_incident | eapply keys_insert_incident]; eauto.
      + destruct (PUT_keeps_incident_tables serviceId u w) as (Hi & Ha & Hq).
        destruct IH as [Hw Hk]. split;
          [apply (wf_local (db w)) | apply (keys_local (db w))]; assumption.
      + destruct serviceId as [sid|]; [|exact IH].
        rewrite services_id_DELETE_eq. cbn [snd db]. destruct IH as [Hw Hk].
        split; [apply wf_delete_service | apply keys_delete_service]; assumption. }
  destruct HP as [[[Hseq Hpos] Hr] (Hd & Hlt & Hu)].
  split; [|split; [exact Hd | split; [|exact Hu]]].
  - intros r Hin. destruct (Hr r Hin) as (i & Hi & Hid & Hsv & Hn).
    exists i. repeat split; auto. intros E. unfold not_resolved in Hn.
    rewrite E in Hn. discriminate.
  - intros i Hin. split; [apply Hpos | apply Hlt]; exact Hin.
Qed.

End AdminInvariants.

(** Deactivating the seeded service. *)
Lemma deactivated_never_selected_witness :
  Forall (fun s => svc_id s <> 1)
    (selected (Samples2.bearer "x" (Some "1")) 9000
       (db (snd (services_id_PUT (Some 1)
                   (mkServiceUpdate None None None None (Some false))
                   Samples.w0)))).
Proof.
  apply Forall_forall. intros s.
  eapply (deactivated_never_selected 1
            (mkServiceUpdate None None None None (Some false)) Samples.w0).
  - vm_compute. reflexivity.
  - reflexivity.
  - reflexivity.
Defined.


(** The state after a down cycle, a manual incident and the deletion of the
    service. *)
Lemma admin_reachable_invariants_witness :
  NoDup (map inc_id (incidents (db (snd (services_id_DELETE (Some 1) Samples.w4))))).
Proof.
  apply (admin_reachable_invariants Samples.no_secret).
  apply (admin_next _ Samples.w4); [|apply admin_DELETE].
  apply (admin_next _ Samples.w3).
  - apply (admin_next _ Samples.w0); [apply admin_fresh, fresh_db0|].
    apply admin_engine, step_POST.
  - apply admin_engine, step_incidents_POST.
Defined.

(** ** Creating services and incidents *)






(** ** HTML escaping *)

Section Escaping.

Lemma string_app_assoc (a b c : string) : (a ++ b) ++ c = a ++ (b ++ c).
Proof. induction a as [|x a IH]; simpl; [reflexivity | rewrite IH; reflexivity]. Qed.

Lemma replace_all_app (c : ascii) (r a b : string) :
  replace_all c r (a ++ b) = replace_all c r a ++ replace_all c r b.
Proof.
  induction a as [|x a IH]; simpl; [reflexivity|].
  rewrite IH. destruct (Ascii.eqb x c); [|reflexivity].
  symmetry. apply string_app_assoc.
Qed.

Lemma ascii_cases (P : ascii -> Prop) :
  (forall a, special a = false -> P a) ->
  P amp -> P lt -> P gt -> P dquote -> P squote -> forall a, P a.
Proof.
  intros Hother Ha Hl Hg Hd Hs a. destruct (special a) eqn:E; [|auto].
  unfold special in E. repeat (apply orb_true_iff in E as [E|E]);
    apply Ascii.eqb_eq in E; subst; assumption.
Qed.

(** The five passes amount to one pass that replaces each character. *)
Lemma htmlEscape_cons (a : ascii) (s : string) :
  htmlEscape (String a s) = escape_char a ++ htmlEscape s.
Proof.
  unfold htmlEscape. revert a. apply ascii_cases.
  - intros a Hsp. unfold special in Hsp.
    apply orb_false_iff in Hsp as [Hsp E5]. apply orb_false_iff in Hsp as [Hsp E4].
    apply orb_false_iff in Hsp as [Hsp E3]. apply orb_false_iff in Hsp as [E1 E2].
    unfold escape_char. rewrite E1, E2, E3, E4, E5.
    cbn [replace_all]. rewrite E1. cbn [replace_all]. rewrite E2.
    cbn [replace_all]. rewrite E3. cbn [replace_all]. rewrite E4.
    cbn [replace_all]. rewrite E5. reflexivity.
  - cbn [replace_all]. change (Ascii.eqb amp amp) with true. cbn iota.
    rewrite !replace_all_app. reflexivity.
  - cbn [replace_all]. change (Ascii.eqb lt amp) with false. cbn iota.
    cbn [replace_all]. change (Ascii.eqb lt lt) with true. cbn iota.
    rewrite !replace_all_app. reflexivity.
  - cbn [replace_all]. change (Ascii.eqb gt amp) with false. cbn iota.
    cbn [replace_all]. change (Ascii.eqb gt lt) with false. cbn iota.
    cbn [replace_all]. change (Ascii.eqb gt gt) with true. cbn iota.
    rewrite !replace_all_app. reflexivity.
  - cbn [replace_all]. change (Ascii.eqb dquote amp) with false. cbn iota.
    cbn [replace_all]. change (Ascii.eqb dquote lt) with false. cbn iota.
    cbn [replace_all]. change (Ascii.eqb dquote gt) with false. cbn iota.
    cbn [replace_all]. change (Ascii.eqb dquote dquote) with true. cbn iota.
    rewrite !replace_all_app. reflexivity.
  - cbn [replace_all]. change (Ascii.eqb squote amp) with false. cbn iota.
    cbn [replace_all]. change (Ascii.eqb squote lt) with false. cbn iota.
    cbn [replace_all]. change (Ascii.eqb squote gt) with false. cbn iota.
    cbn [replace_all]. change (Ascii.eqb squote dquote) with false. cbn iota.
    cbn [replace_all]. change (Ascii.eqb squote squote) with true. cbn iota.
    reflexivity.
Qed.

End Escaping.

Section EscapingProperties.

Lemma chars_app (a b : string) : chars (a ++ b) = (chars a ++ chars b)%list.
Proof. induction a as [|x a IH]; simpl; [reflexivity | rewrite IH; reflexivity]. Qed.

Lemma special_values :
  special amp = true /\ special lt = true /\ special gt = true /\
  special dquote = true /\ special squote = true.
Proof. repeat split. Qed.

Lemma escape_char_plain (a : ascii) :
  special a = false -> escape_char a = String a EmptyString.
Proof.
  intros Hsp. unfold special in Hsp.
  apply orb_false_iff in Hsp as [Hsp E5]. apply orb_false_iff in Hsp as [Hsp E4].
  apply orb_false_iff in Hsp as [Hsp E3]. apply orb_false_iff in Hsp as [E1 E2].
  unfold escape_char. rewrite E1, E2, E3, E4, E5. reflexivity.
Qed.

Lemma escape_char_clean (a c : ascii) :
  In c (chars (escape_char a)) ->
  c <> lt /\ c <> gt /\ c <> dquote /\ c <> squote.
Proof.
  pattern a. revert a. apply ascii_cases.
  - intros a Hsp. cbv beta. rewrite (escape_char_plain _ Hsp). intros [<-|[]].
    pose proof special_values as (_ & S1 & S2 & S3 & S4).
    repeat split; intros ->; congruence.
  - cbn. intros H. repeat destruct H as [<-|H]; try destruct H;
      repeat split; discriminate.
  - cbn. intros H. repeat destruct H as [<-|H]; try destruct H;
      repeat split; discriminate.
  - cbn. intros H. repeat destruct H as [<-|H]; try destruct H;
      repeat split; discriminate.
  - cbn. intros H. repeat destruct H as [<-|H]; try destruct H;
      repeat split; discriminate.
  - cbn. intros H. repeat destruct H as [<-|H]; try destruct H;
      repeat split; discriminate.
Qed.

Lemma escape_char_length (a : ascii) : (1 <= String.length (escape_char a))%nat.
Proof.
  pattern a. revert a. apply ascii_cases; try (cbn; lia).
  intros a Hsp. cbv beta. rewrite (escape_char_plain _ Hsp). simpl. lia.
Qed.

(** X16. The escaped text contains none of the characters [<], [>], the
    double quote and the single quote; it is never shorter than the input,
    and a text without any of the five special characters is returned
    unchanged. *)
Theorem htmlEscape_safe (s : string) :
  (forall c, In c (chars (htmlEscape s)) ->
     c <> lt /\ c <> gt /\ c <> dquote /\ c <> squote) /\
  (String.length s <= String.length (htmlEscape s))%nat /\
  ((forall c, In c (chars s) -> special c = false) -> htmlEscape s = s).
Proof.
  induction s as [|a s (IH1 & IH2 & IH3)].
  - repeat split; try reflexivity; destruct H.
  - rewrite htmlEscape_cons. split; [|split].
    + intros c. rewrite chars_app. intros Hin. apply in_app_or in Hin as [H|H].
      * apply (escape_char_clean a c H).
      * apply IH1. exact H.
    + rewrite string_length_append. pose proof (escape_char_length a). simpl. lia.
    + intros Hall. rewrite escape_char_plain by (apply Hall; left; reflexivity).
      simpl. f_equal. apply IH3. intros c Hc. apply Hall. right. exact Hc.
Qed.

Lemma escape_char_inj (x y : ascii) (a b : string) :
  escape_char x ++ a = escape_char y ++ b -> x = y /\ a = b.
Proof.
  pattern x. revert x. apply ascii_cases;
    [intros x Hx; cbv beta; rewrite (escape_char_plain _ Hx)| | | | |];
    pattern y; revert y; apply ascii_cases;
    try (intros y Hy; cbv beta; rewrite (escape_char_plain _ Hy));
    cbn; intros H; try discriminate H;
    try (injection H as <- <-; split; reflexivity);
    try (injection H as -> _; discriminate);
    try (injection H as <-; split; reflexivity).
  all: try (injection H as E _; subst; first [rewrite (proj1 special_values) in *
                                             | idtac]; discriminate).
Qed.

Lemma htmlEscape_same (a b : string) :
  htmlEscape a = htmlEscape b -> a = b.
Proof.
  revert b. induction a as [|x a IH]; intros [|y b].
  - reflexivity.
  - rewrite htmlEscape_cons. intros H. exfalso.
    pose proof (escape_char_length y) as L.
    apply (f_equal String.length) in H. rewrite string_length_append in H.
    simpl in H. lia.
  - rewrite htmlEscape_cons. intros H. exfalso.
    pose proof (escape_char_length x) as L.
    apply (f_equal String.length) in H. rewrite string_length_append in H.
    simpl in H. lia.
  - rewrite !htmlEscape_cons. intros H.
    apply escape_char_inj in H as [-> H]. f_equal. apply IH. exact H.
Qed.

(** X17. Escaping loses nothing: two different texts never have the same
    escaped form. In particular a text that already holds an entity is
    escaped again, not taken as escaped. *)
Theorem htmlEscape_injective (a b : string) :
  a <> b -> htmlEscape a <> htmlEscape b.
Proof. intros Hne E. apply Hne. apply htmlEscape_same. exact E. Qed.

End EscapingProperties.

(** A character and the entity that stands for it. *)
Lemma htmlEscape_injective_witness :
  htmlEscape "<" <> htmlEscape "&lt;".
Proof.
  apply (htmlEscape_injective "<" "&lt;"). discriminate.
Defined.

(** ** Authorization of the report route *)

(** X18. The report route answers 401, without generating anything and
    without touching the database or the trace, unless the Authorization
    header is exactly "Bearer " followed by [CRON_SECRET] or the query
    parameter [secret] equals [CRON_SECRET]. While [CRON_SECRET] is unset no
    query secret is accepted, but the header "Bearer undefined" is: the
    request is then let through to the report generation. *)
Theorem reports_authorization (R : Type) (cfg : Config) (generate : Request -> M R)
    (request : Request) (w : World) :
  (header_authorization request <> Some ("Bearer " ++ env_text (CRON_SECRET cfg)) ->
   (param_secret request = None \/ param_secret request <> CRON_SECRET cfg) ->
   reports_GET cfg generate request w = (Normal ReportUnauthorized, w)) /\
  (CRON_SECRET cfg = None ->
   header_authorization request <> Some "Bearer undefined" ->
   reports_GET cfg generate request w = (Normal ReportUnauthorized, w)) /\
  (CRON_SECRET cfg = None ->
   header_authorization request = Some "Bearer undefined" ->
   reports_GET cfg generate request w =
     catch (content <- generate request ;; ret (ReportOk content))
       (fun _ => ret ReportFailed) w).
Proof.
  assert (Hrej : header_authorization request
                   <> Some ("Bearer " ++ env_text (CRON_SECRET cfg)) ->
                 strict_eq (param_secret request) (CRON_SECRET cfg) = false ->
                 reports_GET cfg generate request w = (Normal ReportUnauthorized, w)).
  { intros Hh Hq. unfold reports_GET, catch, ret. rewrite Hq.
    replace (String.eqb (or_else (header_authorization request) "")
               ("Bearer " ++ env_text (CRON_SECRET cfg))) with false; [reflexivity|].
    symmetry. apply String.eqb_neq. intros E.
    destruct (header_authorization request) as [[|c h]|]; cbn in E;
      try discriminate E. apply Hh. f_equal. exact E. }
  split; [|split].
  - intros Hh Hq. apply Hrej; [exact Hh|].
    destruct Hq as [-> | Hq]; [reflexivity|].
    destruct (param_secret request) as [a|]; [|reflexivity].
    destruct (CRON_SECRET cfg) as [b|]; [|reflexivity]. cbn.
    apply String.eqb_neq. congruence.
  - intros Hc Hh. apply Hrej; rewrite Hc.
    + exact Hh.
    + destruct (param_secret request); reflexivity.
  - intros Hc Hh. unfold reports_GET. rewrite Hc, Hh. reflexivity.
Qed.

(** ** The service list and the scheduler *)

Section DashboardFacts.

Variable sid : Z.

Let fresher (best : option StatusCheck) (c : StatusCheck) : option StatusCheck :=
  if sc_service_id c =? sid then
    match best with
    | None => Some c
    | Some b => if checked_at b <? checked_at c then Some c else Some b
    end
  else best.

Lemma fresher_fold_spec (l : list StatusCheck) :
  forall acc,
    (forall a, acc = Some a -> sc_service_id a = sid) ->
    match fold_left fresher l acc with
    | None => acc = None /\ forall c, In c l -> sc_service_id c <> sid
    | Some b =>
      (acc = Some b \/ In b l) /\ sc_service_id b = sid /\
      (forall c, In c l -> sc_service_id c = sid -> checked_at c <= checked_at b) /\
      (forall a, acc = Some a -> checked_at a <= checked_at b)
    end.
Proof.
  induction l as [|c l IH]; intros acc Hacc; simpl.
  - destruct acc as [a|].
    + repeat split; auto. intros c []. intros a' [= <-]. lia.
    + split; [reflexivity | intros c []].
  - assert (Hnext : forall a, fresher acc c = Some a -> sc_service_id a = sid).
    { unfold fresher. destruct (Z.eqb_spec (sc_service_id c) sid) as [E|E];
        [|exact Hacc].
      destruct acc as [b|]; [destruct (checked_at b <? checked_at c)|];
        intros a [= <-]; auto. }
    specialize (IH (fresher acc c) Hnext).
    destruct (fold_left fresher l (fresher acc c)) as [b|].
    + destruct IH as (Hsrc & Hs & Hmax & Hge). unfold fresher in Hsrc, Hge.
      destruct (Z.eqb_spec (sc_service_id c) sid) as [E|E].
      * assert (Hc : checked_at c <= checked_at b).
        { destruct acc as [a|]; [destruct (Z.ltb_spec (checked_at a) (checked_at c))|];
            specialize (Hge _ eq_refl); lia. }
        assert (Ha : forall a, acc = Some a -> checked_at a <= checked_at b).
        { intros a ->. destruct (Z.ltb_spec (checked_at a) (checked_at c));
            specialize (Hge _ eq_refl); lia. }
        split; [|split; [exact Hs | split; [|exact Ha]]].
        -- destruct Hsrc as [H0|H0]; [|right; right; exact H0].
           destruct acc as [a|];
             [destruct (checked_at a <? checked_at c)|]; injection H0 as <-;
             first [left; reflexivity | right; left; reflexivity].
        -- intros c' [<-|Hin] Hc'; [exact Hc | auto].
      * split; [|split; [exact Hs | split; [|exact Hge]]].
        -- destruct Hsrc as [H0|H0]; [left; exact H0 | right; right; exact H0].
        -- intros c' [<-|Hin] Hc'; [contradiction | auto].
    + destruct IH as (Hnone & Hall). unfold fresher in Hnone.
      destruct (Z.eqb_spec (sc_service_id c) sid) as [E|E].
      * destruct acc as [a|]; [destruct (checked_at a <? checked_at c)|]; discriminate.
      * split; [exact Hnone|]. intros c' [<-|Hin]; auto.
Qed.

Lemma latest_check_spec (d : Db) :
  match latest_check d sid with
  | None => forall c, In c (status_checks d) -> sc_service_id c <> sid
  | Some b =>
    In b (status_checks d) /\ sc_service_id b = sid /\
    forall c, In c (status_checks d) -> sc_service_id c = sid ->
              checked_at c <= checked_at b
  end.
Proof.
  unfold latest_check. fold fresher.
  pose proof (fresher_fold_spec (status_checks d) None) as H.
  destruct (fold_left fresher (status_checks d) None) as [b|].
  - destruct H as ([[=]|Hin] & Hs & Hmax & _); [discriminate|]. auto.
  - destruct H as [_ H]; [discriminate|]. exact H.
Qed.

End DashboardFacts.

(** X19. The [last_checked] column of the service list is the time the
    scheduler compares with the check interval: both are the greatest
    [checked_at] among the checks of the service. The status shown is that
    of a check with this time, and a service without checks is shown as
    'unknown' with no [last_checked]. *)
Theorem dashboard_agrees_with_scheduler (d : Db) (sid : Z) :
  last_checked d sid = last_check d sid /\
  ((forall c, In c (status_checks d) -> sc_service_id c <> sid) ->
   current_status d sid = "unknown" /\ last_checked d sid = None) /\
  ((exists c, In c (status_checks d) /\ sc_service_id c = sid) ->
   exists c, In c (status_checks d) /\ sc_service_id c = sid /\
             current_status d sid = sc_status c /\
             last_checked d sid = Some (checked_at c) /\
             forall c', In c' (status_checks d) -> sc_service_id c' = sid ->
                        checked_at c' <= checked_at c).
Proof.
  pose proof (latest_check_spec sid d) as H.
  unfold last_checked, current_status.
  destruct (latest_check d sid) as [b|] eqn:L.
  - destruct H as (Hin & Hs & Hmax). split; [|split].
    + symmetry. apply last_check_some. exists b. auto.
    + intros Hnone. elim (Hnone b Hin Hs).
    + intros _. exists b. repeat split; auto.
  - split; [|split].
    + symmetry. apply last_check_none. exact H.
    + intros _. split; reflexivity.
    + intros (c & Hin & Hs). elim (H c Hin Hs).
Qed.

Lemma NoDup_map_inj {A B} (f : A -> B) (l : list A) (a b : A) :
  NoDup (map f l) -> In a l -> In b l -> f a = f b -> a = b.
Proof.
  induction l as [|x l IH]; simpl; intros Hnd Ha Hb E; [destruct Ha|].
  inversion Hnd as [|y ys Hn Hd]; subst.
  destruct Ha as [<-|Ha], Hb as [<-|Hb]; auto.
  - exfalso. apply Hn. rewrite E. apply in_map. exact Hb.
  - exfalso. apply Hn. rewrite <- E. apply in_map. exact Ha.
Qed.

Lemma selected_in_services (request : Request) (now : Z) (d : Db) (s : Service) :
  In s (selected request now d) -> In s (services d).
Proof.
  unfold selected, sql_active_services, sql_due_services.
  destruct (force_requested request); intros H; apply filter_In in H as [H _]; exact H.
Qed.

(** X20. After a cycle that answers 200, run at a time later than every
    stored check, the service list shows for each probed service the status
    this cycle found and [now] as its last check (service ids being
    distinct, as the primary key requires). *)
Theorem dashboard_after_cycle (cfg : Config) (orc : Oracle) (now : Z)
    (request : Request) (w w' : World) (resp : Response) (s : Service) :
  POST cfg orc now request w = (Normal resp, w') ->
  http_status resp = 200 ->
  NoDup (map svc_id (services (db w))) ->
  (forall c, In c (status_checks (db w)) -> checked_at c < now) ->
  In s (selected request now (db w)) ->
  current_status (db w') (svc_id s) = status_text (status (probed orc s)) /\
  last_checked (db w') (svc_id s) = Some now.
Proof.
  intros H Hs Hnd Hold Hin.
  destruct (cycle_report _ _ _ _ _ _ _ H Hs) as [_ Hc].
  destruct (cycle_retention _ _ _ _ _ _ _ H Hs) as (_ & _ & Hnew).
  specialize (Hnew s Hin).
  pose proof (latest_check_spec (svc_id s) (db w')) as L.
  unfold current_status, last_checked.
  destruct (latest_check (db w') (svc_id s)) as [b|].
  - destruct L as (Hb & Hbs & Hmax).
    specialize (Hmax _ Hnew eq_refl). cbn [checked_at history_row] in Hmax.
    rewrite Hc in Hb. apply filter_In in Hb as [Hb _].
    apply in_app_or in Hb as [Hb|Hb].
    + specialize (Hold b Hb). lia.
    + apply in_map_iff in Hb as (s' & <- & Hs').
      assert (s' = s).
      { apply (NoDup_map_inj svc_id (services (db w))); auto;
          eapply selected_in_services; eauto. }
      subst s'. split; reflexivity.
  - elim (L _ Hnew). reflexivity.
Qed.

(** The seeded service after the cycle that found it down. *)
Lemma dashboard_after_cycle_witness :
  exists resp w',
    POST Samples.no_secret Samples.all_down 7000 Samples.anonymous Samples.w0
      = (Normal resp, w') /\
    current_status (db w') 1 = "down".
Proof.
  eexists. eexists. split; [vm_compute; reflexivity|].
  eapply (dashboard_after_cycle Samples.no_secret Samples.all_down 7000
            Samples.anonymous Samples.w0 _ _ Samples.library).
  - vm_compute. reflexivity.
  - reflexivity.
  - vm_compute. repeat constructor. intros [].
  - intros c [].
  - left. reflexivity.
Defined.

(** ** Incidents after a whole cycle *)

Section CycleIncidents.

Variable cfg : Config.
Variable orc : Oracle.
Variable now : Z.

Lemma reconcile_frame (service : Service) (r : ProbeResult) (w : World) (sid : Z) :
  sid <> svc_id service ->
  active_count (db (snd (reconcile cfg orc now service r w))) sid =
    active_count (db w) sid.
Proof.
  intros Hne. unfold reconcile. destruct (status r).
  - rewrite count_reconcile_operational.
    destruct (Z.eqb_spec sid (svc_id service)); [contradiction | reflexivity].
  - reflexivity.
  - rewrite reconcile_down_db. destruct (truthy_id _); [reflexivity|].
    destruct (sql_insert_incident _ _ _ _ _ _ _) as [[row d1]|e] eqn:E; [|reflexivity].
    destruct (sql_insert_incident_ok _ _ _ _ _ _ _ _ _ E) as (Hi & _ & Hsv & _).
    destruct (pick_reason _ _) as [c t].
    destruct (sql_insert_reason_tables (inc_id row) (svc_id service) c t d1) as (Ti & _).
    transitivity (active_count d1 sid); [unfold active_count; rewrite Ti; reflexivity|].
    rewrite (active_count_app _ _ _ _ Hi). unfold active_for. rewrite Hsv.
    destruct (Z.eqb_spec (svc_id service) sid); [congruence|]. simpl. lia.
Qed.

(** The count of the reconciled service itself, when the step completes. *)
Lemma reconcile_own_count (service : Service) (r : ProbeResult) (w : World) :
  ids_wf (db w) ->
  fst (reconcile cfg orc now service r w) = Normal tt ->
  match status r with
  | operational =>
    active_count (db (snd (reconcile cfg orc now service r w))) (svc_id service) = 0%nat
  | down =>
    (1 <= active_count (db (snd (reconcile cfg orc now service r w))) (svc_id service))%nat
  | degraded =>
    active_count (db (snd (reconcile cfg orc now service r w))) (svc_id service) =
      active_count (db w) (svc_id service)
  end.
Proof.
  intros Hwf. unfold reconcile. destruct (status r).
  - intros _. rewrite count_reconcile_operational, Z.eqb_refl. reflexivity.
  - reflexivity.
  - rewrite reconcile_down_fst, reconcile_down_db.
    rewrite (active_lookup_truthy _ _ Hwf).
    destruct (Nat.eqb_spec (active_count (db w) (svc_id service)) 0) as [Hz|Hz];
      cbn [negb]; [|intros _; lia].
    destruct (sql_insert_incident _ _ _ _ _ _ _) as [[row d1]|e] eqn:E; [|discriminate].
    intros _.
    destruct (sql_insert_incident_ok _ _ _ _ _ _ _ _ _ E) as (Hi & _ & Hsv & Hst & _).
    destruct (pick_reason _ _) as [c t].
    destruct (sql_insert_reason_tables (inc_id row) (svc_id service) c t d1) as (Ti & _).
    unfold active_count at 1. rewrite Ti. fold (active_count d1 (svc_id service)).
    rewrite (active_count_app _ _ _ _ Hi). unfold active_for, not_resolved.
    rewrite Hsv, Hst, Z.eqb_refl. simpl. lia.
Qed.

Lemma run_workers_counts (svcs : list Service) :
  forall acc w acc' w',
    wf (db w) ->
    NoDup (map svc_id svcs) ->
    run_workers cfg orc now svcs acc w = (Normal acc', w') ->
    (forall s, In s svcs ->
       match status (probed orc s) with
       | operational => active_count (db w') (svc_id s) = 0%nat
       | down => (1 <= active_count (db w') (svc_id s))%nat
       | degraded => active_count (db w') (svc_id s) = active_count (db w) (svc_id s)
       end) /\
    (forall sid, ~ In sid (map svc_id svcs) ->
       active_count (db w') sid = active_count (db w) sid).
Proof.
  induction svcs as [|s l IH]; intros acc w acc' w' Hwf Hnd.
  - simpl. intros [= _ <-]. split; [intros s [] | reflexivity].
  - cbn [run_workers]. unfold bind. rewrite worker_step_eq.
    pose proof (wf_reconcile cfg orc now s (probed orc s)
                  (log (EvProbe (svc_url s)) w) Hwf) as Hwf1.
    pose proof (reconcile_own_count s (probed orc s) (log (EvProbe (svc_url s)) w)
                  (proj1 Hwf)) as Hown.
    pose proof (fun sid => reconcile_frame s (probed orc s)
                             (log (EvProbe (svc_url s)) w) sid) as Hframe.
    destruct (reconcile cfg orc now s (probed orc s) (log (EvProbe (svc_url s)) w))
      as [[[]|e] w1]; cbn [fst snd] in *; [|discriminate].
    specialize (Hown eq_refl). intros Hrun.
    inversion Hnd as [|x xs Hnotin Hnd']; subst.
    destruct (IH _ _ _ _ Hwf1 Hnd' Hrun) as [Hl Hfr].
    cbn [log db] in *. split.
    + intros s' [<-|Hin].
      * rewrite (Hfr _ Hnotin). exact Hown.
      * specialize (Hl s' Hin). destruct (status (probed orc s')); auto.
        rewrite Hl. apply Hframe. intros E. apply Hnotin. rewrite <- E.
        apply in_map. exact Hin.
    + intros sid Hn. rewrite Hfr by (intros H; apply Hn; right; exact H).
      apply Hframe. intros E. apply Hn. left. symmetry. exact E.
Qed.

(** A cycle that answers 200 has run the worker pool to completion, and the
    incidents are as the pool left them. *)
Lemma POST_200_workers (request : Request) (w w' : World) (resp : Response) :
  POST cfg orc now request w = (Normal resp, w') ->
  http_status resp = 200 ->
  exists w1 acc w2,
    db w1 = db w /\
    run_workers cfg orc now (selected request now (db w))
      {| results := []; collected := [] |} w1 = (Normal acc, w2) /\
    incidents (db w') = incidents (db w2).
Proof.
  unfold POST, catch.
  destruct (truthy (CRON_SECRET cfg) && _).
  { unfold ret. intros [= <- <-]. discriminate. }
  fold (force_requested request). unfold bind at 1.
  destruct (services_query_selected now request w) as (w1 & -> & Hw1).
  unfold bind at 1.
  destruct (run_workers cfg orc now (selected request now (db w))
              {| results := []; collected := [] |} w1) as [[acc|e] w2] eqn:R.
  - intros Hr _. exists w1, acc, w2. split; [exact Hw1|]. split; [exact R|].
    revert Hr. unfold bind, query_write, query, ret, log.
    destruct (0 <? _)%nat; cbn; intros [= _ <-]; reflexivity.
  - unfold ret. intros [= <- <-]. discriminate.
Qed.

End CycleIncidents.

(** X21. After a cycle that answers 200, started in a reachable state with
    distinct service ids: every probed service found operational has no
    unresolved incident, every one found down has at least one, every one
    found degraded has as many as before, and the services that were not
    probed have as many as before. *)
Theorem cycle_settles_incidents (cfg : Config) (orc : Oracle) (now : Z)
    (request : Request) (w w' : World) (resp : Response) :
  reachable cfg w ->
  NoDup (map svc_id (services (db w))) ->
  POST cfg orc now request w = (Normal resp, w') ->
  http_status resp = 200 ->
  (forall s, In s (selected request now (db w)) ->
     (status (probed orc s) = operational -> active_count (db w') (svc_id s) = 0%nat) /\
     (status (probed orc s) = down -> (1 <= active_count (db w') (svc_id s))%nat) /\
     (status (probed orc s) = degraded ->
        active_count (db w') (svc_id s) = active_count (db w) (svc_id s))) /\
  (forall sid, (forall s, In s (selected request now (db w)) -> svc_id s <> sid) ->
     active_count (db w') sid = active_count (db w) sid).
Proof.
  intros Hreach Hnd H Hs.
  destruct (POST_200_workers cfg orc now request w w' resp H Hs)
    as (w1 & acc & w2 & Hw1 & Hrun & Hinc).
  assert (Hsel : NoDup (map svc_id (selected request now (db w)))).
  { unfold selected, sql_active_services, sql_due_services.
    destruct (force_requested request); apply NoDup_map_filter; exact Hnd. }
  assert (Hwf : wf (db w1)) by (rewrite Hw1; apply (reachable_wf _ _ Hreach)).
  destruct (run_workers_counts cfg orc now _ _ _ _ _ Hwf Hsel Hrun) as [Hl Hfr].
  assert (Hcount : forall sid, active_count (db w') sid = active_count (db w2) sid)
    by (intros sid; unfold active_count; rewrite Hinc; reflexivity).
  unfold active_count in Hl, Hfr. rewrite Hw1 in Hl, Hfr.
  fold (active_count (db w)) in Hl, Hfr.
  split.
  - intros s Hin. specialize (Hl s Hin). rewrite !Hcount. unfold active_count at 1 2 3.
    destruct (status (probed orc s)); repeat split; intros; try discriminate; auto.
  - intros sid Hn. rewrite Hcount. apply Hfr. intros Hin.
    apply in_map_iff in Hin as (s & E & Hin). exact (Hn s Hin E).
Qed.

(** The cycle that finds the seeded service up while two incidents are
    open. *)
Lemma cycle_settles_incidents_witness :
  exists resp w',
    POST Samples.no_secret Samples.all_up 8000000000 Samples.anonymous Samples.w4
      = (Normal resp, w') /\
    active_count (db w') 1 = 0%nat.
Proof.
  assert (H : POST Samples.no_secret Samples.all_up 8000000000 Samples.anonymous
                Samples.w4 =
              (Normal {| http_status := 200;
                         body := CheckBody true 1
                                   [{| re_service := "Library System";
                                       re_status := "operational";
                                       re_response_time := Some 50 |}] |},
               snd (POST Samples.no_secret Samples.all_up 8000000000 Samples.anonymous
                      Samples.w4)))
    by (vm_compute; reflexivity).
  assert (Hnd : NoDup (map svc_id (services (db Samples.w4))))
    by (vm_compute; repeat constructor; intros []).
  destruct (cycle_settles_incidents _ _ _ _ _ _ _ reachable_w4 Hnd H eq_refl)
    as [Hl _].
  eexists. eexists. split; [exact H|].
  apply (Hl Samples.library); [vm_compute; left; reflexivity | reflexivity].
Defined.

(** ** Sorting *)

Section Sorting.

Context {A : Type}.
Variable leb : A -> A -> bool.

Lemma insert_by_perm (x : A) (l : list A) : Permutation (insert_by leb x l) (x :: l).
Proof.
  induction l as [|y l IH]; simpl; [apply Permutation_refl|].
  destruct (leb x y); [apply Permutation_refl|].
  apply perm_trans with (y :: x :: l); [apply perm_skip; exact IH | apply perm_swap].
Qed.

Lemma sort_by_perm (l : list A) : Permutation (sort_by leb l) l.
Proof.
  induction l as [|x l IH]; simpl; [apply perm_nil|].
  apply perm_trans with (x :: sort_by leb l);
    [apply insert_by_perm | apply perm_skip; exact IH].
Qed.

Lemma sort_by_In (l : list A) (x : A) : In x (sort_by leb l) <-> In x l.
Proof.
  split; apply Permutation_in; [|apply Permutation_sym]; apply sort_by_perm.
Qed.

Hypothesis leb_total : forall a b, leb a b = true \/ leb b a = true.
Hypothesis leb_trans : forall a b c, leb a b = true -> leb b c = true -> leb a c = true.

Lemma insert_by_sorted (x : A) (l : list A) :
  StronglySorted (fun a b => leb a b = true) l ->
  StronglySorted (fun a b => leb a b = true) (insert_by leb x l).
Proof.
  induction l as [|y l IH]; simpl; intros Hs.
  - constructor; constructor.
  - inversion Hs as [|y' l' Hs' Hall]; subst.
    destruct (leb x y) eqn:E.
    + constructor; [exact Hs|]. constructor; [exact E|].
      eapply Forall_impl; [|exact Hall]. intros a Ha. eapply leb_trans; eauto.
    + constructor; [apply IH; exact Hs'|].
      assert (Hyx : leb y x = true) by (destruct (leb_total x y); congruence).
      apply (Permutation_Forall (Permutation_sym (insert_by_perm x l))).
      constructor; assumption.
Qed.

Lemma sort_by_sorted (l : list A) :
  StronglySorted (fun a b => leb a b = true) (sort_by leb l).
Proof.
  induction l as [|x l IH]; simpl; [constructor | apply insert_by_sorted; exact IH].
Qed.

End Sorting.

(** ** Daily uptime *)

Section DailyUptime.

Import Uptime.

Variable iso_date : Z -> string.
Variable date_leb : string -> string -> bool.
Variable F : Type.
Variable zero : F.
Variable percent : nat -> nat -> F.
Variable average : Z -> nat -> F.

Let day_of (c : StatusCheck) : string := iso_date (checked_at c).
Let on (k : string) (c : StatusCheck) : bool := String.eqb (day_of c) k.
Let ok_on (k : string) (c : StatusCheck) : bool :=
  on k c && String.eqb (sc_status c) "operational".

Lemma map_update_keys (k : string) (f : DayAcc -> DayAcc) (m : list (string * DayAcc)) :
  map fst (map_update k f m) =
    if in_dec string_dec k (map fst m) then map fst m else (map fst m ++ [k])%list.
Proof.
  induction m as [|[k0 v0] m IH]; simpl; [reflexivity|].
  destruct (String.eqb_spec k0 k) as [->|Hne]; simpl.
  - destruct (string_dec k k); [reflexivity | contradiction].
  - rewrite IH. destruct (string_dec k0 k); [contradiction|].
    destruct (in_dec string_dec k (map fst m)); reflexivity.
Qed.

Lemma map_update_In (k : string) (f : DayAcc -> DayAcc) (m : list (string * DayAcc))
    (k' : string) (v' : DayAcc) :
  NoDup (map fst m) ->
  In (k', v') (map_update k f m) ->
  (k' <> k /\ In (k', v') m) \/
  (k' = k /\ exists v, v' = f v /\
     (In (k, v) m \/ (v = empty_day /\ ~ In k (map fst m)))).
Proof.
  induction m as [|[k0 v0] m IH]; simpl; intros Hnd Hin.
  - destruct Hin as [[= <- <-]|[]]. right. split; [reflexivity|].
    exists empty_day. split; [reflexivity|]. right. split; [reflexivity | tauto].
  - inversion Hnd as [|x xs Hn Hd]; subst.
    destruct (String.eqb_spec k0 k) as [->|Hne].
    + destruct Hin as [[= <- <-]|Hin].
      * right. split; [reflexivity|]. exists v0. split; [reflexivity|]. left. left.
        reflexivity.
      * left. split; [|right; exact Hin]. intros ->. apply Hn.
        change k with (fst (k, v')). apply in_map. exact Hin.
    + destruct Hin as [[= <- <-]|Hin].
      * left. split; [exact Hne | left; reflexivity].
      * destruct (IH Hd Hin) as [[H1 H2] | (H1 & v & Hv & [H2 | [H2 H3]])].
        -- left. split; [exact H1 | right; exact H2].
        -- right. split; [exact H1|]. exists v. split; [exact Hv|]. left. right.
           exact H2.
        -- right. split; [exact H1|]. exists v. split; [exact Hv|]. right.
           split; [exact H2|]. intros [E|E]; [congruence | contradiction].
Qed.

Lemma map_update_sum (c : StatusCheck) (k : string) (m : list (string * DayAcc)) :
  sum_total (map_update k (bump c) m) = S (sum_total m).
Proof.
  induction m as [|[k0 v0] m IH]; simpl; [reflexivity|].
  destruct (String.eqb k0 k); simpl; [reflexivity | rewrite IH; lia].
Qed.

(** What [dailyMap] holds once the checks [seen] have been processed. *)
Let day_inv (m : list (string * DayAcc)) (seen : list StatusCheck) : Prop :=
  NoDup (map fst m) /\
  (forall k v, In (k, v) m ->
     total v = List.length (filter (on k) seen) /\
     successful v = List.length (filter (ok_on k) seen) /\
     (1 <= total v)%nat) /\
  (forall c, In c seen -> In (day_of c) (map fst m)) /\
  sum_total m = List.length seen.

Lemma day_inv_step (m : list (string * DayAcc)) (seen : list StatusCheck)
    (c : StatusCheck) :
  day_inv m seen ->
  day_inv (map_update (day_of c) (bump c) m) (seen ++ [c]).
Proof.
  intros (Hnd & Hcnt & Hkeys & Hsum).
  assert (Hk' : map fst (map_update (day_of c) (bump c) m) =
                if in_dec string_dec (day_of c) (map fst m) then map fst m
                else (map fst m ++ [day_of c])%list) by apply map_update_keys.
  split; [|split; [|split]].
  - rewrite Hk'. destruct (in_dec string_dec (day_of c) (map fst m)) as [Hin|Hn];
      [exact Hnd|].
    apply NoDup_app; [exact Hnd | repeat constructor; intros [] |].
    intros x Hx [<-|[]]. contradiction.
  - intros k v Hin. rewrite !filter_app, !length_app. cbn [filter].
    destruct (map_update_In _ _ _ _ _ Hnd Hin)
      as [[Hne Hm] | (-> & v0 & -> & [Hm | [-> Hn]])].
    + destruct (Hcnt k v Hm) as (H1 & H2 & H3).
      assert (E : on k c = false)
        by (unfold on; apply String.eqb_neq; intros E; apply Hne; symmetry; exact E).
      assert (E2 : ok_on k c = false) by (unfold ok_on; rewrite E; reflexivity).
      rewrite E, E2. simpl. lia.
    + destruct (Hcnt _ _ Hm) as (H1 & H2 & H3).
      assert (E : on (day_of c) c = true) by (unfold on; apply String.eqb_refl).
      assert (E2 : ok_on (day_of c) c = String.eqb (sc_status c) "operational")
        by (unfold ok_on; rewrite E; reflexivity).
      rewrite E, E2. unfold bump. cbn [total successful].
      destruct (String.eqb (sc_status c) "operational"); simpl; lia.
    + assert (Hz : filter (on (day_of c)) seen = []).
      { apply filter_none. intros x Hx. unfold on. apply String.eqb_neq. intros E.
        apply Hn. rewrite <- E. apply Hkeys. exact Hx. }
      assert (Hz' : filter (ok_on (day_of c)) seen = []).
      { apply filter_none. intros x Hx. unfold ok_on.
        assert (on (day_of c) x = false).
        { destruct (on (day_of c) x) eqn:O; [|reflexivity].
          assert (In x (filter (on (day_of c)) seen)) by (apply filter_In; auto).
          rewrite Hz in H. destruct H. }
        rewrite H. reflexivity. }
      rewrite Hz, Hz'.
      assert (E : on (day_of c) c = true) by (unfold on; apply String.eqb_refl).
      assert (E2 : ok_on (day_of c) c = String.eqb (sc_status c) "operational")
        by (unfold ok_on; rewrite E; reflexivity).
      rewrite E, E2. unfold bump, empty_day. cbn [total successful].
      destruct (String.eqb (sc_status c) "operational"); simpl; lia.
  - intros x Hx. rewrite Hk'. apply in_app_or in Hx as [Hx|[<-|[]]].
    + specialize (Hkeys x Hx).
      destruct (in_dec string_dec (day_of c) (map fst m)); [exact Hkeys|].
      apply in_or_app. left. exact Hkeys.
    + destruct (in_dec string_dec (day_of c) (map fst m)) as [Hin|Hn]; [exact Hin|].
      apply in_or_app. right. left. reflexivity.
  - rewrite map_update_sum, Hsum, length_app. simpl. lia.
Qed.

Lemma dailyMap_inv (checks : list StatusCheck) :
  day_inv (dailyMap iso_date checks) checks.
Proof.
  unfold dailyMap.
  assert (G : forall rest m seen, day_inv m seen ->
            day_inv (fold_left (fun m check =>
                       map_update (iso_date (checked_at check)) (bump check) m) rest m)
                    (seen ++ rest)).
  { induction rest as [|c rest IH]; intros m seen Hinv; simpl.
    - rewrite app_nil_r. exact Hinv.
    - replace (seen ++ c :: rest)%list with ((seen ++ [c]) ++ rest)%list
        by (rewrite <- app_assoc; reflexivity).
      apply IH. apply (day_inv_step m seen c Hinv). }
  apply (G checks [] []). split; [constructor|]. split; [intros k v []|].
  split; [intros c [] | reflexivity].
Qed.

Lemma sum_total_entries (m : list (string * DayAcc)) :
  list_sum (map (fun e => total_checks F e)
              (map (day_entry F zero percent average) m)) = sum_total m.
Proof.
  induction m as [|[k v] m IH]; simpl; [reflexivity | rewrite IH; reflexivity].
Qed.

(** X22. The daily rollup. Whatever the date rendering, the collation and
    the floating-point rounding are: the result has one entry per day on
    which there is a check and none for other days; the entry of a day
    counts exactly the checks of that day and, among them, the operational
    ones, so it has at least one check and never more successes than
    checks; the counts of all days add up to the number of checks; and the
    entries come out ordered by date when the comparison is a total
    order. *)
Theorem daily_uptime_counts (checks : list StatusCheck) :
  let result := calculateDailyUptime iso_date date_leb F zero percent average checks in
  NoDup (map (date F) result) /\
  (forall d, In d (map (date F) result) <->
             exists c, In c checks /\ iso_date (checked_at c) = d) /\
  (forall e, In e result ->
     total_checks F e =
       List.length (filter (fun c => String.eqb (iso_date (checked_at c)) (date F e))
                      checks) /\
     successful_checks F e =
       List.length
         (filter (fun c => String.eqb (iso_date (checked_at c)) (date F e) &&
                           String.eqb (sc_status c) "operational") checks) /\
     (1 <= total_checks F e)%nat /\
     (successful_checks F e <= total_checks F e)%nat) /\
  list_sum (map (total_checks F) result) = List.length checks /\
  ((forall a b, date_leb a b = true \/ date_leb b a = true) ->
   (forall a b c, date_leb a b = true -> date_leb b c = true -> date_leb a c = true) ->
   StronglySorted (fun a b => date_leb (date F a) (date F b) = true) result).
Proof.
  intros result. subst result. unfold calculateDailyUptime.
  destruct (dailyMap_inv checks) as (Hnd & Hcnt & Hkeys & Hsum).
  set (m := dailyMap iso_date checks) in *.
  set (entries := map (day_entry F zero percent average) m).
  set (cmp := fun a b : UptimeData F => date_leb (date F a) (date F b)).
  assert (Hperm : Permutation (sort_by cmp entries) entries) by apply sort_by_perm.
  assert (Hdates : map (date F) entries = map fst m).
  { unfold entries. rewrite map_map. apply map_ext. intros [k v]. reflexivity. }
  assert (Hentry : forall e, In e entries ->
            exists v, In (date F e, v) m /\ total_checks F e = total v /\
                      successful_checks F e = successful v).
  { intros e He. apply in_map_iff in He as ([k v] & <- & Hin). exists v. auto. }
  split; [|split; [|split; [|split]]].
  - apply (Permutation_NoDup (Permutation_sym (Permutation_map (date F) Hperm))).
    rewrite Hdates. exact Hnd.
  - intros d. split.
    + intros Hin.
      apply (Permutation_in _ (Permutation_map (date F) Hperm)) in Hin.
      rewrite Hdates in Hin. apply in_map_iff in Hin as ([k v] & <- & Hin).
      destruct (Hcnt k v Hin) as (H1 & _ & H3). cbn [fst].
      destruct (filter (on k) checks) as [|c l] eqn:E; [simpl in H1; lia|].
      assert (Hc : In c (filter (on k) checks)) by (rewrite E; left; reflexivity).
      apply filter_In in Hc as [Hc Ho]. exists c. split; [exact Hc|].
      apply String.eqb_eq. exact Ho.
    + intros (c & Hc & <-).
      apply (Permutation_in _ (Permutation_sym (Permutation_map (date F) Hperm))).
      rewrite Hdates. apply (Hkeys c Hc).
  - intros e He. apply (Permutation_in _ Hperm) in He.
    destruct (Hentry e He) as (v & Hin & -> & ->).
    destruct (Hcnt _ _ Hin) as (H1 & H2 & H3). repeat split; auto.
    rewrite H1, H2. clear. induction checks as [|c l IH]; simpl; [lia|].
    unfold ok_on, on, day_of in *.
    destruct (String.eqb (iso_date (checked_at c)) (date F e)); simpl;
      [destruct (String.eqb (sc_status c) "operational"); simpl; lia | lia].
  - rewrite (Permutation_list_sum (Permutation_map (total_checks F) Hperm)). 
    unfold entries. rewrite sum_total_entries. exact Hsum.
  - intros Htot Htrans. apply sort_by_sorted.
    + intros a b. apply Htot.
    + intros a b c. apply Htrans.
Qed.

End DailyUptime.

(** ** The incident timeline *)

Section TimelineFacts.

Lemma StronglySorted_weaken {A} (R S : A -> A -> Prop) (l : list A) :
  (forall a b, R a b -> S a b) -> StronglySorted R l -> StronglySorted S l.
Proof.
  intros Himp. induction 1 as [|a l Hs IH Hall]; constructor; [exact IH|].
  eapply Forall_impl; [|exact Hall]. intros b. apply Himp.
Qed.


Lemma created_desc_total (a b : IncidentUpdate) :
  (iu_created_at b <=? iu_created_at a) = true \/
  (iu_created_at a <=? iu_created_at b) = true.
Proof. rewrite !Z.leb_le. lia. Qed.

Lemma updates_of_spec (d : Db) (i : Incident) :
  (updates_of d i = None <->
     forall u, In u (incident_updates d) -> iu_incident_id u <> inc_id i) /\
  (forall us, updates_of d i = Some us ->
     (forall u, In u us <-> In u (incident_updates d) /\ iu_incident_id u = inc_id i) /\
     StronglySorted (fun a b => iu_created_at b <= iu_created_at a) us).
Proof.
  unfold updates_of.
  destruct (filter (fun x => iu_incident_id x =? inc_id i) (incident_updates d))
    as [|u0 l] eqn:E.
  - split.
    + split; [|reflexivity]. intros _ u Hu Hid.
      assert (In u (filter (fun x => iu_incident_id x =? inc_id i) (incident_updates d)))
        by (apply filter_In; split; [exact Hu | apply Z.eqb_eq; exact Hid]).
      rewrite E in H. destruct H.
    + intros us [=].
  - split.
    + split; [discriminate|]. intros Hnone. exfalso.
      assert (Hin : In u0 (filter (fun x => iu_incident_id x =? inc_id i)
                             (incident_updates d))) by (rewrite E; left; reflexivity).
      apply filter_In in Hin as [Hin Hid]. apply Z.eqb_eq in Hid.
      exact (Hnone u0 Hin Hid).
    + intros us H.
      assert (Hus : us = sort_by (fun a b => iu_created_at b <=? iu_created_at a)
                           (u0 :: l)) by (injection H as <-; reflexivity).
      rewrite Hus, <- E. split.
      * intros u. rewrite sort_by_In, filter_In, Z.eqb_eq. reflexivity.
      * eapply StronglySorted_weaken; [|apply sort_by_sorted].
        -- intros a b H0. apply Z.leb_le. exact H0.
        -- intros a b. apply created_desc_total.
        -- intros a b c H1 H2. apply Z.leb_le. apply Z.leb_le in H1, H2. lia.
Qed.

Lemma timeline_of (d : Db) (sid : Z) (x : IncidentWithUpdates) :
  In x (sql_incident_timeline d sid) <->
  In (tl_incident x) (incidents d) /\ inc_service_id (tl_incident x) = sid /\
  tl_updates x = updates_of d (tl_incident x).
Proof.
  unfold sql_incident_timeline. rewrite in_map_iff. split.
  - intros (i & <- & Hi). apply sort_by_In, filter_In in Hi as [Hi Hs].
    apply Z.eqb_eq in Hs. cbn. auto.
  - intros (Hi & Hs & Hu). exists (tl_incident x). split.
    + destruct x as [i u]. cbn in *. rewrite Hu. reflexivity.
    + apply sort_by_In, filter_In. split; [exact Hi | apply Z.eqb_eq; exact Hs].
Qed.


(** X24. After a reconciliation with status operational, the timeline of the
    service shows every incident that was unresolved as resolved, with
    [resolved_at] set, and with the update "Service has been restored and is
    operational" among its updates. *)
Theorem timeline_after_recovery (cfg : Config) (orc : Oracle) (now : Z)
    (service : Service) (r : ProbeResult) (w : World) (i : Incident) :
  status r = operational ->
  In i (incidents (db w)) ->
  active_for (svc_id service) i = true ->
  exists x us,
    In x (sql_incident_timeline (db (snd (reconcile cfg orc now service r w)))
            (svc_id service)) /\
    inc_id (tl_incident x) = inc_id i /\
    inc_status (tl_incident x) = "resolved" /\
    resolved_at (tl_incident x) = Some now /\
    tl_updates x = Some us /\
    In {| iu_incident_id := inc_id i;
          iu_message := "Service has been restored and is operational";
          iu_status := "resolved";
          iu_created_at := now |} us.
Proof.
  intros Hs Hi Ha. unfold reconcile. rewrite Hs.
  destruct (reconcile_operational_tables cfg now service w) as (Hinc & _ & _ & Hu).
  set (d' := db (snd (reconcile_operational cfg now service w))) in *.
  set (i' := resolve_row (svc_id service) now i).
  set (u := {| iu_incident_id := inc_id i;
               iu_message := "Service has been restored and is operational";
               iu_status := "resolved";
               iu_created_at := now |}).
  assert (Hi' : In i' (incidents d'))
    by (rewrite Hinc; apply in_map; exact Hi).
  assert (Hrow : i' = {| inc_id := inc_id i; inc_service_id := inc_service_id i;
                         inc_title := inc_title i;
                         inc_description := inc_description i;
                         inc_status := "resolved"; inc_severity := inc_severity i;
                         started_at := started_at i; resolved_at := Some now |})
    by (unfold i', resolve_row; rewrite Ha; reflexivity).
  assert (Hin_u : In u (incident_updates d')).
  { rewrite Hu. apply in_or_app. right. apply in_map_iff. exists (inc_id i).
    split; [reflexivity|]. apply in_map. apply filter_In. auto. }
  destruct (updates_of_spec d' i') as [Hnone Hsome].
  destruct (updates_of d' i') as [us|] eqn:E.
  - exists {| tl_incident := i'; tl_updates := Some us |}, us.
    split; [|rewrite Hrow; repeat split].
    + apply timeline_of. cbn. split; [exact Hi'|]. split; [|symmetry; exact E].
      rewrite Hrow. cbn. apply active_for_service in Ha as [Ha _]. exact Ha.
    + apply (Hsome us eq_refl). split; [exact Hin_u|]. rewrite Hrow. reflexivity.
  - exfalso. apply (proj1 Hnone eq_refl u Hin_u). rewrite Hrow. reflexivity.
Qed.

End TimelineFacts.

(** The two incidents of the seeded service after its recovery. *)
Lemma timeline_after_recovery_witness :
  exists x,
    In x (sql_incident_timeline
            (db (snd (reconcile Samples.no_secret Samples.all_up 9000 Samples.library
                        (Samples.result_of (Samples.env_responding 200 50))
                        Samples.w4))) 1) /\
    inc_id (tl_incident x) = 2 /\ inc_status (tl_incident x) = "resolved".
Proof.
  destruct (timeline_after_recovery Samples.no_secret Samples.all_up 9000
              Samples.library (Samples.result_of (Samples.env_responding 200 50))
              Samples.w4
              {| inc_id := 2; inc_service_id := 1; inc_title := "Scheduled maintenance";
                 inc_description := None; inc_status := "investigating";
                 inc_severity := "major"; started_at := 8000; resolved_at := None |})
    as (x & us & Hx & Hid & Hst & _).
  - reflexivity.
  - vm_compute. auto.
  - reflexivity.
  - exists x. auto.
Defined.

(** ** The service detail *)



(** ** The summary of active incidents *)

Section SummaryFacts.

Variable name_leb : string -> string -> bool.

Let later_start (best : option Z) (i : Incident) : option Z :=
  match best with
  | None => Some (started_at i)
  | Some t => Some (Z.max t (started_at i))
  end.

Lemma later_start_spec (l : list Incident) :
  forall acc,
    match fold_left later_start l acc with
    | None => acc = None /\ l = []
    | Some t =>
      (acc = Some t \/ exists i, In i l /\ started_at i = t) /\
      (forall i, In i l -> started_at i <= t) /\
      (forall a, acc = Some a -> a <= t)
    end.
Proof.
  induction l as [|i l IH]; intros acc; simpl.
  - destruct acc as [a|]; [|auto]. split; [left; reflexivity|].
    split; [intros i []|]. intros a' [= <-]. lia.
  - specialize (IH (later_start acc i)).
    destruct (fold_left later_start l (later_start acc i)) as [t|].
    + destruct IH as (Hsrc & Hmax & Hacc). unfold later_start in Hsrc, Hacc.
      destruct acc as [a|].
      * specialize (Hacc _ eq_refl). split; [|split].
        -- destruct Hsrc as [[= Ht] | (j & Hj & Ht)]; [|right; exists j; auto].
           destruct (Z.max_spec a (started_at i)) as [[_ M]|[_ M]]; rewrite M in Ht.
           ++ right. exists i. auto.
           ++ left. congruence.
        -- intros j [<-|Hj]; [lia | auto].
        -- intros a' [= <-]. lia.
      * specialize (Hacc _ eq_refl). split; [|split].
        -- destruct Hsrc as [[= Ht] | (j & Hj & Ht)]; right;
             [exists i | exists j]; auto.
        -- intros j [<-|Hj]; [lia | auto].
        -- intros a' [=].
    + destruct IH as [H _]. unfold later_start in H. destruct acc; discriminate.
Qed.

Lemma unresolved_In (d : Db) (i : Incident) :
  In i (unresolved d) <-> In i (incidents d) /\ not_resolved i = true.
Proof. unfold unresolved. apply filter_In. Qed.

Lemma filter_and_length {A} (a b : A -> bool) (l : list A) :
  (List.length (filter (fun x => a x && b x) l) <= List.length (filter b l))%nat.
Proof.
  induction l as [|x l IH]; simpl; [lia|].
  destruct (a x), (b x); simpl; lia.
Qed.

(** X26. The summary of active incidents. Its count is the number of
    unresolved incidents: zero exactly when no service has one, and never
    less than the count of any single service. The latest start is null
    exactly when the count is zero, and otherwise the greatest start among
    unresolved incidents. The affected services are, without repetition, the
    names of the services that have an unresolved incident. A reason is
    listed exactly for each stored reason with a non-empty text of an
    unresolved incident, under the name of that incident's service. *)
Theorem incident_summary_reports (d : Db) :
  let s := incident_summary name_leb d in
  (sum_active_count s = 0%nat <-> forall sid, active_count d sid = 0%nat) /\
  (forall sid, (active_count d sid <= sum_active_count s)%nat) /\
  (sum_latest_started_at s = None <-> sum_active_count s = 0%nat) /\
  (forall t, sum_latest_started_at s = Some t ->
     (exists i, In i (incidents d) /\ not_resolved i = true /\ started_at i = t) /\
     forall i, In i (incidents d) -> not_resolved i = true -> started_at i <= t) /\
  NoDup (sum_affected_services s) /\
  (forall n, In n (sum_affected_services s) <->
     exists i sv, In i (incidents d) /\ not_resolved i = true /\
                  In sv (services d) /\ svc_id sv = inc_service_id i /\
                  svc_name sv = n) /\
  (forall n t, In {| rl_service := n; rl_reason := t |} (sum_reasons s) <->
     t <> "" /\
     exists i sv ar, In i (incidents d) /\ not_resolved i = true /\
                     In sv (services d) /\ svc_id sv = inc_service_id i /\
                     svc_name sv = n /\
                     In ar (announcement_reasons d) /\
                     ar_incident_id ar = inc_id i /\ reason_text ar = t).
Proof.
  intros s. subst s. unfold incident_summary.
  cbn [sum_active_count sum_latest_started_at sum_affected_services sum_reasons].
  split; [|split; [|split; [|split; [|split; [|split]]]]].
  - rewrite length_zero_iff_nil. split.
    + intros Hnil sid. unfold active_count. apply length_zero_iff_nil.
      apply filter_none. intros i Hi. unfold active_for.
      destruct (not_resolved i) eqn:N; [|apply andb_false_r].
      assert (In i (unresolved d)) by (apply unresolved_In; auto).
      rewrite Hnil in H. destruct H.
    + intros Hall. destruct (unresolved d) as [|i l] eqn:E; [reflexivity|].
      assert (Hi : In i (unresolved d)) by (rewrite E; left; reflexivity).
      apply unresolved_In in Hi as [Hi Hn]. specialize (Hall (inc_service_id i)).
      unfold active_count in Hall. apply length_zero_iff_nil in Hall.
      assert (In i (filter (active_for (inc_service_id i)) (incidents d)))
        by (apply filter_In; split; [exact Hi | apply active_for_intro; exact Hn]).
      rewrite Hall in H. destruct H.
  - intros sid. unfold active_count, unresolved, active_for. apply filter_and_length.
  - unfold sql_latest_started. fold later_start.
    pose proof (later_start_spec (unresolved d) None) as H.
    destruct (fold_left later_start (unresolved d) None) as [t|].
    + split; [discriminate|]. intros Hz. apply length_zero_iff_nil in Hz.
      destruct H as ([[=] | (i & Hi & _)] & _). rewrite Hz in Hi. destruct Hi.
    + destruct H as [_ ->]. split; reflexivity.
  - intros t. unfold sql_latest_started. fold later_start.
    pose proof (later_start_spec (unresolved d) None) as H.
    destruct (fold_left later_start (unresolved d) None) as [t'|]; [|discriminate].
    intros [= ->]. destruct H as ([[=] | (i & Hi & Ht)] & Hmax & _). split.
    + apply unresolved_In in Hi as [Hi Hn]. exists i. auto.
    + intros j Hj Hn. apply Hmax. apply unresolved_In. auto.
  - unfold sql_affected_services.
    apply (Permutation_NoDup (Permutation_sym (sort_by_perm _ _))).
    apply NoDup_nodup.
  - intros n. unfold sql_affected_services.
    rewrite sort_by_In, nodup_In, in_flat_map. split.
    + intros (i & Hi & Hn). apply unresolved_In in Hi as [Hi Hr].
      apply in_map_iff in Hn as (sv & <- & Hsv). unfold services_of in Hsv.
      apply filter_In in Hsv as [Hsv Hid]. apply Z.eqb_eq in Hid.
      exists i, sv. auto.
    + intros (i & sv & Hi & Hr & Hsv & Hid & <-). exists i.
      split; [apply unresolved_In; auto|]. apply in_map. unfold services_of.
      apply filter_In. split; [exact Hsv | apply Z.eqb_eq; exact Hid].
  - intros n t. rewrite in_flat_map. split.
    + intros ([n' o] & Hrow & Hline). cbn [fst snd] in Hline.
      destruct o as [[|c t']|]; [destruct Hline | | destruct Hline].
      destruct Hline as [[= <- <-]|[]]. split; [discriminate|].
      unfold sql_reason_rows in Hrow. apply sort_by_In in Hrow.
      apply in_flat_map in Hrow as (i & Hi & Hrow).
      apply in_flat_map in Hrow as (sv & Hsv & Hrow).
      apply unresolved_In in Hi as [Hi Hr]. unfold services_of in Hsv.
      apply filter_In in Hsv as [Hsv Hid]. apply Z.eqb_eq in Hid.
      destruct (filter (fun ar => ar_incident_id ar =? inc_id i)
                  (announcement_reasons d)) as [|a0 l] eqn:E.
      * destruct Hrow as [[=]|[]].
      * rewrite <- E in Hrow. apply in_map_iff in Hrow as (ar & [= <- Ht] & Har).
        apply filter_In in Har as [Har Hai]. apply Z.eqb_eq in Hai.
        exists i, sv, ar. repeat split; auto.
    + intros (Hne & i & sv & ar & Hi & Hr & Hsv & Hid & <- & Har & Hai & <-).
      exists (svc_name sv, Some (reason_text ar)). split.
      * unfold sql_reason_rows. apply sort_by_In. apply in_flat_map. exists i.
        split; [apply unresolved_In; auto|]. apply in_flat_map. exists sv.
        split; [unfold services_of; apply filter_In; split;
                [exact Hsv | apply Z.eqb_eq; exact Hid]|].
        assert (Hin : In ar (filter (fun ar => ar_incident_id ar =? inc_id i)
                               (announcement_reasons d)))
          by (apply filter_In; split; [exact Har | apply Z.eqb_eq; exact Hai]).
        destruct (filter (fun ar => ar_incident_id ar =? inc_id i)
                    (announcement_reasons d)) as [|a0 l] eqn:E; [destruct Hin|].
        rewrite <- E. apply in_map_iff. exists ar. split; [reflexivity|].
        rewrite E. exact Hin.
      * cbn [fst snd]. destruct (reason_text ar) as [|c t'];
          [contradiction | left; reflexivity].
Qed.

End SummaryFacts.
